(** * flat_log_parser: a shallow embedding of [flat_log_parser/functions.py]

    The pipeline turns one flat log of timestamped notes into one document per
    note.  This development embeds the pipeline's functions and proves the
    properties of the specification against them.

    Conventions.
    - Python [str] values are lists of code points; the model keeps the code
      points U+0000..U+00FF, which are exactly the values of [ascii].
    - Exceptions are values of [exn]; code that can raise returns [exn + A],
      code that also touches the file system lives in the monad [M].
    - A note is the dict that [extract_note_fields] builds and the later
      stages enrich; it is a record whose late keys are optional.
    - What lies outside the program is a parameter: [dateutil]'s parser,
      [str.title], the clock, the constant [definitions.ROOT] and the host
      file system's verdict on file names.

    Results, by claim of the specification.
    - Hold on the code: the worked example (C1), the batch-wide timestamp
      check that writes nothing (C3), the normal form of the tags of every
      document (C7), the [IndexError] on an empty tag list (C10).
    - Do not hold, the code missing what it sets out to do: the report on
      unmatched blocks is lost to a [TypeError] (C2); [validate_dir] is never
      called (C4); a title that ends with ["?"] is not matched (C5); a blank
      title raises [IndexError] instead of getting a name (C6); a candidate
      with a NUL character is refused with an error that does not name it,
      and the error annotated with a refused name is replaced in the
      [finally] clause (C8).
    - Does not hold by design: deriving a file name twice appends the
      extension twice (C9).

    Further properties, read off the code (X1 to X23): what each stage
    returns and which errors it raises, the round trip and the edges of the
    split, the soundness and a completeness result for the field pattern,
    the writer with and without permission to overwrite, what a run leaves
    alone, and when a run returns and what it has written then. *)

From Stdlib Require Import Ascii String List Arith Bool Lia.
From Stdlib Require Import Sorting.Sorted Sorting.Permutation.
Import ListNotations.

Set Implicit Arguments.

(** ** Text *)

Definition text := list ascii.

(** A Python string literal. *)
Definition str (s : string) : text := list_ascii_of_string s.

Definition code (c : ascii) : nat := nat_of_ascii c.

Definition text_dec : forall a b : text, {a = b} + {a <> b} :=
  list_eq_dec ascii_dec.

Definition text_eqb (a b : text) : bool :=
  if text_dec a b then true else false.

Definition newline : ascii := ascii_of_nat 10.
Definition nul : ascii := ascii_of_nat 0.
Definition double_quote : ascii := ascii_of_nat 34.

Module Py.

(** [str.isspace] on one code point: the characters [str.strip()] removes. *)
Definition is_space (c : ascii) : bool :=
  let n := code c in
  ((9 <=? n) && (n <=? 13)) || ((28 <=? n) && (n <=? 32))
  || (n =? 133) || (n =? 160).

(** [str.lower] on one code point below U+0100. *)
Definition lower_char (c : ascii) : ascii :=
  let n := code c in
  if ((65 <=? n) && (n <=? 90))
     || ((192 <=? n) && (n <=? 222) && negb (n =? 215))
  then ascii_of_nat (n + 32) else c.

Definition lower (s : text) : text := map lower_char s.

Fixpoint lstrip (s : text) : text :=
  match s with
  | c :: s' => if is_space c then lstrip s' else s
  | [] => []
  end.

Definition rstrip (s : text) : text := rev (lstrip (rev s)).

Definition strip (s : text) : text := lstrip (rstrip s).

(** [s.replace(a, b)] for one-character [a] and [b]. *)
Definition replace_char (a b : ascii) (s : text) : text :=
  map (fun c => if ascii_dec c a then b else c) s.

(** [s.replace(a, "")] for a one-character [a]. *)
Definition delete_char (a : ascii) (s : text) : text :=
  filter (fun c => if ascii_dec c a then false else true) s.

(** [a in s] for a one-character [a]. *)
Definition contains (a : ascii) (s : text) : bool :=
  existsb (fun c => if ascii_dec c a then true else false) s.

(** [s.split(sep)], which is also [s.rsplit(sep)] when no limit is given. *)
Fixpoint split (sep : ascii) (s : text) : list text :=
  match s with
  | [] => [[]]
  | c :: s' =>
      if ascii_dec c sep then [] :: split sep s'
      else match split sep s' with
           | w :: ws => (c :: w) :: ws
           | [] => [[c]]
           end
  end.

(** [s.startswith(sub)] *)
Fixpoint starts_with (sub s : text) : bool :=
  match sub, s with
  | [], _ => true
  | a :: sub', b :: s' => if ascii_dec a b then starts_with sub' s' else false
  | _ :: _, [] => false
  end.

(** [sub in s] for a string [sub]. *)
Fixpoint occurs (sub s : text) : bool :=
  starts_with sub s
  || match s with
     | [] => false
     | _ :: s' => occurs sub s'
     end.

(** [s[:-1]] *)
Definition drop_last (s : text) : text := removelast s.

(** [s[1:-1]] *)
Definition slice_1_m1 (s : text) : text := removelast (tl s).

End Py.

(** ** Exceptions *)

Unset Elimination Schemes.

(** The values that the program interpolates into its messages. *)
Inductive value :=
| VStr (s : text)
| VInt (n : nat)
| VList (l : list value)
| VDict (d : list (value * value)).

Set Elimination Schemes.

(** An f-string before rendering: literal text, interpolated values and
    values handed to [pformat]. *)
Inductive piece :=
| Txt (s : text)
| Val (v : value)
| Pformat (v : value).

Definition message := list piece.

Definition msg (s : string) : message := [Txt (str s)].

Inductive errno := ENOENT | EEXIST | ENOTEMPTY | ENOTDIR | EISDIR | EINVAL
                 | ENAMETOOLONG.

(** The exceptions the program can raise.  [OSError] stands for the whole
    [OSError] family, with its error number and its [filename] attribute;
    [Noted e n] is the exception [e] after [e.add_note(n)]. *)
Inductive exn :=
| IndexError (m : message)
| KeyError (key : text)
| TypeError (m : message)
| ValueError (m : message)
| RuntimeError (m : message)
| OSError (e : errno) (filename : text)
| Noted (e : exn) (note : message).

Definition res (A : Type) : Type := (exn + A)%type.

Definition ok {A} (a : A) : res A := inr a.
Definition throw {A} (e : exn) : res A := inl e.

Definition rbind {A B} (m : res A) (k : A -> res B) : res B :=
  match m with
  | inl e => inl e
  | inr a => k a
  end.

Declare Scope res_scope.
Delimit Scope res_scope with res.
Notation "x <- m ;; k" := (rbind m (fun x => k))
  (at level 61, m at next level, right associativity) : res_scope.
Notation "m ;; k" := (rbind m (fun _ => k))
  (at level 61, right associativity) : res_scope.

(** A [for] loop whose body may raise, collecting the values it produces. *)
Fixpoint for_each {A B} (f : A -> res B) (l : list A) : res (list B) :=
  match l with
  | [] => ok []
  | a :: l' => (b <- f a ;; bs <- for_each f l' ;; ok (b :: bs))%res
  end.

(** [s[-1]] *)
Definition last_char (s : text) : res ascii :=
  match s with
  | [] => throw (IndexError (msg "string index out of range"))
  | c :: s' => ok (last s' c)
  end.

(** [s[0]] *)
Definition first_char (s : text) : res ascii :=
  match s with
  | [] => throw (IndexError (msg "string index out of range"))
  | c :: _ => ok c
  end.

(** ** Regular expressions

    The fragment of the [regex] module's pattern language that the program
    uses, with the backtracking order of the engine: alternatives left to
    right, [+?] shortest first, [*] longest first. *)

Module Regex.

Inductive cls :=
| CChar (c : ascii)      (* a literal character *)
| CDigit                 (* \d *)
| CAny.                  (* .  : anything but a newline *)

Definition cls_ok (k : cls) (c : ascii) : bool :=
  match k with
  | CChar a => if ascii_dec c a then true else false
  | CDigit => (48 <=? code c) && (code c <=? 57)
  | CAny => if ascii_dec c newline then false else true
  end.

Inductive re :=
| Eps                          (* the empty pattern *)
| Atom (k : cls)
| Cat (r1 r2 : re)
| Alt (r1 r2 : re)
| Times (n : nat) (r : re)     (* r{n} *)
| LazyPlus (k : cls)           (* k+? *)
| Star (k : cls)               (* k* *)
| Group (i : nat) (r : re)     (* the i-th capturing group *)
| Ahead (r : re)               (* (?=r) *)
| BehindChar (c : ascii)       (* (?<=c) *)
| BehindRef (i : nat)          (* (?<=\i) *)
| Eos.                         (* $ *)

(** A literal string. *)
Fixpoint lit (s : text) : re :=
  match s with
  | [] => Eps
  | c :: s' => Cat (Atom (CChar c)) (lit s')
  end.

(** The matcher's state: the text already consumed (most recent character
    first), the text ahead, and the groups captured so far. *)
Record mstate := MState {
  seen : text;
  ahead : text;
  caps : list (nat * text)
}.

Fixpoint cap (i : nat) (cs : list (nat * text)) : option text :=
  match cs with
  | [] => None
  | (j, t) :: cs' => if Nat.eqb i j then Some t else cap i cs'
  end.

Definition cont := mstate -> option mstate.

Fixpoint lazy_plus (c : cls) (k : cont) (sn rs : text)
         (cp : list (nat * text)) : option mstate :=
  match rs with
  | [] => None
  | x :: xs =>
      if cls_ok c x then
        match k (MState (x :: sn) xs cp) with
        | Some m => Some m
        | None => lazy_plus c k (x :: sn) xs cp
        end
      else None
  end.

Fixpoint star (c : cls) (k : cont) (sn rs : text)
         (cp : list (nat * text)) : option mstate :=
  match rs with
  | x :: xs =>
      if cls_ok c x then
        match star c k (x :: sn) xs cp with
        | Some m => Some m
        | None => k (MState sn rs cp)
        end
      else k (MState sn rs cp)
  | [] => k (MState sn rs cp)
  end.

(** The text consumed between two states of one run. *)
Definition consumed (s s' : mstate) : text :=
  rev (firstn (length (seen s') - length (seen s)) (seen s')).

Fixpoint run (r : re) (k : cont) (s : mstate) : option mstate :=
  match r with
  | Eps => k s
  | Atom c =>
      match ahead s with
      | x :: xs => if cls_ok c x then k (MState (x :: seen s) xs (caps s))
                   else None
      | [] => None
      end
  | Cat r1 r2 => run r1 (run r2 k) s
  | Alt r1 r2 =>
      match run r1 k s with
      | Some m => Some m
      | None => run r2 k s
      end
  | Times n r1 =>
      (fix rep (n : nat) : cont :=
         match n with
         | 0 => k
         | S n' => run r1 (rep n')
         end) n s
  | LazyPlus c => lazy_plus c k (seen s) (ahead s) (caps s)
  | Star c => star c k (seen s) (ahead s) (caps s)
  | Group i r1 =>
      run r1 (fun s' => k (MState (seen s') (ahead s')
                                  ((i, consumed s s') :: caps s'))) s
  | Ahead r1 =>
      match run r1 Some s with
      | Some m => k (MState (seen s) (ahead s) (caps m))
      | None => None
      end
  | BehindChar c =>
      match seen s with
      | x :: _ => if ascii_dec x c then k s else None
      | [] => None
      end
  | BehindRef i =>
      match cap i (caps s) with
      | Some t => if Py.starts_with (rev t) (seen s) then k s else None
      | None => None
      end
  | Eos =>
      match ahead s with
      | [] => k s
      | [x] => if ascii_dec x newline then k s else None
      | _ => None
      end
  end.

(** [regex.match(r, s)]: a match anchored at the start of [s]. *)
Definition rmatch (r : re) (s : text) : option mstate :=
  run r Some (MState [] s []).

(** [regex.split(r, s)] for a pattern without groups whose matches are not
    empty: the pieces between the successive leftmost matches. *)
Fixpoint split_from (r : re) (sn rs cur : text) (skip : nat) : list text :=
  match rs with
  | [] => [rev cur]
  | c :: rs' =>
      match skip with
      | S k => split_from r (c :: sn) rs' cur k
      | 0 =>
          match run r Some (MState sn rs []) with
          | Some m =>
              rev cur :: split_from r (c :: sn) rs' []
                                    (length (seen m) - length sn - 1)
          | None => split_from r (c :: sn) rs' (c :: cur) 0
          end
      end
  end.

Definition split (r : re) (s : text) : list text := split_from r [] s [] 0.

End Regex.

(** [sep.join(l)] *)
Fixpoint join (sep : text) (l : list text) : text :=
  match l with
  | [] => []
  | [a] => a
  | a :: l' => a ++ sep ++ join sep l'
  end.

(** ** The file system

    The program sees three kinds of object: the input file, and directories
    (the scratch directory, the output directory) with the files in them.  A
    store maps a path to a file's text or to a directory's entries.

    - [File s] is a regular file that [open(p, "r").read()] returns as the
      text [s]; a file that does not decode in the locale's encoding is not
      an object of this model.
    - The keys of a store are the paths of distinct objects, and the files
      of a directory are its entries: no key of a store lies inside a
      directory that is a key of the store too.
    - The string of a name joined to a directory is the one [pathlib] gives.
      As an object, the joined path is the entry of that name in that
      directory, which is what the host makes of a name without a slash; a
      name with a slash points into another directory, and there the store
      of the model and the host part ways.  The theorems about the files a
      run touches are stated for names without a slash.
    - Whether the host takes a name is the parameter [probe] below.  The
      directory above the scratch directory is taken to exist: it holds the
      package itself. *)

Record post := Post {
  post_content : text;
  post_tags : list text;
  post_cdt : text;
  post_mdt : text
}.

(** What a file inside a directory holds: nothing (after [touch]) or a
    document written by [frontmatter.dump]. *)
Inductive filedata :=
| Empty
| Document (p : post).

Inductive node :=
| File (s : text)
| Dir (entries : list (text * filedata)).

Definition world := list (text * node).

(** [Path(d) / name] *)
Record path := Path { path_dir : text; path_name : text }.

(** [pathlib] on POSIX keeps of a string its root, which is one slash, two
    slashes or nothing, and its parts, which are the pieces between slashes
    other than the empty one and the single dot. *)
Definition root_of (s : text) : text :=
  match s with
  | "/" :: "/" :: "/" :: _ => str "/"
  | "/" :: "/" :: _ => str "//"
  | "/" :: _ => str "/"
  | _ => []
  end%char.

Definition parts (s : text) : list text :=
  filter (fun c => negb (text_eqb c []) && negb (text_eqb c (str ".")))
         (Py.split "/" s).

(** [str(PurePosixPath(s))] *)
Definition normal (s : text) : text :=
  match root_of s, parts s with
  | [], [] => str "."
  | r, ps => r ++ join (str "/") ps
  end.

(** [posixpath.join(d, name)] *)
Definition posix_join (d name : text) : text :=
  if Py.starts_with (str "/") name then name
  else match rev d with
       | [] => name
       | "/"%char :: _ => d ++ name
       | _ => d ++ str "/" ++ name
       end.

(** [str(Path(d) / name)] *)
Definition joinpath (d name : text) : text := normal (posix_join d name).

(** [str(p)] *)
Definition path_str (p : path) : text := joinpath (path_dir p) (path_name p).

Fixpoint lookup {A} (k : text) (l : list (text * A)) : option A :=
  match l with
  | [] => None
  | (k', a) :: l' => if text_dec k k' then Some a else lookup k l'
  end.

Fixpoint remove_key {A} (k : text) (l : list (text * A)) : list (text * A) :=
  match l with
  | [] => []
  | (k', a) :: l' =>
      if text_dec k k' then remove_key k l' else (k', a) :: remove_key k l'
  end.

Definition put {A} (k : text) (a : A) (l : list (text * A)) : list (text * A) :=
  (k, a) :: remove_key k l.

(** Computations that may raise and may change the file system. *)
Definition M (A : Type) : Type := world -> res A * world.

Definition ret {A} (a : A) : M A := fun w => (inr a, w).
Definition raise {A} (e : exn) : M A := fun w => (inl e, w).
Definition lift {A} (r : res A) : M A := fun w => (r, w).

Definition bind {A B} (m : M A) (k : A -> M B) : M B :=
  fun w => match m w with
           | (inl e, w') => (inl e, w')
           | (inr a, w') => k a w'
           end.

Declare Scope io_scope.
Delimit Scope io_scope with io.
Notation "x <- m ;; k" := (bind m (fun x => k))
  (at level 61, m at next level, right associativity) : io_scope.
Notation "m ;; k" := (bind m (fun _ => k))
  (at level 61, right associativity) : io_scope.

(** [try: body finally: fin].  The [finally] block always runs; when it
    raises, its exception replaces whatever [body] produced. *)
Definition try_finally {A} (body : M A) (fin : M unit) : M A :=
  fun w => match body w with
           | (r, w1) => match fin w1 with
                        | (inl e, w2) => (inl e, w2)
                        | (inr _, w2) => (r, w2)
                        end
           end.

(** [try: body except C as e: handler e], for the class [C] that [catches]
    recognises. *)
Definition try_except {A} (catches : exn -> bool) (body : M A)
           (handler : exn -> M A) : M A :=
  fun w => match body w with
           | (inl e, w1) => if catches e then handler e w1 else (inl e, w1)
           | (inr a, w1) => (inr a, w1)
           end.

Fixpoint is_OSError (e : exn) : bool :=
  match e with
  | OSError _ _ => true
  | Noted e' _ => is_OSError e'
  | _ => false
  end.

Definition is_Exception (e : exn) : bool := true.

(** [e.add_note(n)] *)
Definition add_note (e : exn) (n : message) : exn := Noted e n.

Fixpoint for_each_io {A B} (f : A -> M B) (l : list A) : M (list B) :=
  match l with
  | [] => ret []
  | a :: l' => (b <- f a ;; bs <- for_each_io f l' ;; ret (b :: bs))%io
  end.

(** How a file name is refused: by the host, with an error number, when the
    name does not resolve (it is too long, or points below a directory that
    is not there); or by Python itself, before the host is asked, with the
    [ValueError] for a name that holds a NUL character. *)
Inductive refusal :=
| Errno (e : errno)
| NullByte.

Definition refused (r : refusal) (filename : text) : exn :=
  match r with
  | Errno e => OSError e filename
  | NullByte => ValueError (msg "embedded null byte")
  end.

Module FS.

(** [open(p, "r").read()] *)
Definition read_text (p : text) : M text :=
  fun w => match lookup p w with
           | Some (File s) => (inr s, w)
           | Some (Dir _) => (inl (OSError EISDIR p), w)
           | None => (inl (OSError ENOENT p), w)
           end.

(** [p.exists()] for a path made of a directory and a name.  For a name
    that is too long [exists] raises the error of the name itself; in
    [write_notes] the [dump] that follows [exists] raises that same error,
    and so [exists] answers [False] here. *)
Definition exists_ (p : path) : M bool :=
  fun w => match lookup (path_dir p) w with
           | Some (Dir es) =>
               (inr (match lookup (path_name p) es with
                     | Some _ => true
                     | None => false
                     end), w)
           | _ => (inr false, w)
           end.

(** [d.exists()] and [d.is_dir()] for a directory path. *)
Definition dir_exists (d : text) : M bool :=
  fun w => (inr (match lookup d w with
                 | Some _ => true
                 | None => false
                 end), w).

Definition is_dir (d : text) : M bool :=
  fun w => (inr (match lookup d w with
                 | Some (Dir _) => true
                 | _ => false
                 end), w).

(** [d.mkdir()] *)
Definition mkdir (d : text) : M unit :=
  fun w => match lookup d w with
           | Some _ => (inl (OSError EEXIST d), w)
           | None => (inr tt, put d (Dir []) w)
           end.

(** [d.rmdir()] *)
Definition rmdir (d : text) : M unit :=
  fun w => match lookup d w with
           | Some (Dir []) => (inr tt, remove_key d w)
           | Some (Dir (_ :: _)) => (inl (OSError ENOTEMPTY d), w)
           | Some (File _) => (inl (OSError ENOTDIR d), w)
           | None => (inl (OSError ENOENT d), w)
           end.

Section Names.

(** The verdict on a file name: [None] when a file of that name can be
    created in a directory, the refusal otherwise.  A refusal is one of the
    name: every operation on a path of that name ends with it. *)
Variable probe : text -> option refusal.

(** The name of [p] is one that Python refuses before it asks the host. *)
Definition null_byte (p : path) : bool :=
  match probe (path_name p) with
  | Some NullByte => true
  | _ => false
  end.

(** [p.touch(exist_ok=False)] *)
Definition touch (p : path) : M unit :=
  fun w =>
    if null_byte p then (inl (refused NullByte (path_str p)), w)
    else match lookup (path_dir p) w with
         | Some (Dir es) =>
             match lookup (path_name p) es with
             | Some _ => (inl (OSError EEXIST (path_str p)), w)
             | None =>
                 match probe (path_name p) with
                 | Some r => (inl (refused r (path_str p)), w)
                 | None =>
                     (inr tt,
                      put (path_dir p) (Dir (put (path_name p) Empty es)) w)
                 end
             end
         | Some (File _) => (inl (OSError ENOTDIR (path_str p)), w)
         | None => (inl (OSError ENOENT (path_str p)), w)
         end.

(** [p.unlink()].  Where there is no file of the name, the error is the
    refusal of the name, if it is one the host refuses, and [ENOENT]
    otherwise. *)
Definition unlink (p : path) : M unit :=
  fun w =>
    if null_byte p then (inl (refused NullByte (path_str p)), w)
    else match lookup (path_dir p) w with
         | Some (Dir es) =>
             match lookup (path_name p) es with
             | Some _ =>
                 (inr tt,
                  put (path_dir p) (Dir (remove_key (path_name p) es)) w)
             | None =>
                 match probe (path_name p) with
                 | Some r => (inl (refused r (path_str p)), w)
                 | None => (inl (OSError ENOENT (path_str p)), w)
                 end
             end
         | Some (File _) => (inl (OSError ENOTDIR (path_str p)), w)
         | None => (inl (OSError ENOENT (path_str p)), w)
         end.

(** [frontmatter.dump(post, fd=str(p))]: the file is opened for writing,
    created or truncated, and the document is written to it. *)
Definition dump (d : post) (p : path) : M unit :=
  fun w =>
    if null_byte p then (inl (refused NullByte (path_str p)), w)
    else match lookup (path_dir p) w with
         | Some (Dir es) =>
             match lookup (path_name p) es, probe (path_name p) with
             | None, Some r => (inl (refused r (path_str p)), w)
             | _, _ =>
                 (inr tt,
                  put (path_dir p) (Dir (put (path_name p) (Document d) es)) w)
             end
         | Some (File _) => (inl (OSError ENOTDIR (path_str p)), w)
         | None => (inl (OSError ENOENT (path_str p)), w)
         end.

End Names.

End FS.

(** ** Notes *)

(** The dict of one note.  [extract_note_fields] creates it with the keys
    ['datetime'], ['title'], ['content'] and ['tags']; [add_filenames] adds
    ['filename'] and [parse_tags] adds ['cleaned_tags']. *)
Record note := Note {
  datetime : text;
  title : text;
  content : text;
  tags : text;
  filename : option text;
  cleaned_tags : option (list text)
}.

Definition set_datetime (v : text) (n : note) : note :=
  Note v (title n) (content n) (tags n) (filename n) (cleaned_tags n).

Definition set_content (v : text) (n : note) : note :=
  Note (datetime n) (title n) v (tags n) (filename n) (cleaned_tags n).

Definition set_filename (v : text) (n : note) : note :=
  Note (datetime n) (title n) (content n) (tags n) (Some v) (cleaned_tags n).

Definition set_cleaned_tags (v : list text) (n : note) : note :=
  Note (datetime n) (title n) (content n) (tags n) (filename n) (Some v).

(** [note.items()], restricted to the keys whose values are strings. *)
Definition items (n : note) : list (text * text) :=
  [(str "datetime", datetime n); (str "title", title n);
   (str "content", content n); (str "tags", tags n)]
  ++ match filename n with
     | Some f => [(str "filename", f)]
     | None => []
     end.

(** [note["filename"]] and [note["cleaned_tags"]] *)
Definition get_filename (n : note) : res text :=
  match filename n with
  | Some f => ok f
  | None => throw (KeyError (str "filename"))
  end.

Definition get_cleaned_tags (n : note) : res (list text) :=
  match cleaned_tags n with
  | Some l => ok l
  | None => throw (KeyError (str "cleaned_tags"))
  end.

(** Subscripting an element of [decomposed_notes], which is a dict or [None]. *)
Definition subscript (d : option note) : res note :=
  match d with
  | Some n => ok n
  | None => throw (TypeError (msg "'NoneType' object is not subscriptable"))
  end.

(** Truth value of a dict-or-[None]; the dicts here are never empty. *)
Definition truthy (d : option note) : bool :=
  match d with
  | Some _ => true
  | None => false
  end.

(** ** Ordering of tags: [sorted] compares strings code point by code point. *)

Fixpoint text_ltb (a b : text) : bool :=
  match a, b with
  | [], [] => false
  | [], _ :: _ => true
  | _ :: _, [] => false
  | x :: a', y :: b' =>
      if code x <? code y then true
      else if code y <? code x then false
      else text_ltb a' b'
  end.

Definition text_leb (a b : text) : bool := negb (text_ltb b a).

Fixpoint insert_sorted (x : text) (l : list text) : list text :=
  match l with
  | [] => [x]
  | y :: l' => if text_leb x y then x :: l else y :: insert_sorted x l'
  end.

(** [sorted(l)] *)
Definition sorted (l : list text) : list text :=
  fold_right insert_sorted [] l.

(** [list(set(l))]: the distinct elements of [l].  Python leaves their order
    open; every use in the program sorts them next. *)
Definition list_set (l : list text) : list text := nodup text_dec l.

(** ** The pipeline *)

Import Regex.

Definition seq (rs : list re) : re := fold_right Cat Eps rs.

Definition digit : re := Atom CDigit.
Definition chr (c : ascii) : re := Atom (CChar c).

(** [\d{4}-\d{2}-\d{2} \d{2}:\d{2}:\d{2}] *)
Definition stamp : re :=
  seq [Times 4 digit; chr "-"; Times 2 digit; chr "-"; Times 2 digit; chr " ";
       Times 2 digit; chr ":"; Times 2 digit; chr ":"; Times 2 digit].

(** The pattern of [get_notes_from_path]:
    [(?<=\])\n\n(?=\d{4}-\d{2}-\d{2} \d{2}:\d{2}:\d{2})] *)
Definition pattern : re :=
  seq [BehindChar "]"; chr newline; chr newline; Ahead stamp].

(** The dict [regexps] of [extract_note_fields], in insertion order. *)
Definition regexps : list (text * re) :=
  [ (str "datetime", Group 1 stamp);
    (str "separator", lit (str " - "));
    (str "title",
       Group 2 (Cat (LazyPlus CAny) (Ahead (Alt (chr ".") (chr "?")))));
    (str "content",
       seq [BehindRef 2; chr "."; chr " "; Group 3 (LazyPlus CAny);
            Ahead (lit (str " tag"))]);
    (str "tags",
       seq [BehindRef 3; lit (str " tags: "); Group 4 (Star CAny); Eos]) ].

(** The concatenation of the values of [regexps]. *)
Definition regexp : re := seq (map snd regexps).

(** [match.groupdict()] for the four named groups. *)
Definition groupdict (m : mstate) : option note :=
  match cap 1 (caps m), cap 2 (caps m), cap 3 (caps m), cap 4 (caps m) with
  | Some d, Some t, Some c, Some g => Some (Note d t c g None None)
  | _, _, _, _ => None
  end.

Definition extract_note_fields (raw : text) : option note :=
  match rmatch regexp raw with
  | Some m => groupdict m
  | None => None
  end.

Fixpoint enumerate_from {A} (i : nat) (l : list A) : list (nat * A) :=
  match l with
  | [] => []
  | a :: l' => (i, a) :: enumerate_from (S i) l'
  end.

(** [notes[i]] *)
Definition index_list (notes : list text) (i : nat) : res text :=
  match nth_error notes i with
  | Some n => ok n
  | None => throw (IndexError (msg "list index out of range"))
  end.

(** [with ValueError as e: body].  The context expression is the class
    [ValueError] itself; a class object has no [__enter__], so the statement
    raises [TypeError] and [body] does not run. *)
Definition with_ValueError_class (body : exn -> res unit) : res unit :=
  throw (TypeError
           (msg "'type' object does not support the context manager protocol")).

Definition check_notes_without_matches (notes : list text)
           (decomposed_notes : list (option note)) : res unit :=
  let n_no_match :=
    length notes - length (filter truthy decomposed_notes) in
  let no_match_indexes :=
    map fst (filter (fun p => negb (truthy (snd p)))
                    (enumerate_from 0 decomposed_notes)) in
  (no_match_notes <- for_each (index_list notes) no_match_indexes ;;
   match no_match_indexes with
   | _ :: _ =>
       with_ValueError_class (fun e =>
         let e := add_note e [Txt (str "number of notes without match: ");
                              Val (VInt n_no_match)] in
         let e := add_note e [Txt (str "no match notes indexes: ");
                              Val (VList (map VInt no_match_indexes))] in
         let e := add_note e [Txt (str "notes that didnt match:"
                                   ++ [newline; newline]);
                              Pformat (VDict (combine
                                                (map VInt no_match_indexes)
                                                (map VStr no_match_notes)))] in
         ok tt)
   | [] => ok tt
   end)%res.

Definition decompose_notes (notes : list text) : res (list (option note)) :=
  let decomposed_notes := map extract_note_fields notes in
  (check_notes_without_matches notes decomposed_notes ;;
   if negb (existsb truthy decomposed_notes)
   then throw (ValueError (msg "a match was not found in a note"))
   else ok decomposed_notes)%res.

(** The characters that [add_filenames] deletes from a name. *)
Definition disallowed : list ascii :=
  [double_quote; ","; "-"; "'"; "?"; "^"]%char.

(** The name that [add_filenames] derives from a title (the statements
    between ["# clean"] and the probe). *)
Definition filename_of_title (title : text) : res text :=
  let name := Py.strip (Py.lower title) in
  (c <- last_char name ;;
   let name :=
     if existsb (fun p => if ascii_dec c p then true else false)
                ["?"; ","; "."]%char
     then Py.drop_last name else name in
   let name := Py.replace_char " " "_" name in
   let name := name ++ str ".md" in
   let name := fold_left (fun n char => Py.delete_char char n) disallowed name in
   ok name)%res.

(** The body of the loop of [parse_tags]. *)
Definition parse_tags_note (n : note) : res note :=
  let tags := Py.strip (tags n) in
  let tags_without_brackets := Py.strip (Py.slice_1_m1 tags) in
  (c <- last_char tags_without_brackets ;;
   let tags_without_brackets :=
     if ascii_dec c "," then Py.drop_last tags_without_brackets
     else tags_without_brackets in
   let cleaned_tags := map Py.strip (Py.split "," tags_without_brackets) in
   for_each (fun tag =>
               if Py.contains " " tag
               then throw (ValueError
                             [Txt (str "something went wrong when parsing ");
                              Val (VStr (title n));
                              Txt (str ", space detected..")])
               else ok tt) cleaned_tags ;;
   ok (set_cleaned_tags cleaned_tags n))%res.

Definition parse_tags (notes : list note) : res (list note) :=
  for_each parse_tags_note notes.

Definition add_mres_tag (n : note) : res note :=
  (l <- get_cleaned_tags n ;;
   ok (set_cleaned_tags (l ++ [str "mres"]) n))%res.

Definition dropping_duplicates_and_sorting_tags (n : note) : res note :=
  (l <- get_cleaned_tags n ;;
   ok (set_cleaned_tags (sorted (list_set l)) n))%res.

Definition add_new_line_after_content (n : note) : note :=
  set_content (content n ++ [newline]) n.

Section Pipeline.

(** [dateutil]'s [parse(s).isoformat()]; [None] stands for [ParserError]. *)
Variable parse_isoformat : text -> option text.

(** [str.title] *)
Variable title_case : text -> text.

(** [datetime.now().isoformat()] *)
Variable now : text.

(** [Path(definitions.ROOT).parent]; the module [definitions] is outside
    the sources at hand. *)
Variable root_parent : text.

(** The host file system's verdict on file names (see [FS.touch]). *)
Variable probe : text -> option refusal.

Definition get_notes_from_path (p : text) : M (list text) :=
  (string <- FS.read_text p ;;
   let notes := Regex.split pattern string in
   lift (for_each (fun note =>
                     (c0 <- first_char note ;;
                      if negb (if ascii_dec c0 "2" then true else false)
                      then throw (ValueError (msg "note doesnt start with a 2"))
                      else
                        c1 <- last_char note ;;
                        if negb (if ascii_dec c1 "]" then true else false)
                        then throw (ValueError
                                      (msg "note doesnt end with a ']'"))
                        else ok tt)%res) notes) ;;
   ret notes)%io.

(** The body of the loop of [validate_datetimes]: the note with its
    ['datetime'] rewritten, and whether it joins [no_parse_date_notes]. *)
Definition validate_datetime (d : option note) : res (note * bool) :=
  (n <- subscript d ;;
   let old_dt := datetime n in
   match parse_isoformat old_dt with
   | Some new_dt => ok (set_datetime new_dt n, false)
   | None => ok (set_datetime old_dt n, true)
   end)%res.

Definition validate_datetimes (notes : list (option note)) : res (list note) :=
  (marked <- for_each validate_datetime notes ;;
   let no_parse_date_notes := map fst (filter snd marked) in
   match no_parse_date_notes with
   | _ :: _ =>
       let n_no_parse := length no_parse_date_notes in
       let date_titles :=
         map (fun n =>
                VDict (map (fun kv => (VStr (fst kv), VStr (snd kv)))
                           (filter (fun kv =>
                                      existsb (text_eqb (fst kv))
                                              [str "title"; str "datetime"])
                                   (items n))))
             no_parse_date_notes in
       throw (ValueError
                [Txt (str "Some note datetimes were unable to be parsed. ");
                 Val (VInt n_no_parse);
                 Txt (str " were not parsed. They are as follows:"
                      ++ [newline; newline]);
                 Pformat (VList date_titles)])
   | [] => ok (map fst marked)
   end)%res.

Definition temp_dir : text := joinpath root_parent (str "test_valid_names").

(** The [try] and [except] clauses of the probe in [add_filenames]. *)
Definition touch_or_annotate (temp_outpath : path) (name : text) : M unit :=
  try_except is_OSError (FS.touch probe temp_outpath)
    (fun e =>
       raise (add_note e [Txt (str "file name potentially  invalid: ");
                          Val (VStr name)])).

(** The body of the loop of [add_filenames].  The assignment of
    ['filename'] stands last in the [finally] clause; it is reached when
    [unlink] returns. *)
Definition add_filename (n : note) : M note :=
  (name <- lift (filename_of_title (title n)) ;;
   let temp_outpath := Path temp_dir name in
   try_finally (touch_or_annotate temp_outpath name)
               (FS.unlink probe temp_outpath) ;;
   ret (set_filename name n))%io.

Definition add_filenames (notes : list note) : M (list note) :=
  try_finally
    (try_except is_Exception
       (FS.mkdir temp_dir ;; for_each_io add_filename notes)%io
       (fun e => raise e))
    (FS.rmdir temp_dir).

Definition validate_dir (out_dir_path : text) : M unit :=
  (e <- FS.dir_exists out_dir_path ;;
   if negb e then raise (ValueError (msg "out_dir_path must exist"))
   else
     d <- FS.is_dir out_dir_path ;;
     if negb d
     then raise (ValueError (msg "out_dir_path must be a directory"))
     else ret tt)%io.

Definition add_title_as_markdown (n : note) : note :=
  let formatted_title := str "# " ++ title_case (title n) in
  set_content (formatted_title ++ [newline; newline] ++ content n) n.

(** The body of the loop of [form_posts]. *)
Definition form_post (out_dir_path : text) (n : note) : res (post * path) :=
  (n <- add_mres_tag n ;;
   n <- dropping_duplicates_and_sorting_tags n ;;
   let n := add_title_as_markdown n in
   let n := add_new_line_after_content n in
   tags <- get_cleaned_tags n ;;
   let post := Post (content n) tags (datetime n) now in
   f <- get_filename n ;;
   ok (post, Path out_dir_path f))%res.

Definition form_posts (notes : list note) (out_dir_path : text)
  : res (list (post * path)) :=
  for_each (form_post out_dir_path) notes.

(** The loop of [write_notes], with [written_files] as accumulator.  The
    [print] of each path is left out. *)
Fixpoint write_loop (posts : list (post * path)) (overwrite_ok : bool)
         (written_files : list text) : M (list text) :=
  match posts with
  | [] => ret written_files
  | (post, p) :: posts' =>
      (e <- FS.exists_ p ;;
       if e && negb overwrite_ok
       then raise (RuntimeError
                     [Val (VStr (path_str p));
                      Txt (str " already exists. To overwrite set `overwite_ok` to True")])
       else
         let written_files := written_files ++ [path_str p] in
         FS.dump probe post p ;;
         write_loop posts' overwrite_ok written_files)%io
  end.

Definition write_notes (posts : list (post * path)) (overwrite_ok : bool)
  : M (list text) :=
  write_loop posts overwrite_ok [].

Definition output_notes (notes : list note) (out_dir_path : text)
           (overwrite_ok : bool) : M (list text) :=
  (posts <- lift (form_posts notes out_dir_path) ;;
   write_notes posts overwrite_ok)%io.

Definition flat_note_to_atoms (in_path out_dir : text) (overwrite_ok : bool)
  : M (list text) :=
  (notes <- get_notes_from_path in_path ;;
   decomp_notes <- lift (decompose_notes notes) ;;
   decomp_notes <- lift (validate_datetimes decomp_notes) ;;
   decomp_notes <- add_filenames decomp_notes ;;
   decomp_notes <- lift (parse_tags decomp_notes) ;;
   output_notes decomp_notes out_dir overwrite_ok)%io.

End Pipeline.

(** ** The cleaning transform in the words of the specification

    "lower-casing, trimming surrounding whitespace, stripping one trailing
    punctuation character (?, , or .) if present, replacing spaces with
    underscores, appending a fixed document-file extension, then removing a
    fixed set of disallowed characters". *)

Module Spec.

Definition trailing_punctuation (c : ascii) : bool :=
  existsb (fun p => if ascii_dec c p then true else false) ["?"; ","; "."]%char.

Definition strip_one_trailing_punctuation (s : text) : text :=
  if trailing_punctuation (last s " "%char) then removelast s else s.

Definition replace_spaces (s : text) : text :=
  map (fun c => if ascii_dec c " " then "_"%char else c) s.

Definition append_extension (s : text) : text := s ++ str ".md".

Definition remove_disallowed (s : text) : text :=
  filter (fun c => negb (existsb (fun d => if ascii_dec c d then true else false)
                                 disallowed)) s.

Definition filename (title : text) : text :=
  remove_disallowed
    (append_extension
       (replace_spaces
          (strip_one_trailing_punctuation
             (Py.strip (Py.lower title))))).

End Spec.

(** ** Sample surroundings

    Concrete stand-ins for what lies outside the program, used to run the
    pipeline on examples. *)

Module Sample.

(** A parser that accepts the stamps the log format prescribes, with months
    1 to 12 only, and renders them with a ["T"] between date and time. *)
Definition parse_isoformat (s : text) : option text :=
  match rmatch (Cat stamp Eos) s with
  | Some _ =>
      match s with
      | y1 :: y2 :: y3 :: y4 :: d1 :: m1 :: m2 :: rest =>
          if (code m1 =? 48) && (49 <=? code m2)
             || (code m1 =? 49) && (code m2 <=? 50)
          then Some (firstn 10 s ++ str "T" ++ skipn 11 s)
          else None
      | _ => None
      end
  | None => None
  end.

Definition upper_ascii (c : ascii) : ascii :=
  if (97 <=? code c) && (code c <=? 122) then ascii_of_nat (code c - 32) else c.

Definition is_letter (c : ascii) : bool :=
  let n := code (Py.lower_char c) in (97 <=? n) && (n <=? 122).

Fixpoint title_from (inside_word : bool) (s : text) : text :=
  match s with
  | [] => []
  | c :: s' =>
      (if inside_word then Py.lower_char c else upper_ascii c)
        :: title_from (is_letter c) s'
  end.

Definition title_case (s : text) : text := title_from false s.

Definition now : text := str "2024-06-01T12:00:00".

Definition root_parent : text := str "/srv/project".

(** Names with a NUL character are refused by Python; names with a slash
    point below a directory that is not there; names of more than 255
    characters are too long. *)
Definition probe (name : text) : option refusal :=
  if Py.contains nul name then Some NullByte
  else if Py.contains "/" name then Some (Errno ENOENT)
  else if 255 <? length name then Some (Errno ENAMETOOLONG)
  else None.

Definition buy_milk : text :=
  str "2024-01-01 10:00:00 - Buy milk. Need milk for coffee tags: [errand, home,]".

Definition log_path : text := str "/home/user/devnotes.md".
Definition out_dir : text := str "/home/user/zettel".

(** A store with the one-note log and an empty output directory. *)
Definition store : world := [(log_path, File buy_milk); (out_dir, Dir [])].

(** The same store without the output directory. *)
Definition store_without_out_dir : world := [(log_path, File buy_milk)].

(** A log of two notes; the month of the second stamp is 13. *)
Definition call_home : text :=
  str "2024-13-01 09:00:00 - Call home. After lunch tags: [family]".

Definition two_notes : text := buy_milk ++ [newline; newline] ++ call_home.

Definition store_two_notes : world :=
  [(log_path, File two_notes); (out_dir, Dir [])].

(** A log whose only block has no fields. *)
Definition store_unmatched : world :=
  [(log_path, File (str "2024-01-02 09:00:00 a note without fields]"))].

(** A log whose only note has a blank title. *)
Definition blank_title : text :=
  str "2024-01-01 10:00:00 -  . Remember tags: [todo]".

Definition store_blank_title : world :=
  [(log_path, File blank_title); (out_dir, Dir [])].

(** A store in which the output path is a regular file. *)
Definition store_out_is_file : world :=
  [(log_path, File buy_milk); (out_dir, File (str "not a directory"))].

Definition run (in_path out : text) (overwrite_ok : bool) : M (list text) :=
  flat_note_to_atoms parse_isoformat title_case now root_parent probe
                     in_path out overwrite_ok.

End Sample.

(** ** Predicates used in the statements *)

Definition text_lt (a b : text) : Prop := text_ltb a b = true.
Definition text_le (a b : text) : Prop := text_leb a b = true.

Definition mres : text := str "mres".

(** A tag list in normal form: ascending, free of repeats, with the marker
    tag in it once. *)
Definition normalized (l : list text) : Prop :=
  StronglySorted text_le l /\ NoDup l /\ count_occ text_dec l mres = 1.

(** A note that went through [add_filenames] and [parse_tags]. *)
Definition enriched (n : note) : Prop :=
  filename n <> None /\ cleaned_tags n <> None.

(** The documents of a store: [has_document w d name p] when directory [d]
    holds a file [name] with document [p]. *)
Definition has_document (w : world) (d name : text) (p : post) : Prop :=
  exists es, lookup d w = Some (Dir es) /\ lookup name es = Some (Document p).

(** A character that the cleaning transform leaves alone: lower-casing does
    not change it, it is not a space, and it is not disallowed. *)
Definition allowed (c : ascii) : bool :=
  negb (existsb (fun d => if ascii_dec c d then true else false) disallowed).

Definition tidy (c : ascii) : Prop :=
  Py.lower_char c = c /\ c <> " "%char /\ allowed c = true.

(** What [validate_datetimes] reports: the notes whose timestamp the parser
    rejects, each shown with its ['datetime'] and ['title']. *)
Definition unparsed (parse_isoformat : text -> option text) (n : note) : bool :=
  match parse_isoformat (datetime n) with
  | Some _ => false
  | None => true
  end.

Definition date_title (n : note) : value :=
  VDict [(VStr (str "datetime"), VStr (datetime n));
         (VStr (str "title"), VStr (title n))].

Definition unparsed_error (parse_isoformat : text -> option text)
           (notes : list note) : exn :=
  let failing := filter (unparsed parse_isoformat) notes in
  ValueError [Txt (str "Some note datetimes were unable to be parsed. ");
              Val (VInt (length failing));
              Txt (str " were not parsed. They are as follows:"
                      ++ [newline; newline]);
              Pformat (VList (map date_title failing))].

(** The [TypeError] of a [with] statement over a class object. *)
Definition context_manager_error : exn :=
  TypeError (msg "'type' object does not support the context manager protocol").

(** What the loop body of [add_filenames] comes to for one note once the
    scratch directory exists: the note with its file name when the name is
    taken, and otherwise the error of [unlink], which finds no probe file to
    remove and ends with the refusal of the name. *)
Definition probe_outcome (probe : text -> option refusal) (root_parent : text)
           (n : note) : res note :=
  (name <- filename_of_title (title n) ;;
   match probe name with
   | None => ok (set_filename name n)
   | Some r =>
       throw (refused r (path_str (Path (temp_dir root_parent) name)))
   end)%res.

(** The documented note format, piece by piece. *)
Definition digits (n : nat) (l : text) : Prop :=
  length l = n /\ Forall (fun c => cls_ok CDigit c = true) l.

Definition stamp_shaped (ts : text) : Prop :=
  exists y mo d h mi s,
    digits 4 y /\ digits 2 mo /\ digits 2 d /\
    digits 2 h /\ digits 2 mi /\ digits 2 s /\
    ts = y ++ str "-" ++ mo ++ str "-" ++ d ++ str " "
           ++ h ++ str ":" ++ mi ++ str ":" ++ s.

Definition one_line (s : text) : Prop := Forall (fun c => c <> newline) s.

(** A title that stops at its terminator: not empty, on one line, without a
    period or a question mark inside. *)
Definition plain_title (t : text) : Prop :=
  t <> [] /\
  Forall (fun c => c <> "."%char /\ c <> "?"%char /\ c <> newline) t.

(** What is left of the composite pattern after the content group: the
    lookahead for [" tag"] and the whole tags sub-pattern. *)
Definition after_content : cont :=
  run (Ahead (lit (str " tag")))
    (run Eps
       (run (BehindRef 3)
          (run (lit (str " tags: "))
             (run (Group 4 (Star CAny)) (run Eos (run Eps (run Eps Some))))))).

(** The separator that [get_notes_from_path] splits at. *)
Definition blank_line : text := [newline; newline].

(** A block as [get_notes_from_path] lets it through. *)
Definition block_checked (b : text) : Prop :=
  (exists rest, b = "2"%char :: rest) /\ (exists front, b = front ++ ["]"%char]).

(** The error of [parse_tags] for a tag with a space inside. *)
Definition space_in_tag_error (n : note) : exn :=
  ValueError [Txt (str "something went wrong when parsing ");
              Val (VStr (title n));
              Txt (str ", space detected..")].

(** A tag as [parse_tags] lets it through: trimmed, without a space and
    without a comma. *)
Definition clean_tag (t : text) : Prop :=
  Py.contains " " t = false /\ Py.contains "," t = false /\ Py.strip t = t.

(** The tag list that [form_posts] attaches to the post of a note: its
    first two steps, and the read of ['cleaned_tags'] after them. *)
Definition final_tags (n : note) : res (list text) :=
  (n1 <- add_mres_tag n ;;
   n2 <- dropping_duplicates_and_sorting_tags n1 ;;
   get_cleaned_tags n2)%res.

(** [has_entry w p x]: in store [w], the directory of path [p] holds a file
    of that name with data [x]. *)
Definition has_entry (w : world) (p : path) (x : filedata) : Prop :=
  exists es, lookup (path_dir p) w = Some (Dir es)
             /\ lookup (path_name p) es = Some x.

(** The error of [write_notes] for a destination that exists. *)
Definition already_exists_error (p : path) : exn :=
  RuntimeError
    [Val (VStr (path_str p));
     Txt (str " already exists. To overwrite set `overwite_ok` to True")].


(** Posts for the examples of the writer. *)
Module Drafts.

Definition milk : post :=
  Post (str "# Buy Milk") [str "errand"; str "mres"]
       (str "2024-01-01T10:00:00") Sample.now.

Definition eggs : post :=
  Post (str "# Buy Eggs") [str "mres"]
       (str "2024-01-02T10:00:00") Sample.now.

Definition milk_path : path := Path Sample.out_dir (str "buy_milk.md").
Definition eggs_path : path := Path Sample.out_dir (str "buy_eggs.md").

(** A store whose output directory holds an empty file [buy_milk.md]. *)
Definition store_with_milk : world :=
  [(Sample.out_dir, Dir [(str "buy_milk.md", Empty)])].

End Drafts.

(** The first key that [form_posts] misses in a note. *)
Definition missing_key (n : note) : text :=
  match cleaned_tags n with
  | None => str "cleaned_tags"
  | Some _ => str "filename"
  end.

(** What the separator pattern leaves at the edges of a block. *)
Definition starts_with_stamp (b : text) : Prop :=
  exists ts rest, stamp_shaped ts /\ b = ts ++ rest.

Definition ends_with_bracket (b : text) : Prop :=
  exists front, b = front ++ ["]"%char].

(** [closes sn rs cur]: a match of the separator at this point of the scan
    finds the current block closed by a bracket. *)
Definition closes (sn rs cur : text) : Prop :=
  forall m, run pattern Some (MState sn rs []) = Some m ->
            exists cur', cur = "]"%char :: cur'.

(** [rendered raw pp]: the post and the path that a run makes of the block
    [raw], stage by stage: the fields of the match, the parsed timestamp,
    the name derived from the title, the parsed tags with the marker, sorted
    and without repeats. *)
Definition rendered (parse_isoformat : text -> option text)
           (title_case : text -> text) (now out : text)
           (raw : text) (pp : post * path) : Prop :=
  exists n dt name l,
    extract_note_fields raw = Some n
    /\ parse_isoformat (datetime n) = Some dt
    /\ filename_of_title (title n) = ok name
    /\ parse_tags_note n = ok (set_cleaned_tags l n)
    /\ pp = (Post (str "# " ++ title_case (title n) ++ [newline; newline]
                       ++ content n ++ [newline])
                  (sorted (list_set (l ++ [mres]))) dt now,
             Path out name).

(** The post that stays under a path is the last one written there. *)
Definition last_written (posts : list (post * path)) (w : world) : Prop :=
  forall a q p b,
    posts = a ++ (q, p) :: b -> ~ In p (map snd b) ->
    has_entry w p (Document q).

(** The post and the path of the note of [Sample.buy_milk]. *)
Definition buy_milk_post : post * path :=
  (Post (str "# Buy Milk" ++ [newline; newline]
             ++ str "Need milk for coffee" ++ [newline])
        [str "errand"; str "home"; str "mres"]
        (str "2024-01-01T10:00:00") Sample.now,
   Path Sample.out_dir (str "buy_milk.md")).

(** A name without a slash: joined to a directory, it is a file of that
    directory. *)
Definition plain (name : text) : Prop := ~ In "/"%char name.

(** [outside d k]: the path [k] is not that of a file of directory [d]. *)
Definition outside (d k : text) : Prop :=
  forall name, plain name -> k <> path_str (Path d name).

(** * Properties *)

(** ** Loops and stores *)

Lemma for_each_app {A B} (f : A -> res B) (l1 l2 : list A) :
  for_each f (l1 ++ l2) =
  (bs1 <- for_each f l1 ;; bs2 <- for_each f l2 ;; ok (bs1 ++ bs2))%res.
Proof.
  induction l1 as [|a l1 IH]; simpl.
  - destruct (for_each f l2); reflexivity.
  - destruct (f a) as [e|b]; simpl; [reflexivity|].
    rewrite IH. destruct (for_each f l1) as [e|bs1]; simpl; [reflexivity|].
    destruct (for_each f l2); reflexivity.
Qed.

Lemma for_each_total {A B} (f : A -> res B) (l : list A) :
  Forall (fun a => exists b, f a = ok b) l -> exists bs, for_each f l = ok bs.
Proof.
  induction 1 as [|a l [b Hb] _ [bs Hbs]]; simpl.
  - now exists [].
  - rewrite Hb, Hbs. simpl. now eexists.
Qed.

Section Store.

Context {A : Type}.
Implicit Types (l : list (text * A)) (k : text).

Lemma lookup_remove_key_same k l : lookup k (remove_key k l) = None.
Proof.
  induction l as [|[k' a] l IH]; simpl; [reflexivity|].
  destruct (text_dec k k') as [E|N]; [exact IH|].
  simpl. now destruct (text_dec k k').
Qed.

Lemma lookup_remove_key_other k k' l :
  k' <> k -> lookup k' (remove_key k l) = lookup k' l.
Proof.
  intros N. induction l as [|[k2 a] l IH]; simpl; [reflexivity|].
  destruct (text_dec k k2) as [E|N2]; simpl.
  - subst k2. now destruct (text_dec k' k).
  - now rewrite IH.
Qed.

Lemma remove_key_absent k l : lookup k l = None -> remove_key k l = l.
Proof.
  induction l as [|[k' a] l IH]; simpl; [reflexivity|].
  destruct (text_dec k k'); [discriminate|].
  intros H. now rewrite IH.
Qed.

Lemma lookup_put_same k a l : lookup k (put k a l) = Some a.
Proof. unfold put. simpl. now destruct (text_dec k k). Qed.

Lemma lookup_put_other k k' a l :
  k' <> k -> lookup k' (put k a l) = lookup k' l.
Proof.
  intros N. unfold put. simpl.
  destruct (text_dec k' k); [contradiction|].
  now apply lookup_remove_key_other.
Qed.

End Store.

(** A document found after [dump] is the one just written or was there. *)
Lemma has_document_put (w : world) (d name : text) (es : list (text * filedata))
      (q : post) (d' name' : text) (p : post) :
  lookup d w = Some (Dir es) ->
  has_document (put d (Dir (put name (Document q) es)) w) d' name' p ->
  p = q \/ has_document w d' name' p.
Proof.
  intros Hd [es' [H1 H2]].
  destruct (text_dec d' d) as [->|Nd].
  - rewrite lookup_put_same in H1. injection H1 as <-.
    destruct (text_dec name' name) as [->|Nn].
    + rewrite lookup_put_same in H2. injection H2 as <-. now left.
    + rewrite lookup_put_other in H2 by assumption.
      right. now exists es.
  - rewrite lookup_put_other in H1 by assumption.
    right. now exists es'.
Qed.

Lemma remove_key_twice {A} (k : text) (l : list (text * A)) :
  remove_key k (remove_key k l) = remove_key k l.
Proof. apply remove_key_absent, lookup_remove_key_same. Qed.

Lemma put_put {A} (k : text) (a b : A) (l : list (text * A)) :
  put k a (put k b l) = put k a l.
Proof.
  unfold put. simpl. destruct (text_dec k k); [|contradiction].
  now rewrite remove_key_twice.
Qed.

Lemma remove_key_put {A} (k : text) (a : A) (l : list (text * A)) :
  lookup k l = None -> remove_key k (put k a l) = l.
Proof.
  intros H. unfold put. simpl. destruct (text_dec k k); [|contradiction].
  rewrite remove_key_twice. now apply remove_key_absent.
Qed.

(** ** Field extraction *)

(** *** Blocks that the composite pattern cannot match *)

Lemma occurs_suffix (sub pre s : text) :
  Py.occurs sub (pre ++ s) = false -> Py.starts_with sub s = false.
Proof.
  induction pre as [|c pre IH]; simpl.
  - destruct s; simpl; intros H; apply orb_false_iff in H; tauto.
  - intros H. apply orb_false_iff in H. now apply IH.
Qed.

Lemma run_cat (a b : re) (k : cont) : run (Cat a b) k = run a (run b k).
Proof. reflexivity. Qed.

Lemma lazy_plus_none (c : cls) (k : cont) (rs : text) :
  forall sn cp,
    (forall st, (exists pre, rs = pre ++ ahead st) -> k st = None) ->
    lazy_plus c k sn rs cp = None.
Proof.
  induction rs as [|x xs IH]; intros sn cp H; simpl; [reflexivity|].
  destruct (cls_ok c x); [|reflexivity].
  rewrite H by (now exists [x]).
  apply IH. intros st [pre ->]. apply H. now exists (x :: pre).
Qed.

Lemma star_none (c : cls) (k : cont) (rs : text) :
  forall sn cp,
    (forall st, (exists pre, rs = pre ++ ahead st) -> k st = None) ->
    star c k sn rs cp = None.
Proof.
  induction rs as [|x xs IH]; intros sn cp H; simpl.
  - apply H. now exists [].
  - assert (E : k (MState sn (x :: xs) cp) = None) by (apply H; now exists []).
    destruct (cls_ok c x); [|exact E].
    rewrite IH; [exact E|].
    intros st [pre ->]. apply H. now exists (x :: pre).
Qed.

(** A run fails when its continuation fails wherever the run can stop. *)
Lemma run_none (r : re) :
  forall (k : cont) (s : mstate),
    (forall st, (exists pre, ahead s = pre ++ ahead st) -> k st = None) ->
    run r k s = None.
Proof.
  induction r as [ |c|r1 IH1 r2 IH2|r1 IH1 r2 IH2|n r1 IH1|c|c|i r1 IH1|r1 IH1
                  |c|i| ]; intros k s H; simpl.
  - apply H. now exists [].
  - destruct (ahead s) as [|x xs] eqn:E; [reflexivity|].
    destruct (cls_ok c x); [|reflexivity].
    apply H. now exists [x].
  - apply IH1. intros st [pre E]. apply IH2.
    intros st' [pre' E']. apply H. exists (pre ++ pre').
    now rewrite E, E', app_assoc.
  - rewrite IH1 by assumption. now apply IH2.
  - revert s H. induction n as [|n IHn]; intros s H.
    + apply H. now exists [].
    + apply IH1. intros st [pre E]. apply IHn.
      intros st' [pre' E']. apply H. exists (pre ++ pre').
      now rewrite E, E', app_assoc.
  - now apply lazy_plus_none.
  - now apply star_none.
  - apply IH1. intros st E. now apply H.
  - destruct (run r1 Some s); [|reflexivity]. apply H. now exists [].
  - destruct (seen s) as [|x xs]; [reflexivity|].
    destruct (ascii_dec x c); [|reflexivity]. apply H. now exists [].
  - destruct (cap i (caps s)); [|reflexivity].
    destruct (Py.starts_with _ _); [|reflexivity]. apply H. now exists [].
  - destruct (ahead s) as [|x [|y ys]] eqn:E; try reflexivity.
    + apply H. exists []. now rewrite E.
    + destruct (ascii_dec x newline); [|reflexivity].
      apply H. exists []. now rewrite E.
Qed.

(** After the title, the pattern asks for a period and a space. *)
Lemma period_space_needed (k : cont) (st : mstate) :
  Py.starts_with (str ". ") (ahead st) = false ->
  run (BehindRef 2) (run (chr ".") (run (chr " ") k)) st = None.
Proof.
  intros H. simpl.
  destruct (cap 2 (caps st)) as [t|]; [|reflexivity].
  destruct (Py.starts_with (rev t) (seen st)); [|reflexivity].
  destruct (ahead st) as [|x [|y ys]]; simpl in *; try reflexivity.
  - now destruct (ascii_dec x ".").
  - destruct (ascii_dec x ".") as [->|]; [|reflexivity].
    destruct (ascii_dec y " ") as [->|]; [|reflexivity].
    discriminate.
Qed.

(** C5.  A block in which no period is followed by a space has no match,
    whatever else it holds: after the title the composite pattern asks for
    the two characters [". "], although the title may stop before a ["?"].
    A block of the documented format whose title ends with ["?"] is
    therefore not decomposed. *)
Theorem C5_question_mark_title_not_matched (raw : text) :
  Py.occurs (str ". ") raw = false ->
  extract_note_fields raw = None.
Proof.
  intros H. unfold extract_note_fields, rmatch.
  replace (run regexp Some (MState [] raw [])) with (@None mstate);
    [reflexivity|symmetry].
  unfold regexp, regexps. cbn [map snd seq fold_right].
  rewrite run_cat. apply run_none. intros st1 [p1 E1].
  rewrite run_cat. apply run_none. intros st2 [p2 E2].
  rewrite run_cat. apply run_none. intros st3 [p3 E3].
  rewrite !run_cat. apply period_space_needed.
  simpl in E1. rewrite E1, E2, E3, !app_assoc in H.
  exact (occurs_suffix _ _ _ H).
Qed.

Lemma C5_question_mark_title_not_matched_witness :
  Py.occurs (str ". ")
            (str "2024-01-01 10:00:00 - Is it done? Yes it is tags: [status]")
  = false
  /\ extract_note_fields
       (str "2024-01-01 10:00:00 - Is it done? Yes it is tags: [status]")
     = None.
Proof.
  split; [reflexivity|].
  apply C5_question_mark_title_not_matched. reflexivity.
Defined.

(** *** Blocks that the composite pattern does match *)

Lemma rev_cons_app {A} (x : A) (l sn : list A) :
  rev (x :: l) ++ sn = rev l ++ x :: sn.
Proof. simpl. now rewrite <- app_assoc. Qed.

Lemma run_group (i : nat) (r : re) (k : cont) (s : mstate) :
  run (Group i r) k s
  = run r (fun s' => k (MState (seen s') (ahead s')
                               ((i, consumed s s') :: caps s'))) s.
Proof. reflexivity. Qed.

Lemma run_atom_ok (c : cls) (k : cont) (sn rs : text) (x : ascii) cp :
  cls_ok c x = true ->
  run (Atom c) k (MState sn (x :: rs) cp) = k (MState (x :: sn) rs cp).
Proof. intros H. simpl. now rewrite H. Qed.

Lemma run_lit_ok (l : text) :
  forall (k : cont) (sn rs : text) cp,
    run (lit l) k (MState sn (l ++ rs) cp) = k (MState (rev l ++ sn) rs cp).
Proof.
  induction l as [|c l IH]; intros k sn rs cp; [reflexivity|].
  cbn [lit app]. rewrite run_cat, run_atom_ok.
  - rewrite IH. cbn [rev]. now rewrite <- app_assoc.
  - simpl. now destruct (ascii_dec c c).
Qed.

Lemma run_lit_inv (l : text) :
  forall (k : cont) (sn rs : text) cp m,
    run (lit l) k (MState sn rs cp) = Some m -> exists rest, rs = l ++ rest.
Proof.
  induction l as [|c l IH]; intros k sn rs cp m H.
  - now exists rs.
  - cbn [lit] in H. rewrite run_cat in H. simpl in H.
    destruct rs as [|x rs]; [discriminate|].
    destruct (ascii_dec x c) as [->|]; [|discriminate].
    destruct (IH _ _ _ _ _ H) as [rest ->]. now exists rest.
Qed.

Lemma run_times_ok (c : cls) (n : nat) :
  forall (l : text) (k : cont) (sn rs : text) cp,
    length l = n -> Forall (fun x => cls_ok c x = true) l ->
    run (Times n (Atom c)) k (MState sn (l ++ rs) cp)
    = k (MState (rev l ++ sn) rs cp).
Proof.
  induction n as [|n IH]; intros l k sn rs cp Hl Hc.
  - destruct l; [reflexivity|discriminate].
  - destruct l as [|x l]; [discriminate|].
    inversion Hc as [|? ? Hx Hc']; subst.
    injection Hl as Hl.
    specialize (IH l k (x :: sn) rs cp Hl Hc').
    simpl in IH |- *. rewrite Hx, IH. now rewrite <- app_assoc.
Qed.

Lemma run_stamp (ts : text) (k : cont) (sn rs : text) cp :
  stamp_shaped ts ->
  run stamp k (MState sn (ts ++ rs) cp) = k (MState (rev ts ++ sn) rs cp).
Proof.
  intros [y [mo [d [h [mi [s [[Ly Dy] [[Lmo Dmo] [[Ld Dd] [[Lh Dh] [[Lmi Dmi]
            [[Ls Ds] ->]]]]]]]]]]]].
  unfold stamp, seq, digit, chr. cbn [fold_right]. rewrite !run_cat.
  rewrite <- !app_assoc.
  rewrite (run_times_ok _ _ _ _ _ Ly Dy). cbn [str list_ascii_of_string app].
  rewrite run_atom_ok by reflexivity.
  rewrite (run_times_ok _ _ _ _ _ Lmo Dmo). cbn [app].
  rewrite run_atom_ok by reflexivity.
  rewrite (run_times_ok _ _ _ _ _ Ld Dd). cbn [app].
  rewrite run_atom_ok by reflexivity.
  rewrite (run_times_ok _ _ _ _ _ Lh Dh). cbn [app].
  rewrite run_atom_ok by reflexivity.
  rewrite (run_times_ok _ _ _ _ _ Lmi Dmi). cbn [app].
  rewrite run_atom_ok by reflexivity.
  rewrite (run_times_ok _ _ _ _ _ Ls Ds).
  cbn [run]. do 2 f_equal.
  repeat (progress (rewrite ?rev_app_distr; cbn [rev])).
  rewrite <- !app_assoc. reflexivity.
Qed.

Lemma consumed_app (l sn a a' : text) c c' :
  consumed (MState sn a c) (MState (rev l ++ sn) a' c') = l.
Proof.
  unfold consumed. cbn [seen].
  rewrite length_app, Nat.add_sub.
  rewrite firstn_app, firstn_all, Nat.sub_diag. cbn [firstn].
  now rewrite app_nil_r, rev_involutive.
Qed.

Lemma starts_with_app (p s : text) : Py.starts_with p (p ++ s) = true.
Proof.
  induction p as [|c p IH]; [reflexivity|].
  simpl. now destruct (ascii_dec c c).
Qed.

(** [+?] stops at the first split that the continuation accepts. *)
Lemma lazy_plus_first (c : cls) (k : cont) (pre : text) :
  forall (sn rs : text) cp m,
    pre <> [] -> Forall (fun x => cls_ok c x = true) pre ->
    k (MState (rev pre ++ sn) rs cp) = Some m ->
    (forall p q, pre = p ++ q -> p <> [] -> q <> [] ->
                 k (MState (rev p ++ sn) (q ++ rs) cp) = None) ->
    lazy_plus c k sn (pre ++ rs) cp = Some m.
Proof.
  induction pre as [|x pre IH]; intros sn rs cp m Hne Hc Hk Hnone;
    [contradiction|].
  inversion Hc as [|? ? Hx Hc']; subst.
  cbn [app lazy_plus]. rewrite Hx.
  destruct pre as [|y pre].
  - cbn [rev app] in Hk. cbn [app]. now rewrite Hk.
  - pose proof (Hnone [x] (y :: pre) eq_refl) as E.
    cbn [rev app] in E |- *. rewrite E by easy.
    apply IH; [easy|assumption| |].
    + now rewrite <- rev_cons_app.
    + intros p q E' Hp Hq. rewrite <- rev_cons_app.
      apply Hnone; [now rewrite E'|easy|assumption].
Qed.

(** [+?] succeeds when the continuation accepts the longest split, with the
    result of the split it stopped at. *)
Lemma lazy_plus_some (c : cls) (k : cont) (pre : text) :
  forall (sn rs : text) cp,
    pre <> [] -> Forall (fun x => cls_ok c x = true) pre ->
    k (MState (rev pre ++ sn) rs cp) <> None ->
    exists p q m,
      pre = p ++ q /\ p <> [] /\
      lazy_plus c k sn (pre ++ rs) cp = Some m /\
      k (MState (rev p ++ sn) (q ++ rs) cp) = Some m.
Proof.
  induction pre as [|x pre IH]; intros sn rs cp Hne Hc Hk; [contradiction|].
  inversion Hc as [|? ? Hx Hc']; subst.
  cbn [app lazy_plus]. rewrite Hx.
  destruct (k (MState (x :: sn) (pre ++ rs) cp)) as [m|] eqn:E.
  - exists [x], pre, m. repeat split; easy.
  - destruct pre as [|y pre].
    + cbn [rev app] in Hk. cbn [app] in E. congruence.
    + destruct (IH (x :: sn) rs cp) as [p [q [m [Epq [Hp [Hl Hm]]]]]];
        [easy|assumption| |].
      * now rewrite <- rev_cons_app.
      * exists (x :: p), q, m. repeat split; try easy.
        -- cbn [app]. now rewrite Epq.
        -- now rewrite rev_cons_app.
Qed.

Lemma star_all (c : cls) (k : cont) (l : text) :
  forall (sn : text) cp m,
    Forall (fun x => cls_ok c x = true) l ->
    k (MState (rev l ++ sn) [] cp) = Some m ->
    star c k sn l cp = Some m.
Proof.
  induction l as [|x l IH]; intros sn cp m Hc Hk; [exact Hk|].
  inversion Hc as [|? ? Hx Hc']; subst.
  cbn [star]. rewrite Hx. rewrite (IH (x :: sn) cp m); [reflexivity|assumption|].
  now rewrite <- rev_cons_app.
Qed.

Lemma one_line_any (s : text) :
  one_line s -> Forall (fun x => cls_ok CAny x = true) s.
Proof.
  intros H. eapply Forall_impl; [|exact H].
  intros c Hc. simpl. now destruct (ascii_dec c newline).
Qed.

Lemma regexp_run :
  run regexp Some
  = run (Group 1 stamp)
      (run (lit (str " - "))
         (run (Group 2 (Cat (LazyPlus CAny) (Ahead (Alt (chr ".") (chr "?")))))
            (run (BehindRef 2)
               (run (chr ".")
                  (run (chr " ")
                     (run (Group 3 (LazyPlus CAny)) after_content)))))).
Proof. reflexivity. Qed.

Lemma run_ahead (r : re) (k : cont) (s : mstate) :
  run (Ahead r) k s
  = match run r Some s with
    | Some m => k (MState (seen s) (ahead s) (caps m))
    | None => None
    end.
Proof. reflexivity. Qed.

Lemma after_content_ok (sn p t : text) cp :
  cap 3 cp = Some p -> Py.starts_with (rev p) sn = true -> one_line t ->
  after_content (MState sn (str " tags: " ++ t) cp)
  = Some (MState (rev t ++ rev (str " tags: ") ++ sn) [] ((4, t) :: cp)).
Proof.
  intros Hc Hp Ht. unfold after_content. rewrite run_ahead.
  change (str " tags: " ++ t) with (str " tag" ++ str "s: " ++ t) at 1.
  rewrite run_lit_ok. cbn [seen ahead caps run]. rewrite Hc, Hp.
  rewrite run_lit_ok. apply star_all; [now apply one_line_any|].
  rewrite consumed_app. reflexivity.
Qed.

Lemma after_content_inv (sn rs : text) cp m :
  after_content (MState sn rs cp) = Some m ->
  exists t, rs = str " tags: " ++ t.
Proof.
  unfold after_content. rewrite run_ahead.
  destruct (run (lit (str " tag")) Some (MState sn rs cp)) as [m0|];
    [|discriminate].
  cbn [seen ahead caps run].
  destruct (cap 3 (caps m0)) as [p|]; [|discriminate].
  destruct (Py.starts_with (rev p) sn); [|discriminate].
  apply run_lit_inv.
Qed.

(** The content group and what follows it, on a one-line remainder. *)
Lemma content_group_ok (sn content tagl : text) cp :
  content <> [] -> one_line content -> one_line tagl ->
  exists c g,
    run (Group 3 (LazyPlus CAny)) after_content
        (MState sn (content ++ str " tags: " ++ tagl) cp)
    = Some (MState (rev g ++ rev (str " tags: ") ++ rev c ++ sn) []
                   ((4, g) :: (3, c) :: cp))
    /\ c ++ str " tags: " ++ g = content ++ str " tags: " ++ tagl.
Proof.
  intros Hne Hc Ht. rewrite run_group. cbn [run seen ahead caps].
  set (k := fun s' : mstate => after_content _).
  assert (Hk : forall p q t,
             one_line t -> q ++ str " tags: " ++ tagl = str " tags: " ++ t ->
             k (MState (rev p ++ sn) (q ++ str " tags: " ++ tagl) cp)
             = Some (MState (rev t ++ rev (str " tags: ") ++ rev p ++ sn) []
                            ((4, t) :: (3, p) :: cp))).
  { intros p q t Hl E. unfold k. cbn [seen ahead caps].
    rewrite consumed_app, E.
    apply after_content_ok with (p := p); [|apply starts_with_app|assumption].
    simpl. reflexivity. }
  destruct (@lazy_plus_some CAny k content sn (str " tags: " ++ tagl) cp
              Hne (one_line_any Hc))
    as [p [q [m [E [Hp [Hl Hm]]]]]].
  { pose proof (Hk content [] tagl Ht eq_refl) as E. cbn [app] in E.
    rewrite E. discriminate. }
  assert (Hq : exists t, q ++ str " tags: " ++ tagl = str " tags: " ++ t).
  { unfold k in Hm. cbn [seen ahead caps] in Hm.
    exact (after_content_inv _ _ _ Hm). }
  destruct Hq as [t Hq].
  assert (Hone : one_line t).
  { assert (H : one_line (q ++ str " tags: " ++ tagl)).
    { apply Forall_app. split.
      - rewrite E in Hc. now apply Forall_app in Hc.
      - apply Forall_app. split; [|assumption].
        repeat constructor; discriminate. }
    rewrite Hq in H. now apply Forall_app in H. }
  rewrite (Hk p q t Hone Hq) in Hm.
  exists p, t. split; [rewrite Hl; symmetry; exact Hm|].
  now rewrite <- Hq, E, <- app_assoc.
Qed.

(** X22.  A block of the documented format whose title ends with a period
    that a space follows, all on one line, is matched: the timestamp and the
    title are the ones written, and the content and the tag string are cut
    at the first [" tags: "] that lets the rest match. *)
Lemma extract_note_fields_period_block (ts t content tagl : text) :
  stamp_shaped ts -> plain_title t ->
  content <> [] -> one_line content -> one_line tagl ->
  exists c g,
    extract_note_fields
      (ts ++ str " - " ++ t ++ str ". " ++ content ++ str " tags: " ++ tagl)
    = Some (Note ts t c g None None)
    /\ c ++ str " tags: " ++ g = content ++ str " tags: " ++ tagl.
Proof.
  intros Hts [Hne Ht] Hcne Hc Hg.
  unfold extract_note_fields, rmatch. rewrite regexp_run.
  rewrite run_group, run_stamp by assumption.
  cbn [seen ahead caps]. rewrite consumed_app, run_lit_ok.
  rewrite run_group, run_cat. cbn [seen ahead caps].
  change (run (LazyPlus CAny) ?k ?s)
    with (lazy_plus CAny k (seen s) (ahead s) (caps s)).
  cbn [seen ahead caps].
  set (sn := rev (str " - ") ++ rev ts ++ []).
  destruct (content_group_ok (" "%char :: "."%char :: rev t ++ sn)
              ((2, t) :: (1, ts) :: []) Hcne Hc Hg) as [c [g [Hrun Hcg]]].
  exists c, g. split; [|exact Hcg].
  match goal with
  | |- context [lazy_plus ?cl ?k ?s0 ?rs ?cp] =>
      assert (Hlp : lazy_plus cl k s0 rs cp
                    = Some (MState (rev g ++ rev (str " tags: ") ++ rev c
                                      ++ " "%char :: "."%char :: rev t ++ sn)
                                   [] [(4, g); (3, c); (2, t); (1, ts)]));
      [apply lazy_plus_first | now rewrite Hlp]
  end.
  - exact Hne.
  - eapply Forall_impl; [|exact Ht]. intros x [_ [_ Hx]].
    simpl. now destruct (ascii_dec x newline).
  - rewrite run_ahead. cbn [seen ahead caps].
    cbn [str list_ascii_of_string app]. cbn [run ahead seen caps chr].
    cbn [cls_ok]. destruct (ascii_dec "." "."); [|contradiction].
    cbn [seen ahead caps]. rewrite consumed_app. cbn [cap Nat.eqb].
    rewrite starts_with_app.
    destruct (ascii_dec " " " "); [|contradiction].
    exact Hrun.
  - intros p q E Hp Hq. rewrite run_ahead.
    destruct q as [|y q]; [contradiction|].
    assert (Hy : y <> "."%char /\ y <> "?"%char).
    { rewrite E in Ht. apply Forall_app in Ht. destruct Ht as [_ Ht].
      inversion Ht as [|? ? [H1 [H2 _]] _]. now split. }
    cbn [app run ahead chr cls_ok].
    destruct (ascii_dec y ".") as [->|]; [now destruct Hy|].
    destruct (ascii_dec y "?") as [->|]; [now destruct Hy|].
    reflexivity.
Qed.

Lemma extract_note_fields_period_block_witness :
  exists c g,
    extract_note_fields Sample.buy_milk
    = Some (Note (str "2024-01-01 10:00:00") (str "Buy milk") c g None None)
    /\ c ++ str " tags: " ++ g
       = str "Need milk for coffee" ++ str " tags: " ++ str "[errand, home,]".
Proof.
  apply (@extract_note_fields_period_block
           (str "2024-01-01 10:00:00") (str "Buy milk")
           (str "Need milk for coffee") (str "[errand, home,]")).
  - exists (str "2024"), (str "01"), (str "01"), (str "10"), (str "00"),
      (str "00").
    repeat split; repeat constructor.
  - split; [discriminate|].
    repeat (constructor; [repeat split; discriminate|]). constructor.
  - discriminate.
  - repeat (constructor; [discriminate|]). constructor.
  - repeat (constructor; [discriminate|]). constructor.
Defined.

(** *** Blocks without a match *)

Lemma enumerate_from_index {A} (l : list A) (i j : nat) (a : A) :
  In (j, a) (enumerate_from i l) -> i <= j < i + length l.
Proof.
  revert i. induction l as [|x l IH]; intros i; simpl; [easy|].
  intros [E|H].
  - injection E as <- _. lia.
  - apply IH in H. lia.
Qed.

Lemma enumerate_from_in {A} (l : list A) (i : nat) (a : A) :
  In a l -> exists j, In (j, a) (enumerate_from i l).
Proof.
  revert i. induction l as [|x l IH]; intros i; simpl; [easy|].
  intros [->|H].
  - exists i. now left.
  - destruct (IH (S i) H) as [j Hj]. exists j. now right.
Qed.

Lemma check_notes_without_matches_raises (notes : list text)
      (decomposed_notes : list (option note)) :
  length decomposed_notes = length notes ->
  In None decomposed_notes ->
  check_notes_without_matches notes decomposed_notes
  = throw context_manager_error.
Proof.
  intros Hlen Hin. unfold check_notes_without_matches.
  set (idx := map fst (filter (fun p => negb (truthy (snd p)))
                              (enumerate_from 0 decomposed_notes))).
  assert (Hb : Forall (fun i => exists b, index_list notes i = ok b) idx).
  { apply Forall_forall. intros i Hi. unfold idx in Hi.
    apply in_map_iff in Hi. destruct Hi as [[j a] [<- Hj]].
    apply filter_In in Hj. destruct Hj as [Hj _].
    apply enumerate_from_index in Hj. simpl. unfold index_list.
    destruct (nth_error notes j) as [n|] eqn:E; [now eexists|].
    apply nth_error_None in E. lia. }
  destruct (for_each_total _ Hb) as [bs ->]. simpl.
  destruct idx as [|i idx'] eqn:E; [|reflexivity].
  exfalso. destruct (enumerate_from_in _ 0 _ Hin) as [j Hj].
  assert (In j idx) as Hi.
  { unfold idx. apply in_map_iff. exists (j, None). split; [reflexivity|].
    apply filter_In. now split. }
  rewrite E in Hi. exact Hi.
Qed.

(** C2.  When a block of the batch has no match, [decompose_notes] does fail,
    but with the [TypeError] of the statement [with ValueError as e]: the
    lines that would attach the count, the indexes and the unmatched blocks
    never run, and the error carries none of them. *)
Theorem C2_unmatched_block_raises_TypeError (notes : list text) :
  (exists raw, In raw notes /\ extract_note_fields raw = None) ->
  decompose_notes notes = throw context_manager_error.
Proof.
  intros [raw [Hin Hnone]]. unfold decompose_notes.
  rewrite check_notes_without_matches_raises; [reflexivity| |].
  - apply length_map.
  - rewrite <- Hnone. now apply in_map.
Qed.

Lemma C2_unmatched_block_raises_TypeError_witness :
  let notes := [Sample.buy_milk; str "2024-01-02 09:00:00 a note without fields]"] in
  (exists raw, In raw notes /\ extract_note_fields raw = None)
  /\ decompose_notes notes = throw context_manager_error.
Proof.
  cbv zeta.
  assert (H : exists raw,
             In raw [Sample.buy_milk;
                     str "2024-01-02 09:00:00 a note without fields]"]
             /\ extract_note_fields raw = None).
  { eexists. split; [right; left; reflexivity | reflexivity]. }
  split; [exact H | exact (C2_unmatched_block_raises_TypeError _ H)].
Defined.

(** ** Timestamps *)

Lemma set_datetime_same (n : note) : set_datetime (datetime n) n = n.
Proof. now destruct n. Qed.

Lemma get_notes_from_path_store (p : text) (w : world) :
  snd (get_notes_from_path p w) = w.
Proof.
  unfold get_notes_from_path, bind, FS.read_text, lift, ret.
  destruct (lookup p w) as [[s|es]|]; simpl; try reflexivity.
  now destruct (for_each _ _).
Qed.

Section Datetimes.

Variable parse_isoformat : text -> option text.

Lemma validate_datetime_loop (notes : list note) :
  exists marked,
    for_each (validate_datetime parse_isoformat) (map Some notes) = ok marked
    /\ map fst (filter snd marked) = filter (unparsed parse_isoformat) notes.
Proof.
  induction notes as [|n notes [marked [E F]]]; simpl.
  - now exists [].
  - rewrite E. unfold validate_datetime at 1, unparsed at 1. simpl.
    destruct (parse_isoformat (datetime n)); simpl; eexists;
      (split; [reflexivity|]); simpl; rewrite F; [reflexivity|].
    now rewrite set_datetime_same.
Qed.

Lemma validate_datetimes_raises (notes : list note) :
  (exists n, In n notes /\ parse_isoformat (datetime n) = None) ->
  validate_datetimes parse_isoformat (map Some notes)
  = throw (unparsed_error parse_isoformat notes).
Proof.
  intros [n [Hin Hn]]. unfold validate_datetimes.
  destruct (validate_datetime_loop notes) as [marked [-> F]]. simpl.
  rewrite F. unfold unparsed_error.
  destruct (filter (unparsed parse_isoformat) notes) as [|m failing] eqn:E.
  - exfalso. assert (In n (filter (unparsed parse_isoformat) notes)) as H.
    { apply filter_In. split; [assumption|]. unfold unparsed. now rewrite Hn. }
    now rewrite E in H.
  - rewrite (map_ext _ date_title); [reflexivity|].
    intros a. unfold date_title.
    destruct a as [d t c g [f|] l]; reflexivity.
Qed.

End Datetimes.

(** C3.  When the timestamp of one or more notes of a batch does not parse,
    [validate_datetimes] raises one [ValueError] that lists, for every such
    note, its raw timestamp and its title; and a run of the pipeline whose
    batch decomposes into these notes ends with that error and leaves the
    store as it found it: no file is written. *)
Theorem C3_unparsed_timestamp_aborts_batch
        (parse_isoformat : text -> option text) (title_case : text -> text)
        (now root_parent : text) (probe : text -> option refusal)
        (notes : list note) :
  (exists n, In n notes /\ parse_isoformat (datetime n) = None) ->
  validate_datetimes parse_isoformat (map Some notes)
  = throw (unparsed_error parse_isoformat notes)
  /\ forall (in_path out_dir : text) (overwrite_ok : bool) (w : world)
            (blocks : list text),
       fst (get_notes_from_path in_path w) = ok blocks ->
       decompose_notes blocks = ok (map Some notes) ->
       flat_note_to_atoms parse_isoformat title_case now root_parent probe
                          in_path out_dir overwrite_ok w
       = (throw (unparsed_error parse_isoformat notes), w).
Proof.
  intros H. pose proof (@validate_datetimes_raises _ _ H) as E.
  split; [exact E|].
  intros in_path out_dir overwrite_ok w blocks Hb Hd.
  unfold flat_note_to_atoms, bind at 1.
  pose proof (get_notes_from_path_store in_path w) as Hw.
  destruct (get_notes_from_path in_path w) as [r w'].
  simpl in Hb, Hw. subst r w'. unfold ok.
  unfold bind, lift. rewrite Hd. unfold ok. rewrite E. reflexivity.
Qed.

Lemma C3_unparsed_timestamp_aborts_batch_witness :
  let n1 := Note (str "2024-01-01 10:00:00") (str "Buy milk")
                 (str "Need milk for coffee") (str "[errand, home,]")
                 None None in
  let n2 := Note (str "2024-13-01 09:00:00") (str "Call home")
                 (str "After lunch") (str "[family]") None None in
  let report :=
    ValueError [Txt (str "Some note datetimes were unable to be parsed. ");
                Val (VInt 1);
                Txt (str " were not parsed. They are as follows:"
                      ++ [newline; newline]);
                Pformat (VList [VDict [(VStr (str "datetime"),
                                        VStr (str "2024-13-01 09:00:00"));
                                       (VStr (str "title"),
                                        VStr (str "Call home"))]])] in
  (exists n, In n [n1; n2] /\ Sample.parse_isoformat (datetime n) = None)
  /\ validate_datetimes Sample.parse_isoformat (map Some [n1; n2]) = throw report
  /\ Sample.run Sample.log_path Sample.out_dir false Sample.store_two_notes
     = (throw report, Sample.store_two_notes).
Proof.
  cbv zeta.
  assert (H : exists n,
             In n [Note (str "2024-01-01 10:00:00") (str "Buy milk")
                        (str "Need milk for coffee") (str "[errand, home,]")
                        None None;
                   Note (str "2024-13-01 09:00:00") (str "Call home")
                        (str "After lunch") (str "[family]") None None]
             /\ Sample.parse_isoformat (datetime n) = None).
  { eexists. split; [right; left; reflexivity | reflexivity]. }
  split; [exact H|].
  destruct (@C3_unparsed_timestamp_aborts_batch Sample.parse_isoformat
              Sample.title_case Sample.now Sample.root_parent Sample.probe _ H)
    as [E R].
  split; [exact E|].
  apply (R Sample.log_path Sample.out_dir false Sample.store_two_notes
           [Sample.buy_milk; Sample.call_home]); reflexivity.
Defined.

(** ** File names *)

(** *** Text lemmas *)

Ltac each_char c := destruct c as [[] [] [] [] [] [] [] []].

Lemma lower_char_replace_tidy (y : ascii) :
  allowed (if ascii_dec (Py.lower_char y) " " then "_"%char else Py.lower_char y)
  = true ->
  tidy (if ascii_dec (Py.lower_char y) " " then "_"%char else Py.lower_char y).
Proof.
  intros H. split; [|split; [|exact H]]; clear H.
  - each_char y; reflexivity.
  - each_char y; discriminate.
Qed.

Lemma last_cons (c d : ascii) (s : text) : last (c :: s) d = last s c.
Proof.
  revert c d. induction s as [|x s IH]; intros c d; [reflexivity|].
  change (last (c :: x :: s) d) with (last (x :: s) d).
  now rewrite !IH.
Qed.

Lemma last_char_snoc (s : text) (c : ascii) : last_char (s ++ [c]) = ok c.
Proof.
  destruct s as [|x s]; [reflexivity|]. simpl. f_equal.
  now rewrite last_last.
Qed.

Lemma in_lstrip (c : ascii) (s : text) : In c (Py.lstrip s) -> In c s.
Proof.
  induction s as [|x s IH]; simpl; [easy|].
  destruct (Py.is_space x); [now right; apply IH | easy].
Qed.

Lemma in_strip (c : ascii) (s : text) : In c (Py.strip s) -> In c s.
Proof.
  unfold Py.strip, Py.rstrip. intros H.
  apply in_lstrip, in_rev, in_lstrip in H. now apply in_rev.
Qed.

Lemma in_removelast (c : ascii) (s : text) : In c (removelast s) -> In c s.
Proof.
  induction s as [|x [|y s] IH]; simpl; [easy|easy|].
  intros [->|H]; [now left | right; now apply IH].
Qed.

Lemma lstrip_app (a b : text) :
  Py.lstrip (a ++ b) =
  match Py.lstrip a with
  | [] => Py.lstrip b
  | _ :: _ => Py.lstrip a ++ b
  end.
Proof.
  induction a as [|x a IH]; simpl; [reflexivity|].
  destruct (Py.is_space x); [exact IH | reflexivity].
Qed.

Lemma rstrip_snoc (s : text) (c : ascii) :
  Py.is_space c = false -> Py.rstrip (s ++ [c]) = s ++ [c].
Proof.
  intros H. unfold Py.rstrip. rewrite rev_app_distr. simpl. rewrite H.
  change (c :: rev s) with (rev [c] ++ rev s).
  now rewrite <- rev_app_distr, rev_involutive.
Qed.

Lemma filter_filter {A} (f g : A -> bool) (l : list A) :
  filter f (filter g l) = filter (fun x => g x && f x) l.
Proof.
  induction l as [|x l IH]; simpl; [reflexivity|].
  destruct (g x); simpl; [destruct (f x)|]; now rewrite IH.
Qed.

Lemma delete_all (ds : list ascii) (s : text) :
  fold_left (fun n char => Py.delete_char char n) ds s =
  filter (fun c => negb (existsb (fun d => if ascii_dec c d then true else false)
                                 ds)) s.
Proof.
  revert s. induction ds as [|d ds IH]; intros s; simpl.
  - symmetry. apply forallb_filter_id. now apply forallb_forall.
  - rewrite IH. unfold Py.delete_char. rewrite filter_filter.
    apply filter_ext. intros c. destruct (ascii_dec c d); reflexivity.
Qed.

Lemma filter_all {A} (f : A -> bool) (l : list A) :
  Forall (fun x => f x = true) l -> filter f l = l.
Proof.
  intros H. apply forallb_filter_id. now apply forallb_forall, Forall_forall.
Qed.

Lemma map_fixed {A} (f : A -> A) (l : list A) :
  Forall (fun x => f x = x) l -> map f l = l.
Proof. induction 1; simpl; congruence. Qed.

(** *** The file name of a title *)

(** Where the program computes a name, the name is the one the
    specification's six steps give. *)
Lemma filename_of_title_spec (t : text) :
  Py.strip (Py.lower t) <> [] ->
  filename_of_title t = ok (Spec.filename t).
Proof.
  intros H. unfold filename_of_title, Spec.filename.
  destruct (Py.strip (Py.lower t)) as [|c s] eqn:E; [contradiction|].
  cbn [last_char rbind ok]. rewrite delete_all.
  unfold Spec.strip_one_trailing_punctuation, Spec.trailing_punctuation.
  rewrite last_cons. reflexivity.
Qed.

Lemma filename_of_title_blank (t : text) :
  Py.strip (Py.lower t) = [] ->
  filename_of_title t = throw (IndexError (msg "string index out of range")).
Proof. intros H. unfold filename_of_title. now rewrite H. Qed.

Lemma filename_of_title_shape (t n : text) :
  filename_of_title t = ok n ->
  exists body, n = body ++ str ".md" /\ Forall tidy body.
Proof.
  intros H.
  destruct (Py.strip (Py.lower t)) as [|c s] eqn:E.
  - rewrite filename_of_title_blank in H by assumption. discriminate.
  - rewrite filename_of_title_spec in H by (rewrite E; discriminate).
    injection H as <-.
    unfold Spec.filename, Spec.append_extension, Spec.remove_disallowed.
    rewrite filter_app. eexists. split; [reflexivity|].
    apply Forall_forall. intros x Hx.
    apply filter_In in Hx. destruct Hx as [Hx Ha].
    unfold Spec.replace_spaces in Hx. apply in_map_iff in Hx.
    destruct Hx as [y [<- Hy]].
    assert (In y (Py.lower t)) as Hl.
    { apply in_strip. unfold Spec.strip_one_trailing_punctuation in Hy.
      destruct (Spec.trailing_punctuation _) in Hy;
        [now apply in_removelast|assumption]. }
    unfold Py.lower in Hl. apply in_map_iff in Hl. destruct Hl as [z [<- _]].
    apply lower_char_replace_tidy. exact Ha.
Qed.

Lemma filename_of_clean_name (body : text) :
  Forall tidy body ->
  filename_of_title (body ++ str ".md") =
  ok (Py.lstrip (body ++ str ".md") ++ str ".md").
Proof.
  intros Hb.
  assert (Hn : Forall tidy (body ++ str ".md")).
  { apply Forall_app. split; [assumption|].
    repeat constructor; discriminate. }
  assert (Hl : Forall tidy (Py.lstrip (body ++ str ".md"))).
  { apply Forall_forall. intros x Hx. apply in_lstrip in Hx.
    revert x Hx. now apply Forall_forall. }
  assert (Hs : Py.strip (Py.lower (body ++ str ".md"))
               = Py.lstrip (body ++ str ".md")).
  { unfold Py.lower. rewrite map_fixed
      by (eapply Forall_impl; [|exact Hn]; now intros ? [? _]).
    unfold Py.strip.
    change (body ++ str ".md") with (body ++ str ".m" ++ ["d"%char]).
    rewrite app_assoc. now rewrite rstrip_snoc. }
  unfold filename_of_title. rewrite Hs.
  assert (Hd : exists pre, Py.lstrip (body ++ str ".md") = pre ++ ["d"%char]).
  { rewrite lstrip_app. destruct (Py.lstrip body) as [|x l].
    - now exists (str ".m").
    - exists ((x :: l) ++ str ".m"). now rewrite <- app_assoc. }
  destruct Hd as [pre Hd]. rewrite Hd at 1. rewrite last_char_snoc.
  cbn [rbind ok existsb]. simpl (if ascii_dec _ _ then _ else _).
  cbn [orb]. rewrite delete_all.
  unfold Py.replace_char. rewrite map_fixed.
  - f_equal. apply filter_all. apply Forall_app. split.
    + eapply Forall_impl; [|exact Hl]. now intros ? [_ [_ ?]].
    + repeat constructor.
  - eapply Forall_impl; [|exact Hl]. intros c [_ [Hc _]].
    now destruct (ascii_dec c " ").
Qed.

Lemma lstrip_head (s r : text) (y : ascii) :
  Py.lstrip s = y :: r -> Py.is_space y = false.
Proof.
  induction s as [|x s IH]; simpl; [discriminate|].
  destruct (Py.is_space x) eqn:E; [exact IH|].
  intros H. injection H as <- _. exact E.
Qed.

(** C9 (amended).  Deriving a file name from a name that the derivation
    produced does not give the same name: it gives that name, without its
    leading whitespace, followed by a second [".md"]. *)
Theorem C9_second_derivation_appends_extension (t n : text) :
  filename_of_title t = ok n ->
  filename_of_title n = ok (Py.lstrip n ++ str ".md")
  /\ filename_of_title n <> ok n.
Proof.
  intros H. destruct (filename_of_title_shape _ H) as [body [-> Hb]].
  pose proof (filename_of_clean_name Hb) as E. split; [exact E|].
  rewrite E. clear E H. remember (body ++ str ".md") as n eqn:En.
  intros F. unfold ok in F. injection F as F.
  destruct n as [|x n'].
  - destruct body; discriminate.
  - simpl in F. destruct (Py.is_space x) eqn:Ex.
    + destruct (Py.lstrip n') as [|y r] eqn:El.
      * cbn in F. injection F as <- _. vm_compute in Ex. discriminate.
      * simpl in F. injection F as -> _.
        apply lstrip_head in El. congruence.
    + apply (f_equal (@length ascii)) in F.
      rewrite length_app in F. simpl in F. lia.
Qed.

Lemma C9_second_derivation_appends_extension_witness :
  filename_of_title (str "Buy milk") = ok (str "buy_milk.md")
  /\ filename_of_title (str "buy_milk.md")
     = ok (Py.lstrip (str "buy_milk.md") ++ str ".md")
  /\ filename_of_title (str "buy_milk.md") <> ok (str "buy_milk.md").
Proof.
  split; [reflexivity|].
  apply (@C9_second_derivation_appends_extension (str "Buy milk")).
  reflexivity.
Defined.

(** C9, as stated, fails: the derivation is not idempotent.  From the title
    ["Buy milk"] it gives ["buy_milk.md"], and from ["buy_milk.md"] it gives
    ["buy_milk.md.md"]. *)
Lemma C9_not_idempotent :
  ~ (forall t n : text,
        filename_of_title t = ok n -> filename_of_title n = ok n).
Proof.
  intros H.
  specialize (H (str "Buy milk") (str "buy_milk.md") eq_refl).
  vm_compute in H. discriminate.
Qed.

(** C6.  The title [" "], which [extract_note_fields] returns for the block
    ["2024-01-01 10:00:00 -  . Remember tags: [todo]"], has no file name: its
    trimmed form is empty and the test of the last character raises
    [IndexError], where the six steps of the specification give [".md"].  A
    run on a log with this note ends with that [IndexError]. *)
Theorem C6_blank_title_raises :
  extract_note_fields Sample.blank_title
  = Some (Note (str "2024-01-01 10:00:00") (str " ") (str "Remember")
               (str "[todo]") None None)
  /\ filename_of_title (str " ")
     = throw (IndexError (msg "string index out of range"))
  /\ Spec.filename (str " ") = str ".md"
  /\ Sample.run Sample.log_path Sample.out_dir false Sample.store_blank_title
     = (throw (IndexError (msg "string index out of range")),
        Sample.store_blank_title).
Proof. repeat split; vm_compute; reflexivity. Qed.

(** *** The scratch directory *)

Section Scratch.

Variable probe : text -> option refusal.
Variable root_parent : text.

(** With the scratch directory in place and empty, the loop body leaves it
    in place and empty. *)
Lemma add_filename_step (n : note) (w : world) :
  add_filename root_parent probe n (put (temp_dir root_parent) (Dir []) w)
  = (probe_outcome probe root_parent n,
     put (temp_dir root_parent) (Dir []) w).
Proof.
  unfold add_filename, probe_outcome, bind, lift.
  destruct (filename_of_title (title n)) as [e|name]; simpl; [reflexivity|].
  unfold try_finally, touch_or_annotate, try_except, FS.touch, FS.unlink,
    FS.null_byte, raise, ret.
  cbn [path_dir path_name].
  destruct (probe name) as [[e|]|] eqn:Ep.
  - rewrite lookup_put_same. simpl (lookup name []).
    cbn [refused is_OSError]. rewrite lookup_put_same. simpl (lookup name []).
    reflexivity.
  - reflexivity.
  - rewrite lookup_put_same. simpl (lookup name []).
    rewrite put_put, lookup_put_same.
    unfold put at 1. simpl (lookup name _).
    destruct (text_dec name name); [|contradiction].
    simpl (remove_key name _).
    destruct (text_dec name name); [|contradiction].
    now rewrite put_put.
Qed.

Lemma add_filename_loop (notes : list note) (w : world) :
  for_each_io (add_filename root_parent probe) notes
              (put (temp_dir root_parent) (Dir []) w)
  = (for_each (probe_outcome probe root_parent) notes,
     put (temp_dir root_parent) (Dir []) w).
Proof.
  induction notes as [|n notes IH]; simpl; [reflexivity|].
  unfold bind. rewrite add_filename_step.
  destruct (probe_outcome probe root_parent n) as [e|m]; simpl;
    [reflexivity|].
  rewrite IH.
  now destruct (for_each (probe_outcome probe root_parent) notes).
Qed.

(** When the scratch path is free, [add_filenames] comes to the loop over
    [probe_outcome] and gives the store back as it was. *)
Lemma add_filenames_spec (notes : list note) (w : world) :
  lookup (temp_dir root_parent) w = None ->
  add_filenames root_parent probe notes w
  = (for_each (probe_outcome probe root_parent) notes, w).
Proof.
  intros H. unfold add_filenames, try_finally, try_except, bind, FS.mkdir,
    FS.rmdir, raise.
  rewrite H, add_filename_loop.
  destruct (for_each (probe_outcome probe root_parent) notes) as [e|ns];
    cbn [is_Exception]; rewrite lookup_put_same, remove_key_put;
    auto.
Qed.

(** In the scratch directory, the [try] and [except] clauses alone raise the
    error of [touch] with the candidate name attached. *)
Lemma touch_or_annotate_refused (name : text) (e : errno) (w : world) :
  probe name = Some (Errno e) ->
  touch_or_annotate probe (Path (temp_dir root_parent) name) name
                    (put (temp_dir root_parent) (Dir []) w)
  = (throw (Noted (OSError e (path_str (Path (temp_dir root_parent) name)))
                   [Txt (str "file name potentially  invalid: ");
                    Val (VStr name)]),
     put (temp_dir root_parent) (Dir []) w).
Proof.
  intros H. unfold touch_or_annotate, try_except, FS.touch, FS.null_byte,
    raise.
  cbn [path_dir path_name]. rewrite H, lookup_put_same.
  simpl (lookup name []). reflexivity.
Qed.

Lemma probe_outcome_accepted (n : note) (name : text) :
  filename_of_title (title n) = ok name -> probe name = None ->
  probe_outcome probe root_parent n = ok (set_filename name n).
Proof. intros H1 H2. unfold probe_outcome. rewrite H1. simpl. now rewrite H2. Qed.

End Scratch.

(** C8.  When the scratch path is free, [add_filenames] removes the scratch
    directory again on every exit path: the path is free in the store it
    leaves, whether it returns or raises.  But when the probe file of a note
    cannot be created, the error that reaches the caller does not always
    name the candidate.  For a candidate with a NUL character [touch] raises
    [ValueError], which the [except OSError] clause does not catch, and
    [unlink] in the [finally] clause raises it again: the caller gets
    ["embedded null byte"] and no name.  For a candidate without a slash
    that the host refuses with an error number, the [try] and [except]
    clauses do raise the error annotated with the name; then [unlink] finds
    no file, and its own error for the probe path, which has no note, takes
    the place of the annotated one. *)
Theorem C8_refused_candidate_not_named
        (probe : text -> option refusal) (root_parent : text)
        (notes : list note) (w : world) :
  lookup (temp_dir root_parent) w = None ->
  lookup (temp_dir root_parent)
         (snd (add_filenames root_parent probe notes w)) = None
  /\ forall before n after name,
       notes = before ++ n :: after ->
       Forall (fun m => exists f,
                 filename_of_title (title m) = ok f /\ probe f = None)
              before ->
       filename_of_title (title n) = ok name ->
       let temp_outpath := Path (temp_dir root_parent) name in
       let scratch := put (temp_dir root_parent) (Dir []) w in
       (probe name = Some NullByte ->
        fst (add_filenames root_parent probe notes w)
        = throw (ValueError (msg "embedded null byte")))
       /\ (forall e,
              probe name = Some (Errno e) -> plain name ->
              fst (touch_or_annotate probe temp_outpath name scratch)
              = throw (Noted (OSError e (path_str temp_outpath))
                             [Txt (str "file name potentially  invalid: ");
                              Val (VStr name)])
              /\ exists e',
                  fst (add_filenames root_parent probe notes w)
                  = throw (OSError e' (path_str temp_outpath))).
Proof.
  intros H. rewrite add_filenames_spec by assumption. cbn [fst snd].
  split; [exact H|].
  intros before n after name -> Hb Hn. cbv zeta.
  assert (Hb' : Forall (fun m => exists m',
                          probe_outcome probe root_parent m = ok m') before).
  { eapply Forall_impl; [|exact Hb]. intros m [f [H1 H2]].
    eexists. now apply (@probe_outcome_accepted probe root_parent m f). }
  destruct (for_each_total _ Hb') as [bs Hbs].
  assert (Hloop : forall r,
             probe name = Some r ->
             for_each (probe_outcome probe root_parent) (before ++ n :: after)
             = throw (refused r (path_str (Path (temp_dir root_parent) name)))).
  { intros r Hp. rewrite for_each_app, Hbs. simpl.
    unfold probe_outcome at 1. rewrite Hn. simpl. now rewrite Hp. }
  split.
  - intros Hp. exact (Hloop _ Hp).
  - intros e Hp _. split.
    + now rewrite (@touch_or_annotate_refused probe root_parent name e w Hp).
    + exists e. exact (Hloop _ Hp).
Qed.

Lemma C8_refused_candidate_not_named_witness :
  let n1 := Note (str "2024-01-01T10:00:00") (str "Buy milk")
                 (str "Need milk for coffee") (str "[errand, home,]")
                 None None in
  let n2 := Note (str "2024-01-02T09:00:00")
                 (str "Null" ++ [nul] ++ str "byte")
                 (str "Keep them apart") (str "[io]") None None in
  let n3 := Note (str "2024-01-03T09:00:00") (repeat "x"%char 300)
                 (str "Too long") (str "[io]") None None in
  lookup (temp_dir Sample.root_parent) Sample.store = None
  /\ Sample.probe (str "null" ++ [nul] ++ str "byte.md") = Some NullByte
  /\ fst (add_filenames Sample.root_parent Sample.probe [n1; n2]
                        Sample.store)
     = throw (ValueError (msg "embedded null byte"))
  /\ lookup (temp_dir Sample.root_parent)
            (snd (add_filenames Sample.root_parent Sample.probe [n1; n2]
                                Sample.store)) = None
  /\ Sample.probe (repeat "x"%char 300 ++ str ".md")
     = Some (Errno ENAMETOOLONG)
  /\ (exists e',
        fst (add_filenames Sample.root_parent Sample.probe [n1; n3]
                           Sample.store)
        = throw (OSError e' (str "/srv/project/test_valid_names/"
                               ++ repeat "x"%char 300 ++ str ".md")))
  /\ let log := str "2024-01-02 09:00:00 - Null" ++ [nul]
                  ++ str "byte. Keep them apart tags: [io]" in
     let store := [(Sample.log_path, File log); (Sample.out_dir, Dir [])] in
     Sample.run Sample.log_path Sample.out_dir false store
     = (throw (ValueError (msg "embedded null byte")), store).
Proof.
  cbv zeta.
  set (n1 := Note (str "2024-01-01T10:00:00") (str "Buy milk")
                  (str "Need milk for coffee") (str "[errand, home,]")
                  None None).
  set (n2 := Note (str "2024-01-02T09:00:00")
                  (str "Null" ++ [nul] ++ str "byte")
                  (str "Keep them apart") (str "[io]") None None).
  set (n3 := Note (str "2024-01-03T09:00:00") (repeat "x"%char 300)
                  (str "Too long") (str "[io]") None None).
  assert (H0 : lookup (temp_dir Sample.root_parent) Sample.store = None)
    by reflexivity.
  assert (H1 : Forall (fun m => exists f,
                         filename_of_title (title m) = ok f
                         /\ Sample.probe f = None) [n1]).
  { constructor; [|constructor].
    exists (str "buy_milk.md"). split; reflexivity. }
  split; [exact H0|]. split; [reflexivity|].
  destruct (@C8_refused_candidate_not_named
              Sample.probe Sample.root_parent [n1; n2] Sample.store H0)
    as [Hs He].
  destruct (He [n1] n2 [] (str "null" ++ [nul] ++ str "byte.md")
               eq_refl H1 eq_refl) as [Hnul _].
  split; [exact (Hnul eq_refl)|]. split; [exact Hs|].
  split; [vm_compute; reflexivity|].
  destruct (@C8_refused_candidate_not_named
              Sample.probe Sample.root_parent [n1; n3] Sample.store H0)
    as [_ He'].
  assert (Hn3 : filename_of_title (title n3)
                = ok (repeat "x"%char 300 ++ str ".md"))
    by (vm_compute; reflexivity).
  destruct (He' [n1] n3 [] (repeat "x"%char 300 ++ str ".md")
                eq_refl H1 Hn3) as [_ Hlong].
  destruct (Hlong ENAMETOOLONG) as [_ [e' He'']].
  - vm_compute. reflexivity.
  - intros Hin. apply in_app_or in Hin. destruct Hin as [Hin|Hin].
    + apply repeat_spec in Hin. discriminate Hin.
    + repeat (destruct Hin as [Hin|Hin]; [discriminate Hin|]). exact Hin.
  - split; [|vm_compute; reflexivity].
    exists e'. rewrite He''. vm_compute. reflexivity.
Defined.

(** ** Tags *)

(** *** Empty tag lists *)

(** C10.  A note whose raw tag string has nothing between its first and last
    character once whitespace is trimmed makes the loop body of [parse_tags]
    raise [IndexError]; a batch that holds such a note never passes
    [parse_tags], and raises that [IndexError] when the notes before it
    parse. *)
Theorem C10_empty_tag_list_raises_IndexError (n : note) :
  Py.strip (Py.slice_1_m1 (Py.strip (tags n))) = [] ->
  parse_tags_note n = throw (IndexError (msg "string index out of range"))
  /\ forall before after : list note,
       (exists e, parse_tags (before ++ n :: after) = throw e)
       /\ (forall parsed, parse_tags before = ok parsed ->
           parse_tags (before ++ n :: after)
           = throw (IndexError (msg "string index out of range"))).
Proof.
  intros H.
  assert (E : parse_tags_note n
              = throw (IndexError (msg "string index out of range"))).
  { unfold parse_tags_note. now rewrite H. }
  split; [exact E|].
  intros before after. unfold parse_tags. rewrite for_each_app. simpl.
  rewrite E. split.
  - destruct (for_each parse_tags_note before) as [e|bs]; simpl; eauto.
  - intros parsed ->. reflexivity.
Qed.

Lemma C10_empty_tag_list_raises_IndexError_witness :
  let n := Note (str "2024-01-01 10:00:00") (str "Buy milk")
                (str "Need milk") (str "[ ]") None None in
  let m := Note (str "2024-01-02 09:00:00") (str "Call home")
                (str "After lunch") (str "[family]") None None in
  Py.strip (Py.slice_1_m1 (Py.strip (tags n))) = []
  /\ parse_tags_note n = throw (IndexError (msg "string index out of range"))
  /\ parse_tags ([m] ++ n :: [m])
     = throw (IndexError (msg "string index out of range")).
Proof.
  cbv zeta. split; [reflexivity|].
  split.
  - apply C10_empty_tag_list_raises_IndexError. reflexivity.
  - eapply C10_empty_tag_list_raises_IndexError; reflexivity.
Defined.

(** *** The order on tags *)

Lemma code_inj (x y : ascii) : code x = code y -> x = y.
Proof.
  unfold code. intros H.
  rewrite <- (ascii_nat_embedding x), <- (ascii_nat_embedding y).
  now rewrite H.
Qed.

Lemma text_ltb_irrefl (a : text) : text_ltb a a = false.
Proof.
  induction a as [|x a IH]; simpl; [reflexivity|].
  now rewrite Nat.ltb_irrefl.
Qed.

Lemma text_ltb_trans (a b c : text) :
  text_ltb a b = true -> text_ltb b c = true -> text_ltb a c = true.
Proof.
  revert b c. induction a as [|x a IH]; intros [|y b] [|z c]; simpl; try easy.
  destruct (Nat.ltb_spec (code x) (code y)), (Nat.ltb_spec (code y) (code x)),
    (Nat.ltb_spec (code y) (code z)), (Nat.ltb_spec (code z) (code y)),
    (Nat.ltb_spec (code x) (code z)), (Nat.ltb_spec (code z) (code x));
    try easy; try lia.
  apply IH.
Qed.

Lemma text_ltb_trichotomy (a b : text) :
  text_ltb a b = true \/ a = b \/ text_ltb b a = true.
Proof.
  revert b. induction a as [|x a IH]; intros [|y b]; simpl; auto.
  destruct (Nat.ltb_spec (code x) (code y)), (Nat.ltb_spec (code y) (code x));
    auto; try lia.
  assert (x = y) by (apply code_inj; lia). subst y.
  destruct (IH b) as [H1|[H1|H1]]; auto. subst; auto.
Qed.

Lemma text_ltb_asym (a b : text) : text_ltb a b = true -> text_ltb b a = false.
Proof.
  intros H. destruct (text_ltb b a) eqn:E; [|reflexivity].
  pose proof (text_ltb_trans _ _ _ H E) as F.
  now rewrite text_ltb_irrefl in F.
Qed.

Lemma text_le_refl (a : text) : text_le a a.
Proof. unfold text_le, text_leb. now rewrite text_ltb_irrefl. Qed.

Lemma text_lt_le (a b : text) : text_lt a b -> text_le a b.
Proof.
  unfold text_lt, text_le, text_leb. intros H.
  now rewrite (text_ltb_asym _ _ H).
Qed.

Lemma text_le_cases (a b : text) : text_le a b -> a = b \/ text_lt a b.
Proof.
  unfold text_le, text_lt, text_leb. intros H.
  destruct (text_ltb_trichotomy a b) as [E|[E|E]]; auto.
  now rewrite E in H.
Qed.

Lemma text_le_trans (a b c : text) : text_le a b -> text_le b c -> text_le a c.
Proof.
  intros H1 H2.
  destruct (text_le_cases H1) as [->|L1]; [assumption|].
  destruct (text_le_cases H2) as [<-|L2]; [assumption|].
  apply text_lt_le. exact (text_ltb_trans _ _ _ L1 L2).
Qed.

Lemma text_leb_false_le (a b : text) : text_leb a b = false -> text_le b a.
Proof.
  unfold text_leb. intros H. apply text_lt_le.
  unfold text_lt. now destruct (text_ltb b a).
Qed.

Lemma text_le_antisym (a b : text) : text_le a b -> text_le b a -> a = b.
Proof.
  intros H1 H2. destruct (text_le_cases H1) as [E|L]; [assumption|].
  unfold text_le, text_leb in H2. unfold text_lt in L. now rewrite L in H2.
Qed.

(** *** [sorted] sorts and keeps the elements *)

Lemma insert_sorted_perm (x : text) (l : list text) :
  Permutation (x :: l) (insert_sorted x l).
Proof.
  induction l as [|y l IH]; simpl; [reflexivity|].
  destruct (text_leb x y); [reflexivity|].
  rewrite perm_swap. now constructor.
Qed.

Lemma sorted_perm (l : list text) : Permutation l (sorted l).
Proof.
  induction l as [|x l IH]; simpl; [constructor|].
  rewrite <- insert_sorted_perm. now constructor.
Qed.

Lemma insert_sorted_ordered (x : text) (l : list text) :
  StronglySorted text_le l -> StronglySorted text_le (insert_sorted x l).
Proof.
  induction 1 as [|y l Hs IH Hall]; simpl.
  - repeat constructor.
  - destruct (text_leb x y) eqn:E.
    + constructor; [now constructor|].
      constructor; [exact E|].
      eapply Forall_impl; [|exact Hall].
      intros z Hz. exact (text_le_trans E Hz).
    + constructor; [exact IH|].
      eapply Permutation_Forall; [apply insert_sorted_perm|].
      constructor; [now apply text_leb_false_le | exact Hall].
Qed.

Lemma sorted_ordered (l : list text) : StronglySorted text_le (sorted l).
Proof.
  induction l as [|x l IH]; simpl; [constructor|].
  now apply insert_sorted_ordered.
Qed.

(** A list is strictly ascending when it is ordered and free of repeats. *)
Lemma ordered_nodup_strict (l : list text) :
  StronglySorted text_le l -> NoDup l -> StronglySorted text_lt l.
Proof.
  induction 1 as [|x l Hs IH Hall]; intros Hnd; [constructor|].
  inversion Hnd as [|? ? Hnotin Hnd']; subst.
  constructor; [now apply IH|].
  rewrite Forall_forall in *. intros y Hy.
  destruct (text_le_cases (Hall y Hy)) as [->|L]; [contradiction|exact L].
Qed.

(** Two ordered, repeat-free lists with the same elements are equal: the
    order in which [list(set(l))] lists the elements does not show after
    [sorted]. *)
Lemma strict_sorted_unique (l1 l2 : list text) :
  StronglySorted text_lt l1 -> StronglySorted text_lt l2 ->
  (forall x, In x l1 <-> In x l2) -> l1 = l2.
Proof.
  intros H1. revert l2.
  induction H1 as [|x l1 Hs1 IH Hall1]; intros l2 H2 Hin.
  - destruct l2 as [|y l2]; [reflexivity|].
    exfalso. apply (Hin y). now left.
  - destruct H2 as [|y l2 Hs2 Hall2].
    + exfalso. apply (Hin x). now left.
    + rewrite Forall_forall in Hall1, Hall2.
      assert (x = y) as ->.
      { destruct (proj1 (Hin x) (or_introl eq_refl)) as [E|I]; [now symmetry|].
        destruct (proj2 (Hin y) (or_introl eq_refl)) as [E|I']; [assumption|].
        pose proof (Hall2 _ I) as A. pose proof (Hall1 _ I') as B.
        unfold text_lt in A, B. now rewrite (text_ltb_asym _ _ A) in B. }
      f_equal. apply IH; [assumption|].
      intros z. split; intros Hz.
      * destruct (proj1 (Hin z) (or_intror Hz)) as [E|I]; [|assumption].
        subst z. pose proof (Hall1 _ Hz) as A. unfold text_lt in A.
        now rewrite text_ltb_irrefl in A.
      * destruct (proj2 (Hin z) (or_intror Hz)) as [E|I]; [|assumption].
        subst z. pose proof (Hall2 _ Hz) as A. unfold text_lt in A.
        now rewrite text_ltb_irrefl in A.
Qed.

Lemma sorted_list_set_any_order (l l' : list text) :
  NoDup l' -> (forall x, In x l' <-> In x l) ->
  sorted l' = sorted (list_set l).
Proof.
  intros Hnd Hin.
  apply strict_sorted_unique.
  - apply ordered_nodup_strict; [apply sorted_ordered|].
    eapply Permutation_NoDup; [apply sorted_perm|assumption].
  - apply ordered_nodup_strict; [apply sorted_ordered|].
    eapply Permutation_NoDup; [apply sorted_perm|apply NoDup_nodup].
  - intros x. split; intros H.
    + eapply Permutation_in; [apply sorted_perm|].
      apply nodup_In. apply Hin.
      eapply Permutation_in; [symmetry; apply sorted_perm|exact H].
    + eapply Permutation_in; [apply sorted_perm|].
      apply Hin. apply (nodup_In text_dec).
      eapply Permutation_in; [symmetry; apply sorted_perm|exact H].
Qed.

(** *** Tag normalisation in [form_posts] *)

Lemma sorted_list_set_normalized (l : list text) :
  normalized (sorted (list_set (l ++ [mres]))).
Proof.
  assert (Hnd : NoDup (sorted (list_set (l ++ [mres])))).
  { eapply Permutation_NoDup; [apply sorted_perm|apply NoDup_nodup]. }
  repeat split.
  - apply sorted_ordered.
  - exact Hnd.
  - apply NoDup_count_occ'; [exact Hnd|].
    eapply Permutation_in; [apply sorted_perm|].
    apply nodup_In, in_or_app. right. now left.
Qed.

Section FormPosts.

Variable title_case : text -> text.
Variable now : text.

Lemma form_post_enriched (out_dir_path : text) (n : note) :
  enriched n ->
  exists l f,
    cleaned_tags n = Some l /\ filename n = Some f /\
    form_post title_case now out_dir_path n =
      ok (Post (str "# " ++ title_case (title n) ++ [newline; newline]
                  ++ content n ++ [newline])
               (sorted (list_set (l ++ [mres]))) (datetime n) now,
          Path out_dir_path f).
Proof.
  intros [Hf Hc]. destruct n as [d t c g [f|] [l|]]; try easy.
  exists l, f. repeat split. cbn.
  now rewrite <- !app_assoc.
Qed.

Lemma form_posts_enriched (out_dir_path : text) (notes : list note) :
  Forall enriched notes ->
  exists posts,
    form_posts title_case now notes out_dir_path = ok posts /\
    length posts = length notes /\
    Forall (fun pp => normalized (post_tags (fst pp))) posts.
Proof.
  unfold form_posts.
  induction 1 as [|n notes Hn Hall [posts [E [L F]]]]; simpl.
  - exists []. repeat split. constructor.
  - destruct (form_post_enriched out_dir_path Hn) as [l [f [_ [_ En]]]].
    rewrite En, E. simpl. eexists. split; [reflexivity|].
    split; [simpl; now rewrite L|].
    constructor; [apply sorted_list_set_normalized | exact F].
Qed.

End FormPosts.

Section Writing.

Variable title_case : text -> text.
Variable now : text.
Variable probe : text -> option refusal.

Lemma form_post_normalized (out_dir_path : text) (n : note) pp :
  form_post title_case now out_dir_path n = ok pp ->
  normalized (post_tags (fst pp)).
Proof.
  destruct n as [d t c g [f|] [l|]]; cbn; try discriminate.
  intros E. injection E as <-. cbn. apply sorted_list_set_normalized.
Qed.

Lemma form_posts_normalized (out_dir_path : text) (notes : list note) posts :
  form_posts title_case now notes out_dir_path = ok posts ->
  Forall (fun pp => normalized (post_tags (fst pp))) posts.
Proof.
  unfold form_posts. revert posts.
  induction notes as [|n notes IH]; simpl; intros posts E.
  - injection E as <-. constructor.
  - destruct (form_post title_case now out_dir_path n) as [e|pp] eqn:En;
      [discriminate|].
    simpl in E.
    destruct (for_each (form_post title_case now out_dir_path) notes)
      as [e|ps] eqn:Es; [discriminate|].
    injection E as <-.
    constructor; [exact (form_post_normalized _ _ En) | now apply IH].
Qed.

Lemma dump_outcome (q : post) (p : path) (w : world) :
  (exists x, FS.dump probe q p w = (inl x, w))
  \/ (exists es,
        lookup (path_dir p) w = Some (Dir es)
        /\ FS.dump probe q p w
           = (inr tt,
              put (path_dir p) (Dir (put (path_name p) (Document q) es)) w)).
Proof.
  unfold FS.dump, FS.null_byte.
  destruct (probe (path_name p)) as [[e|]|];
    destruct (lookup (path_dir p) w) as [[s|es]|];
    try (left; now eexists);
    destruct (lookup (path_name p) es);
    try (left; now eexists); right; now eexists.
Qed.

Lemma write_loop_documents (posts : list (post * path)) (overwrite_ok : bool) :
  Forall (fun pp => normalized (post_tags (fst pp))) posts ->
  forall written w d name p,
    has_document (snd (write_loop probe posts overwrite_ok written w)) d name p ->
    has_document w d name p \/ normalized (post_tags p).
Proof.
  induction 1 as [|[q pth] posts Hq Hall IH]; intros written w d name p; simpl.
  - auto.
  - unfold bind.
    assert (Hex : exists b, FS.exists_ pth w = (inr b, w)).
    { unfold FS.exists_.
      destruct (lookup (path_dir pth) w) as [[s|es]|]; now eexists. }
    destruct Hex as [b ->].
    destruct (b && negb overwrite_ok); simpl; auto.
    destruct (dump_outcome q pth w) as [[x ->]|[es [Ed ->]]]; simpl; auto.
    intros H. apply IH in H. destruct H as [H|H]; [|now right].
    destruct (has_document_put Ed H) as [->|H']; auto.
Qed.

End Writing.

(** C7.  Every note that reaches [form_posts] with its file name and parsed
    tags gets a post whose tag list is ascending, free of repeats and holds
    the marker ["mres"] exactly once, whatever repeats and order the parsed
    tags had; and every document that [output_notes] leaves in the store,
    unless it was there before, carries such a tag list. *)
Theorem C7_document_tags_normalized
        (title_case : text -> text) (now : text) (probe : text -> option refusal)
        (notes : list note) (out_dir_path : text) (overwrite_ok : bool)
        (w : world) :
  (Forall enriched notes ->
   exists posts,
     form_posts title_case now notes out_dir_path = ok posts /\
     length posts = length notes /\
     Forall (fun pp => normalized (post_tags (fst pp))) posts)
  /\
  (forall d name p,
     has_document
       (snd (output_notes title_case now probe notes out_dir_path
                          overwrite_ok w)) d name p ->
     has_document w d name p \/ normalized (post_tags p)).
Proof.
  split.
  - apply form_posts_enriched.
  - intros d name p. unfold output_notes, bind, lift, write_notes.
    destruct (form_posts title_case now notes out_dir_path) as [e|posts] eqn:E;
      simpl; [auto|].
    apply write_loop_documents.
    exact (form_posts_normalized _ _ _ _ E).
Qed.

Lemma C7_document_tags_normalized_witness :
  let n := Note (str "2024-01-01T10:00:00") (str "Buy milk")
                (str "Need milk for coffee") (str "[home, errand, home]")
                (Some (str "buy_milk.md"))
                (Some [str "home"; str "errand"; str "home"]) in
  let p := Post (str "# Buy Milk" ++ [newline; newline]
                   ++ str "Need milk for coffee" ++ [newline])
                [str "errand"; str "home"; str "mres"]
                (str "2024-01-01T10:00:00") Sample.now in
  Forall enriched [n]
  /\ (exists posts,
        form_posts Sample.title_case Sample.now [n] Sample.out_dir = ok posts /\
        length posts = 1 /\
        Forall (fun pp => normalized (post_tags (fst pp))) posts)
  /\ has_document
       (snd (output_notes Sample.title_case Sample.now Sample.probe [n]
                          Sample.out_dir false Sample.store))
       Sample.out_dir (str "buy_milk.md") p
  /\ (has_document Sample.store Sample.out_dir (str "buy_milk.md") p
      \/ normalized (post_tags p)).
Proof.
  cbv zeta.
  assert (He : Forall enriched
                 [Note (str "2024-01-01T10:00:00") (str "Buy milk")
                       (str "Need milk for coffee") (str "[home, errand, home]")
                       (Some (str "buy_milk.md"))
                       (Some [str "home"; str "errand"; str "home"])]).
  { constructor; [split; discriminate | constructor]. }
  assert (Hd : has_document
       (snd (output_notes Sample.title_case Sample.now Sample.probe
               [Note (str "2024-01-01T10:00:00") (str "Buy milk")
                     (str "Need milk for coffee") (str "[home, errand, home]")
                     (Some (str "buy_milk.md"))
                     (Some [str "home"; str "errand"; str "home"])]
               Sample.out_dir false Sample.store))
       Sample.out_dir (str "buy_milk.md")
       (Post (str "# Buy Milk" ++ [newline; newline]
                ++ str "Need milk for coffee" ++ [newline])
             [str "errand"; str "home"; str "mres"]
             (str "2024-01-01T10:00:00") Sample.now)).
  { eexists. split; lazy; reflexivity. }
  split; [exact He|].
  split; [exact (proj1 (C7_document_tags_normalized Sample.title_case Sample.now
                          Sample.probe _ Sample.out_dir false Sample.store) He)|].
  split; [exact Hd|].
  exact (proj2 (C7_document_tags_normalized Sample.title_case Sample.now
                  Sample.probe _ Sample.out_dir false Sample.store) _ _ _ Hd).
Defined.

(** ** Whole runs *)

(** C4.  [flat_note_to_atoms] does not call [validate_dir].  With no output
    directory, [validate_dir] would raise at once, but the run splits,
    extracts, validates and probes first and fails only when the first
    document is written; with an output path that is a regular file
    likewise; and when the log has a block without a match, the error of the
    extraction stage is raised, not one about the directory. *)
Theorem C4_output_directory_not_checked_first :
  validate_dir Sample.out_dir Sample.store_without_out_dir
  = (throw (ValueError (msg "out_dir_path must exist")),
     Sample.store_without_out_dir)
  /\ Sample.run Sample.log_path Sample.out_dir false Sample.store_without_out_dir
     = (throw (OSError ENOENT (str "/home/user/zettel/buy_milk.md")),
        Sample.store_without_out_dir)
  /\ validate_dir Sample.out_dir Sample.store_out_is_file
     = (throw (ValueError (msg "out_dir_path must be a directory")),
        Sample.store_out_is_file)
  /\ Sample.run Sample.log_path Sample.out_dir false Sample.store_out_is_file
     = (throw (OSError ENOTDIR (str "/home/user/zettel/buy_milk.md")),
        Sample.store_out_is_file)
  /\ Sample.run Sample.log_path Sample.out_dir false Sample.store_unmatched
     = (throw context_manager_error, Sample.store_unmatched).
Proof. repeat split; vm_compute; reflexivity. Qed.

(** C1.  The note ["2024-01-01 10:00:00 - Buy milk. Need milk for coffee
    tags: [errand, home,]"] is decomposed into the title ["Buy milk"], the
    content ["Need milk for coffee"] and the raw tags ["[errand, home,]"];
    its title gives the file name ["buy_milk.md"]; its raw tags are parsed to
    [errand; home] and, once the marker is appended and the list is
    deduplicated and sorted, become [errand; home; mres].  Run on a log that
    holds this one note, the pipeline writes ["buy_milk.md"] with these tags. *)
Theorem C1_buy_milk_example :
  let n := Note (str "2024-01-01 10:00:00") (str "Buy milk")
                (str "Need milk for coffee") (str "[errand, home,]")
                None None in
  extract_note_fields Sample.buy_milk = Some n
  /\ filename_of_title (title n) = ok (str "buy_milk.md")
  /\ parse_tags_note n = ok (set_cleaned_tags [str "errand"; str "home"] n)
  /\ (n1 <- parse_tags_note n ;; n2 <- add_mres_tag n1 ;;
      n3 <- dropping_duplicates_and_sorting_tags n2 ;; get_cleaned_tags n3)%res
     = ok [str "errand"; str "home"; str "mres"]
  /\ exists w p,
       Sample.run Sample.log_path Sample.out_dir false Sample.store
       = (inr [str "/home/user/zettel/buy_milk.md"], w)
       /\ has_document w Sample.out_dir (str "buy_milk.md") p
       /\ post_tags p = [str "errand"; str "home"; str "mres"].
Proof.
  cbv zeta. repeat split; try (vm_compute; reflexivity).
  eexists. eexists. split; [vm_compute; reflexivity|].
  split; [eexists; split; lazy; reflexivity | reflexivity].
Qed.

(** * Further properties of the stages *)

(** ** The note splitter *)

Lemma pattern_match_inv (sn rs : text) (m : mstate) :
  run pattern Some (MState sn rs []) = Some m ->
  exists rs', rs = newline :: newline :: rs'
              /\ seen m = newline :: newline :: sn.
Proof.
  unfold pattern, seq, chr. cbn [fold_right]. rewrite !run_cat.
  cbn [run seen ahead caps cls_ok].
  destruct sn as [|x sn]; [discriminate|].
  destruct (ascii_dec x "]"); [|discriminate].
  destruct rs as [|a [|b rs]]; try discriminate.
  - now destruct (ascii_dec a newline).
  - destruct (ascii_dec a newline) as [->|]; [|discriminate].
    destruct (ascii_dec b newline) as [->|]; [|discriminate].
    destruct (run stamp Some _); [|discriminate].
    intros H. injection H as <-. now exists rs.
Qed.

Lemma join_cons (sep a : text) (l : list text) :
  l <> [] -> join sep (a :: l) = a ++ sep ++ join sep l.
Proof. destruct l; [contradiction|reflexivity]. Qed.

Lemma split_from_nonempty (r : re) (rs : text) :
  forall sn cur skip, split_from r sn rs cur skip <> [].
Proof.
  induction rs as [|c rs IH]; intros sn cur skip; simpl; [discriminate|].
  destruct skip; [|apply IH].
  destruct (run r Some _); [discriminate|apply IH].
Qed.

Lemma split_from_join (rs : text) :
  (forall sn cur,
      join blank_line (split_from pattern sn rs cur 0) = rev cur ++ rs)
  /\ (forall sn cur,
         join blank_line (split_from pattern sn rs cur 1) = rev cur ++ tl rs).
Proof.
  induction rs as [|c rs [IH0 IH1]].
  - split; intros; simpl; now rewrite app_nil_r.
  - split; intros sn cur; cbn [split_from tl]; [|apply IH0].
    destruct (run pattern Some (MState sn (c :: rs) [])) as [m|] eqn:E.
    + destruct (pattern_match_inv _ _ E) as [rs' [Hrs Hm]].
      injection Hrs as Hc Hrs. rewrite Hm.
      replace (length (newline :: newline :: sn) - length sn - 1) with 1
        by (cbn [length]; lia).
      rewrite join_cons by apply split_from_nonempty.
      rewrite IH1, Hc, Hrs. reflexivity.
    + rewrite IH0. cbn [rev]. now rewrite <- app_assoc.
Qed.

(** X1.  Splitting loses nothing and keeps the order: the blocks that
    [regex.split] returns, joined again with the blank line that separates
    them, are the text that was split. *)
Theorem split_join_roundtrip (s : text) :
  join blank_line (Regex.split pattern s) = s.
Proof. unfold Regex.split. now rewrite (proj1 (split_from_join s)). Qed.

Lemma for_each_unit_ok {A} (f : A -> res unit) (l : list A) (us : list unit) :
  for_each f l = ok us -> Forall (fun a => f a = ok tt) l.
Proof.
  revert us. induction l as [|a l IH]; intros us H; [constructor|].
  simpl in H. destruct (f a) as [e|[]] eqn:Ea; [discriminate|].
  simpl in H. destruct (for_each f l) as [e|bs] eqn:El; [discriminate|].
  constructor; [exact Ea | now apply (IH bs)].
Qed.

Lemma block_check_ok (b : text) :
  (c0 <- first_char b ;;
   if negb (if ascii_dec c0 "2" then true else false)
   then throw (ValueError (msg "note doesnt start with a 2"))
   else
     c1 <- last_char b ;;
     if negb (if ascii_dec c1 "]" then true else false)
     then throw (ValueError (msg "note doesnt end with a ']'"))
     else ok tt)%res = ok tt ->
  block_checked b.
Proof.
  destruct b as [|c b]; [discriminate|]. cbn [first_char rbind ok].
  destruct (ascii_dec c "2") as [->|]; [|discriminate].
  cbn [negb last_char rbind ok].
  destruct (ascii_dec (last b "2"%char) "]") as [E|]; [|discriminate].
  intros _. split; [now exists b|].
  exists (removelast ("2"%char :: b)).
  rewrite (app_removelast_last "2"%char) at 1 by discriminate.
  now rewrite last_cons, E.
Qed.

(** X2.  [get_notes_from_path] only reads: it never changes the store.  A
    path that is not there raises the [OSError] of [open]; and when it
    returns, it returns the blocks of the file's text, at least one, each
    starting with ["2"] and ending with ["]"], which joined with blank lines
    give the text back. *)
Theorem get_notes_from_path_checked (p : text) (w : world) :
  snd (get_notes_from_path p w) = w
  /\ (lookup p w = None ->
      fst (get_notes_from_path p w) = throw (OSError ENOENT p))
  /\ (forall notes,
        fst (get_notes_from_path p w) = ok notes ->
        exists s, lookup p w = Some (File s)
                  /\ notes = Regex.split pattern s
                  /\ notes <> []
                  /\ Forall block_checked notes
                  /\ join blank_line notes = s).
Proof.
  split; [apply get_notes_from_path_store|].
  unfold get_notes_from_path, bind, FS.read_text, lift, ret.
  split.
  - intros ->. reflexivity.
  - intros notes.
    destruct (lookup p w) as [[s|es]|]; cbn [fst]; try discriminate.
    destruct (for_each _ (Regex.split pattern s)) as [e|us] eqn:E;
      cbn [fst]; [discriminate|].
    intros H. unfold ok in H. injection H as <-.
    exists s. repeat split.
    + apply split_from_nonempty.
    + apply for_each_unit_ok in E.
      eapply Forall_impl; [|exact E]. intros b. apply block_check_ok.
    + unfold Regex.split. now rewrite (proj1 (split_from_join s)).
Qed.

Lemma get_notes_from_path_checked_witness :
  lookup (str "/home/user/missing.md") Sample.store_two_notes = None
  /\ fst (get_notes_from_path (str "/home/user/missing.md")
                              Sample.store_two_notes)
     = throw (OSError ENOENT (str "/home/user/missing.md"))
  /\ fst (get_notes_from_path Sample.log_path Sample.store_two_notes)
     = ok [Sample.buy_milk; Sample.call_home]
  /\ exists s, lookup Sample.log_path Sample.store_two_notes = Some (File s)
               /\ [Sample.buy_milk; Sample.call_home] = Regex.split pattern s
               /\ [Sample.buy_milk; Sample.call_home] <> []
               /\ Forall block_checked [Sample.buy_milk; Sample.call_home]
               /\ join blank_line [Sample.buy_milk; Sample.call_home] = s.
Proof.
  split; [reflexivity|].
  split; [exact (proj1 (proj2 (get_notes_from_path_checked
                                 (str "/home/user/missing.md")
                                 Sample.store_two_notes)) eq_refl)|].
  assert (H : fst (get_notes_from_path Sample.log_path Sample.store_two_notes)
              = ok [Sample.buy_milk; Sample.call_home]) by reflexivity.
  split; [exact H|].
  exact (proj2 (proj2 (get_notes_from_path_checked Sample.log_path
                         Sample.store_two_notes)) _ H).
Defined.

(** ** The field extractor *)

Lemma run_atom_inv (c : cls) (k : cont) (sn rs : text) cp m :
  run (Atom c) k (MState sn rs cp) = Some m ->
  exists x rs', rs = x :: rs' /\ cls_ok c x = true
                /\ k (MState (x :: sn) rs' cp) = Some m.
Proof.
  simpl. destruct rs as [|x rs]; [discriminate|].
  destruct (cls_ok c x) eqn:E; [|discriminate].
  intros H. now exists x, rs.
Qed.

Lemma run_times_inv (c : cls) (n : nat) :
  forall (k : cont) (sn rs : text) cp m,
    run (Times n (Atom c)) k (MState sn rs cp) = Some m ->
    exists l rs', rs = l ++ rs' /\ length l = n
                  /\ Forall (fun x => cls_ok c x = true) l
                  /\ k (MState (rev l ++ sn) rs' cp) = Some m.
Proof.
  induction n as [|n IH]; intros k sn rs cp m H.
  - exists [], rs. repeat split; [constructor|exact H].
  - simpl in H. destruct rs as [|x rs]; [discriminate|].
    destruct (cls_ok c x) eqn:E; [|discriminate].
    destruct (IH k (x :: sn) rs cp m H) as [l [rs' [-> [Hl [Hc Hk]]]]].
    exists (x :: l), rs'. repeat split.
    + simpl. now rewrite Hl.
    + now constructor.
    + now rewrite rev_cons_app.
Qed.

Lemma run_lit_inv_k (l : text) :
  forall (k : cont) (sn rs : text) cp m,
    run (lit l) k (MState sn rs cp) = Some m ->
    exists rest, rs = l ++ rest /\ k (MState (rev l ++ sn) rest cp) = Some m.
Proof.
  induction l as [|c l IH]; intros k sn rs cp m H.
  - now exists rs.
  - cbn [lit] in H. rewrite run_cat in H.
    apply run_atom_inv in H. destruct H as [x [rs' [-> [Hx H]]]].
    simpl in Hx. destruct (ascii_dec x c) as [->|]; [|discriminate].
    destruct (IH _ _ _ _ _ H) as [rest [-> Hk]].
    exists rest. split; [reflexivity|]. now rewrite rev_cons_app.
Qed.

Lemma lazy_plus_inv (c : cls) (k : cont) (rs : text) :
  forall (sn : text) cp m,
    lazy_plus c k sn rs cp = Some m ->
    exists p q, rs = p ++ q /\ p <> []
                /\ Forall (fun x => cls_ok c x = true) p
                /\ k (MState (rev p ++ sn) q cp) = Some m.
Proof.
  induction rs as [|x rs IH]; intros sn cp m H; [discriminate|].
  simpl in H. destruct (cls_ok c x) eqn:E; [|discriminate].
  destruct (k (MState (x :: sn) rs cp)) as [m'|] eqn:Ek.
  - injection H as <-. exists [x], rs. repeat split; try easy.
    now constructor.
  - destruct (IH _ _ _ H) as [p [q [-> [Hp [Hc Hk]]]]].
    exists (x :: p), q. repeat split; try easy.
    + now constructor.
    + now rewrite rev_cons_app.
Qed.

Lemma star_inv (c : cls) (k : cont) (rs : text) :
  forall (sn : text) cp m,
    star c k sn rs cp = Some m ->
    exists p q, rs = p ++ q /\ Forall (fun x => cls_ok c x = true) p
                /\ k (MState (rev p ++ sn) q cp) = Some m.
Proof.
  induction rs as [|x rs IH]; intros sn cp m H.
  - exists [], []. repeat split; [constructor|exact H].
  - simpl in H. destruct (cls_ok c x) eqn:E.
    + destruct (star c k (x :: sn) rs cp) as [m'|] eqn:Es.
      * injection H as <-.
        destruct (IH _ _ _ Es) as [p [q [-> [Hc Hk]]]].
        exists (x :: p), q. repeat split.
        -- now constructor.
        -- now rewrite rev_cons_app.
      * exists [], (x :: rs). repeat split; [constructor|exact H].
    + exists [], (x :: rs). repeat split; [constructor|exact H].
Qed.

Lemma run_stamp_inv (k : cont) (sn rs : text) cp m :
  run stamp k (MState sn rs cp) = Some m ->
  exists ts rs', stamp_shaped ts /\ rs = ts ++ rs'
                 /\ k (MState (rev ts ++ sn) rs' cp) = Some m.
Proof.
  unfold stamp, seq, digit, chr. cbn [fold_right]. rewrite !run_cat.
  intros H.
  apply run_times_inv in H. destruct H as [y [r1 [-> [Ly [Dy H]]]]].
  apply run_atom_inv in H. destruct H as [x1 [r2 [-> [E1 H]]]].
  apply run_times_inv in H. destruct H as [mo [r3 [-> [Lmo [Dmo H]]]]].
  apply run_atom_inv in H. destruct H as [x2 [r4 [-> [E2 H]]]].
  apply run_times_inv in H. destruct H as [d [r5 [-> [Ld [Dd H]]]]].
  apply run_atom_inv in H. destruct H as [x3 [r6 [-> [E3 H]]]].
  apply run_times_inv in H. destruct H as [h [r7 [-> [Lh [Dh H]]]]].
  apply run_atom_inv in H. destruct H as [x4 [r8 [-> [E4 H]]]].
  apply run_times_inv in H. destruct H as [mi [r9 [-> [Lmi [Dmi H]]]]].
  apply run_atom_inv in H. destruct H as [x5 [r10 [-> [E5 H]]]].
  apply run_times_inv in H. destruct H as [s [r11 [-> [Ls [Ds H]]]]].
  cbn [run] in H. simpl in E1, E2, E3, E4, E5.
  destruct (ascii_dec x1 "-") as [->|]; [|discriminate].
  destruct (ascii_dec x2 "-") as [->|]; [|discriminate].
  destruct (ascii_dec x3 " ") as [->|]; [|discriminate].
  destruct (ascii_dec x4 ":") as [->|]; [|discriminate].
  destruct (ascii_dec x5 ":") as [->|]; [|discriminate].
  exists (y ++ str "-" ++ mo ++ str "-" ++ d ++ str " "
            ++ h ++ str ":" ++ mi ++ str ":" ++ s), r11.
  split; [|split].
  - exists y, mo, d, h, mi, s. now repeat split.
  - cbn [str list_ascii_of_string app].
    repeat (progress (rewrite <- ?app_assoc; cbn [app])). reflexivity.
  - rewrite <- H. do 2 f_equal.
    cbn [str list_ascii_of_string app].
    repeat (progress (rewrite ?rev_app_distr; cbn [rev])).
    rewrite <- !app_assoc. reflexivity.
Qed.

Lemma one_line_of_any (s : text) :
  Forall (fun x => cls_ok CAny x = true) s -> one_line s.
Proof.
  intros H. eapply Forall_impl; [|exact H].
  intros c Hc E. simpl in Hc. now destruct (ascii_dec c newline).
Qed.

Lemma after_content_sound (sn rs : text) cp m :
  after_content (MState sn rs cp) = Some m ->
  exists g tail,
    rs = str " tags: " ++ g ++ tail /\ one_line g
    /\ (tail = [] \/ tail = [newline])
    /\ caps m = (4, g) :: cp.
Proof.
  unfold after_content. rewrite run_ahead.
  destruct (run (lit (str " tag")) Some (MState sn rs cp)) as [m0|] eqn:E0;
    [|discriminate].
  apply run_lit_inv_k in E0. destruct E0 as [r0 [_ E0]].
  injection E0 as <-. cbn [seen ahead caps run].
  destruct (cap 3 cp) as [p|]; [|discriminate].
  destruct (Py.starts_with (rev p) sn); [|discriminate].
  intros H. apply run_lit_inv_k in H. destruct H as [r1 [-> H]].
  cbn beta in H. cbn [seen ahead caps] in H.
  apply star_inv in H. destruct H as [g [tail [-> [Hg H]]]].
  cbn [run seen ahead caps] in H. rewrite consumed_app in H.
  exists g, tail. split; [reflexivity|].
  split; [now apply one_line_of_any|].
  destruct tail as [|x [|y tail]]; try discriminate.
  - injection H as <-. split; [now left|reflexivity].
  - destruct (ascii_dec x newline) as [->|]; [|discriminate].
    injection H as <-. split; [now right|reflexivity].
Qed.

(** The fields of a matched block, and how they tile the block. *)
Lemma extract_note_fields_shape (raw : text) (n : note) :
  extract_note_fields raw = Some n ->
  stamp_shaped (datetime n)
  /\ title n <> [] /\ one_line (title n)
  /\ content n <> [] /\ one_line (content n)
  /\ one_line (tags n)
  /\ filename n = None /\ cleaned_tags n = None
  /\ exists tail,
       (tail = [] \/ tail = [newline])
       /\ raw = datetime n ++ str " - " ++ title n ++ str ". "
                  ++ content n ++ str " tags: " ++ tags n ++ tail.
Proof.
  unfold extract_note_fields, rmatch.
  destruct (run regexp Some (MState [] raw [])) as [m|] eqn:E; [|discriminate].
  rewrite regexp_run, run_group in E.
  apply run_stamp_inv in E. destruct E as [ts [r1 [Hts [-> E]]]].
  cbn [seen ahead caps] in E. rewrite consumed_app in E.
  apply run_lit_inv_k in E. destruct E as [r2 [-> E]].
  rewrite run_group, run_cat in E. cbn [seen ahead caps] in E.
  change (run (LazyPlus CAny) ?k ?s)
    with (lazy_plus CAny k (seen s) (ahead s) (caps s)) in E.
  cbn [seen ahead caps] in E.
  apply lazy_plus_inv in E. destruct E as [t [r3 [-> [Ht [Ht1 E]]]]].
  rewrite run_ahead in E.
  destruct (run (Alt (chr ".") (chr "?")) Some _) as [m0|] eqn:E0;
    [|discriminate].
  assert (Hm0 : caps m0 = [(1, ts)]).
  { cbn [run chr seen ahead caps] in E0.
    destruct r3 as [|x r3]; [discriminate|].
    destruct (cls_ok (CChar ".") x); [now injection E0 as <-|].
    destruct (cls_ok (CChar "?") x); [now injection E0 as <-|discriminate]. }
  cbn [seen ahead caps] in E. rewrite Hm0, consumed_app in E.
  cbn [run seen ahead caps cap Nat.eqb] in E.
  destruct (Py.starts_with (rev t) _); [|discriminate].
  apply run_atom_inv in E. destruct E as [x1 [r4 [-> [E1 E]]]].
  apply run_atom_inv in E. destruct E as [x2 [r5 [-> [E2 E]]]].
  simpl in E1, E2.
  destruct (ascii_dec x1 ".") as [->|]; [|discriminate].
  destruct (ascii_dec x2 " ") as [->|]; [|discriminate].
  cbn beta in E. cbn [seen ahead caps] in E.
  apply lazy_plus_inv in E. destruct E as [c [r6 [-> [Hc [Hc1 E]]]]].
  cbn [seen ahead caps] in E. rewrite consumed_app in E.
  apply after_content_sound in E.
  destruct E as [g [tail [-> [Hg [Htail Hcaps]]]]].
  unfold groupdict. rewrite Hcaps. cbn [cap Nat.eqb].
  intros H. injection H as <-. cbn [datetime title content tags filename
                                     cleaned_tags].
  repeat split; try assumption; try (now apply one_line_of_any).
  exists tail. split; [assumption|].
  cbn [str list_ascii_of_string app].
  repeat (progress (rewrite <- ?app_assoc; cbn [app])). reflexivity.
Qed.

(** X3.  The fields of a matched block tile the block: the timestamp, [" - "],
    the title, [". "], the content, [" tags: "] and the tag string, in this
    order, give the block back, up to one final newline.  The timestamp has
    the prescribed shape, title and content are not empty, and no field
    holds a newline; the two late keys are not set. *)
Theorem extract_note_fields_sound (raw : text) (n : note) :
  extract_note_fields raw = Some n ->
  stamp_shaped (datetime n)
  /\ title n <> [] /\ one_line (title n)
  /\ content n <> [] /\ one_line (content n)
  /\ one_line (tags n)
  /\ filename n = None /\ cleaned_tags n = None
  /\ exists tail,
       (tail = [] \/ tail = [newline])
       /\ raw = datetime n ++ str " - " ++ title n ++ str ". "
                  ++ content n ++ str " tags: " ++ tags n ++ tail.
Proof. exact (@extract_note_fields_shape raw n). Qed.

Lemma extract_note_fields_sound_witness :
  let n := Note (str "2024-01-01 10:00:00") (str "Buy milk")
                (str "Need milk for coffee") (str "[errand, home,]")
                None None in
  extract_note_fields Sample.buy_milk = Some n
  /\ stamp_shaped (datetime n)
  /\ title n <> [] /\ one_line (title n)
  /\ content n <> [] /\ one_line (content n)
  /\ one_line (tags n)
  /\ filename n = None /\ cleaned_tags n = None
  /\ exists tail,
       (tail = [] \/ tail = [newline])
       /\ Sample.buy_milk
          = datetime n ++ str " - " ++ title n ++ str ". "
              ++ content n ++ str " tags: " ++ tags n ++ tail.
Proof.
  cbv zeta. split; [reflexivity|].
  apply (@extract_note_fields_sound Sample.buy_milk). reflexivity.
Defined.

(** ** The batch of decomposed notes *)

Lemma none_or_all_truthy (l : list (option note)) :
  In None l \/ Forall (fun d => truthy d = true) l.
Proof.
  induction l as [|[n|] l [IH|IH]]; auto.
  - left. now right.
  - left. now left.
  - left. now left.
Qed.

Lemma no_match_indexes_nil (l : list (option note)) (i : nat) :
  Forall (fun d => truthy d = true) l ->
  filter (fun p : nat * option note => negb (truthy (snd p)))
         (enumerate_from i l) = [].
Proof.
  intros H. revert i. induction H as [|d l Hd _ IH]; intros i;
    [reflexivity|].
  simpl. rewrite Hd. simpl. apply IH.
Qed.

Lemma check_notes_without_matches_passes (notes : list text)
      (decomposed_notes : list (option note)) :
  Forall (fun d => truthy d = true) decomposed_notes ->
  check_notes_without_matches notes decomposed_notes = ok tt.
Proof.
  intros H. unfold check_notes_without_matches.
  now rewrite no_match_indexes_nil.
Qed.

Lemma existsb_truthy (l : list (option note)) :
  Forall (fun d => truthy d = true) l ->
  existsb truthy l = match l with [] => false | _ :: _ => true end.
Proof. intros H. destruct H as [|d l Hd _]; [reflexivity|]. simpl. now rewrite Hd. Qed.

(** X4.  [decompose_notes] returns exactly when the batch is not empty and
    every block has a match, and then it returns the fields of the blocks in
    order.  Its own [ValueError], "a match was not found in a note", is
    raised for the empty batch and for no other. *)
Theorem decompose_notes_cases (notes : list text) :
  (decompose_notes notes
   = throw (ValueError (msg "a match was not found in a note"))
   <-> notes = [])
  /\ (forall ds,
        decompose_notes notes = ok ds
        <-> notes <> []
            /\ Forall (fun raw => extract_note_fields raw <> None) notes
            /\ ds = map extract_note_fields notes).
Proof.
  unfold decompose_notes.
  destruct (none_or_all_truthy (map extract_note_fields notes)) as [Hn|Ha].
  - assert (E : check_notes_without_matches notes
                  (map extract_note_fields notes)
                = throw context_manager_error).
    { apply check_notes_without_matches_raises; [apply length_map|exact Hn]. }
    rewrite E. cbn [rbind throw]. split.
    + split; [discriminate|]. intros ->. destruct Hn.
    + intros ds. split; [discriminate|]. intros [_ [Hall _]].
      apply in_map_iff in Hn. destruct Hn as [raw [Hraw Hin]].
      rewrite Forall_forall in Hall. now destruct (Hall raw Hin).
  - rewrite (check_notes_without_matches_passes _ Ha). cbn [rbind ok].
    rewrite (existsb_truthy Ha).
    assert (Hall : Forall (fun raw => extract_note_fields raw <> None) notes).
    { rewrite Forall_map in Ha. eapply Forall_impl; [|exact Ha].
      intros raw. cbn beta. now destruct (extract_note_fields raw). }
    destruct notes as [|raw notes]; cbn [map negb].
    + split; [now split|]. intros ds. split; [discriminate|]. now intros [[] _].
    + split; [split; discriminate|].
      intros ds. unfold ok. split.
      * intros H. injection H as <-. now repeat split.
      * intros [_ [_ ->]]. reflexivity.
Qed.

Lemma decompose_notes_cases_witness :
  let n1 := Note (str "2024-01-01 10:00:00") (str "Buy milk")
                 (str "Need milk for coffee") (str "[errand, home,]")
                 None None in
  let n2 := Note (str "2024-13-01 09:00:00") (str "Call home")
                 (str "After lunch") (str "[family]") None None in
  decompose_notes [] = throw (ValueError (msg "a match was not found in a note"))
  /\ decompose_notes [Sample.buy_milk; Sample.call_home]
     = ok [Some n1; Some n2]
  /\ [Sample.buy_milk; Sample.call_home] <> []
  /\ Forall (fun raw => extract_note_fields raw <> None)
            [Sample.buy_milk; Sample.call_home]
  /\ [Some n1; Some n2]
     = map extract_note_fields [Sample.buy_milk; Sample.call_home].
Proof.
  cbv zeta.
  split; [exact (proj2 (proj1 (decompose_notes_cases [])) eq_refl)|].
  assert (H : decompose_notes [Sample.buy_milk; Sample.call_home]
              = ok [Some (Note (str "2024-01-01 10:00:00") (str "Buy milk")
                               (str "Need milk for coffee")
                               (str "[errand, home,]") None None);
                    Some (Note (str "2024-13-01 09:00:00") (str "Call home")
                               (str "After lunch") (str "[family]")
                               None None)]) by reflexivity.
  split; [exact H|].
  exact (proj1 (proj2 (decompose_notes_cases
                         [Sample.buy_milk; Sample.call_home]) _) H).
Defined.

(** ** The datetime normalizer *)

Lemma for_each_Forall2 {A B} (f : A -> res B) (l : list A) (l' : list B) :
  for_each f l = ok l' <-> Forall2 (fun a b => f a = ok b) l l'.
Proof.
  revert l'. induction l as [|a l IH]; intros l'; simpl.
  - split.
    + intros H. injection H as <-. constructor.
    + intros H. now inversion H.
  - split.
    + destruct (f a) as [e|b] eqn:Ea; [discriminate|]. simpl.
      destruct (for_each f l) as [e|bs] eqn:El; [discriminate|]. simpl.
      intros H. injection H as <-. constructor; [exact Ea|]. now apply IH.
    + intros H. inversion H as [|? b ? bs Hab Hl]; subst.
      rewrite Hab. simpl. apply IH in Hl. now rewrite Hl.
Qed.

Lemma for_each_raises {A B} (f : A -> res B) (l : list A) (e : exn) :
  (forall a, In a l -> f a = throw e \/ exists b, f a = ok b) ->
  (exists a, In a l /\ f a = throw e) ->
  for_each f l = throw e.
Proof.
  induction l as [|a l IH]; intros Hall [x [Hin Hx]]; [destruct Hin|].
  simpl. destruct (Hall a (or_introl eq_refl)) as [->|[b Hb]]; [reflexivity|].
  rewrite Hb. simpl. rewrite IH; [reflexivity| |].
  - intros y Hy. apply Hall. now right.
  - destruct Hin as [->|Hin]; [rewrite Hx in Hb; discriminate|].
    now exists x.
Qed.

Lemma validate_datetimes_passes (parse_isoformat : text -> option text)
      (notes : list note) :
  Forall (fun n => parse_isoformat (datetime n) <> None) notes ->
  exists out,
    validate_datetimes parse_isoformat (map Some notes) = ok out
    /\ Forall2 (fun n n' =>
                  parse_isoformat (datetime n) = Some (datetime n')
                  /\ n' = set_datetime (datetime n') n) notes out.
Proof.
  intros Hall. unfold validate_datetimes.
  destruct (validate_datetime_loop parse_isoformat notes)
    as [marked [E F]].
  rewrite E. cbn [rbind ok]. rewrite F.
  assert (Hf : filter (unparsed parse_isoformat) notes = []).
  { clear E F. induction Hall as [|n notes Hn _ IH]; [reflexivity|].
    simpl. unfold unparsed at 1.
    now destruct (parse_isoformat (datetime n)). }
  rewrite Hf. eexists. split; [reflexivity|].
  apply for_each_Forall2 in E. clear F Hf.
  revert marked E. induction Hall as [|n notes Hn _ IH]; intros marked E.
  - inversion E. constructor.
  - inversion E as [|? b ? bs Hnb Hrest]; subst. simpl.
    constructor; [|now apply IH].
    unfold validate_datetime in Hnb. cbn [subscript rbind ok] in Hnb.
    destruct (parse_isoformat (datetime n)) as [d|]; [|contradiction].
    unfold ok in Hnb. injection Hnb as <-. simpl. now split.
Qed.

(** X5.  When every timestamp of the batch parses, [validate_datetimes]
    returns the notes in order, each with its timestamp replaced by the
    parsed one and nothing else changed.  An element of the batch that is
    [None] makes it raise the [TypeError] of subscripting [None]. *)
Theorem validate_datetimes_cases (parse_isoformat : text -> option text)
        (notes : list note) (ds : list (option note)) :
  (Forall (fun n => parse_isoformat (datetime n) <> None) notes ->
   exists out,
     validate_datetimes parse_isoformat (map Some notes) = ok out
     /\ Forall2 (fun n n' =>
                   parse_isoformat (datetime n) = Some (datetime n')
                   /\ n' = set_datetime (datetime n') n) notes out)
  /\ (In None ds ->
      validate_datetimes parse_isoformat ds
      = throw (TypeError (msg "'NoneType' object is not subscriptable"))).
Proof.
  split.
  - apply validate_datetimes_passes.
  - intros Hin. unfold validate_datetimes.
    rewrite (@for_each_raises _ _ (validate_datetime parse_isoformat) ds
               (TypeError (msg "'NoneType' object is not subscriptable")));
      [reflexivity| |].
    + intros [n|] _; [right|left; reflexivity].
      unfold validate_datetime. cbn [subscript rbind ok].
      destruct (parse_isoformat (datetime n)); now eexists.
    + now exists None.
Qed.

Lemma validate_datetimes_cases_witness :
  let n := Note (str "2024-01-01 10:00:00") (str "Buy milk")
                (str "Need milk for coffee") (str "[errand, home,]")
                None None in
  Forall (fun n => Sample.parse_isoformat (datetime n) <> None) [n]
  /\ validate_datetimes Sample.parse_isoformat (map Some [n])
     = ok [set_datetime (str "2024-01-01T10:00:00") n]
  /\ In None [Some n; None]
  /\ validate_datetimes Sample.parse_isoformat [Some n; None]
     = throw (TypeError (msg "'NoneType' object is not subscriptable")).
Proof.
  cbv zeta.
  split; [constructor; [discriminate|constructor]|].
  split; [reflexivity|].
  split; [right; left; reflexivity|].
  apply (proj2 (validate_datetimes_cases Sample.parse_isoformat [] _)).
  right. left. reflexivity.
Defined.

(** ** The filename deriver *)

(** X6.  The derivation of a file name fails for blank titles and for no
    others, with [IndexError].  A name it returns ends with [".md"]; before
    the extension it has no space, none of the six deleted characters and
    no character that lower-casing would change. *)
Theorem filename_of_title_cases (t : text) :
  (Py.strip (Py.lower t) = []
   /\ filename_of_title t = throw (IndexError (msg "string index out of range")))
  \/ (Py.strip (Py.lower t) <> []
      /\ exists body,
           filename_of_title t = ok (body ++ str ".md")
           /\ Forall tidy body).
Proof.
  destruct (Py.strip (Py.lower t)) as [|c s] eqn:E.
  - left. split; [reflexivity|]. now apply filename_of_title_blank.
  - right. split; [discriminate|].
    destruct (filename_of_title t) as [e|n] eqn:En.
    + rewrite filename_of_title_spec in En by (rewrite E; discriminate).
      discriminate.
    + destruct (filename_of_title_shape _ En) as [body [-> Hb]].
      now exists body.
Qed.

(** ** The scratch directory, once more *)

(** X7.  When the scratch path is free and [add_filenames] returns, the notes
    come back in order, each with the name derived from its title under
    ['filename'] and nothing else changed; every one of these names was
    accepted by the file system; and the store is as it was. *)
Theorem add_filenames_returns (probe : text -> option refusal)
        (root_parent : text) (notes notes' : list note) (w : world) :
  lookup (temp_dir root_parent) w = None ->
  fst (add_filenames root_parent probe notes w) = ok notes' ->
  snd (add_filenames root_parent probe notes w) = w
  /\ Forall2 (fun n n' =>
                exists name,
                  filename_of_title (title n) = ok name
                  /\ probe name = None
                  /\ n' = set_filename name n) notes notes'.
Proof.
  intros H. rewrite add_filenames_spec by assumption. cbn [fst snd].
  intros E. split; [reflexivity|].
  apply for_each_Forall2 in E.
  eapply Forall2_impl; [|exact E].
  intros n n'. unfold probe_outcome.
  destruct (filename_of_title (title n)) as [e|name]; [discriminate|].
  cbn [rbind]. destruct (probe name) eqn:Ep; [discriminate|].
  intros F. unfold ok in F. injection F as <-. now exists name.
Qed.

Lemma add_filenames_returns_witness :
  let n := Note (str "2024-01-01T10:00:00") (str "Buy milk")
                (str "Need milk for coffee") (str "[errand, home,]")
                None None in
  lookup (temp_dir Sample.root_parent) Sample.store = None
  /\ fst (add_filenames Sample.root_parent Sample.probe [n] Sample.store)
     = ok [set_filename (str "buy_milk.md") n]
  /\ snd (add_filenames Sample.root_parent Sample.probe [n] Sample.store)
     = Sample.store
  /\ Forall2 (fun n n' =>
                exists name,
                  filename_of_title (title n) = ok name
                  /\ Sample.probe name = None
                  /\ n' = set_filename name n)
             [n] [set_filename (str "buy_milk.md") n].
Proof.
  cbv zeta. split; [reflexivity|]. split; [reflexivity|].
  apply (@add_filenames_returns Sample.probe Sample.root_parent);
    reflexivity.
Defined.

(** X8.  When something already sits at the scratch path, [add_filenames]
    looks at no note.  [mkdir] raises; then [rmdir] in the [finally] clause
    runs against what was there: an empty directory is removed and the
    error of [mkdir] propagates, while a directory with entries or a file is
    left alone and the error of [rmdir] takes the place of that of
    [mkdir]. *)
Theorem add_filenames_scratch_taken (probe : text -> option refusal)
        (root_parent : text) (notes : list note) (w : world) (x : node) :
  lookup (temp_dir root_parent) w = Some x ->
  add_filenames root_parent probe notes w
  = match x with
    | Dir [] =>
        (throw (OSError EEXIST (temp_dir root_parent)),
         remove_key (temp_dir root_parent) w)
    | Dir (_ :: _) => (throw (OSError ENOTEMPTY (temp_dir root_parent)), w)
    | File _ => (throw (OSError ENOTDIR (temp_dir root_parent)), w)
    end.
Proof.
  intros H. unfold add_filenames, try_finally, try_except, bind, FS.mkdir,
    FS.rmdir, raise.
  rewrite H. cbn [is_Exception]. rewrite H.
  now destruct x as [s|[|en es]].
Qed.

Lemma add_filenames_scratch_taken_witness :
  let w := (temp_dir Sample.root_parent, Dir [(str "old.md", Empty)])
             :: Sample.store in
  lookup (temp_dir Sample.root_parent) w
  = Some (Dir [(str "old.md", Empty)])
  /\ add_filenames Sample.root_parent Sample.probe [] w
     = (throw (OSError ENOTEMPTY (temp_dir Sample.root_parent)), w).
Proof.
  cbv zeta. split; [reflexivity|].
  apply (@add_filenames_scratch_taken Sample.probe Sample.root_parent []
           _ (Dir [(str "old.md", Empty)])).
  reflexivity.
Defined.

(** ** The tag normalizer *)

Lemma contains_In (c : ascii) (s : text) : Py.contains c s = true <-> In c s.
Proof.
  unfold Py.contains. rewrite existsb_exists. split.
  - intros [x [Hx E]]. now destruct (ascii_dec x c) as [->|].
  - intros H. exists c. split; [exact H|]. now destruct (ascii_dec c c).
Qed.

Lemma contains_strip (c : ascii) (s : text) :
  Py.contains c s = false -> Py.contains c (Py.strip s) = false.
Proof.
  intros H. destruct (Py.contains c (Py.strip s)) eqn:E; [|reflexivity].
  apply contains_In, in_strip, contains_In in E. congruence.
Qed.

Lemma split_nonempty (sep : ascii) (s : text) : Py.split sep s <> [].
Proof.
  induction s as [|c s IH]; simpl; [discriminate|].
  destruct (ascii_dec c sep); [discriminate|].
  now destruct (Py.split sep s).
Qed.

Lemma split_no_sep (sep : ascii) (s : text) :
  Forall (fun w => Py.contains sep w = false) (Py.split sep s).
Proof.
  induction s as [|c s IH]; simpl; [now repeat constructor|].
  destruct (ascii_dec c sep) as [->|N]; [now constructor|].
  destruct (Py.split sep s) as [|w ws].
  - repeat constructor. simpl. now destruct (ascii_dec c sep).
  - inversion IH as [|? ? Hw Hws]; subst. constructor; [|exact Hws].
    simpl. destruct (ascii_dec c sep); [contradiction|exact Hw].
Qed.

Lemma lstrip_fixed (s : text) :
  (forall c r, s = c :: r -> Py.is_space c = false) -> Py.lstrip s = s.
Proof.
  destruct s as [|c s]; [reflexivity|]. intros H. simpl.
  now rewrite (H c s eq_refl).
Qed.

Lemma lstrip_suffix (s : text) : exists ws, s = ws ++ Py.lstrip s.
Proof.
  induction s as [|c s [ws IH]]; [now exists []|]. simpl.
  destruct (Py.is_space c); [|now exists []].
  exists (c :: ws). simpl. now rewrite <- IH.
Qed.

Lemma strip_fixed (s : text) :
  (forall c r, s = c :: r -> Py.is_space c = false) ->
  (forall c r, rev s = c :: r -> Py.is_space c = false) ->
  Py.strip s = s.
Proof.
  intros H1 H2. unfold Py.strip, Py.rstrip.
  rewrite (lstrip_fixed H2), rev_involutive. now apply lstrip_fixed.
Qed.

Lemma strip_strip (s : text) : Py.strip (Py.strip s) = Py.strip s.
Proof.
  apply strip_fixed.
  - intros c r E. exact (lstrip_head _ E).
  - intros c r E. unfold Py.strip in E.
    destruct (lstrip_suffix (Py.rstrip s)) as [ws Hws].
    assert (Hr : rev (Py.rstrip s) = c :: r ++ rev ws).
    { rewrite Hws at 1. rewrite rev_app_distr, E. reflexivity. }
    unfold Py.rstrip in Hr. rewrite rev_involutive in Hr.
    exact (lstrip_head _ Hr).
Qed.

Lemma space_check_loop (e : exn) (l : list text) :
  for_each (fun tag => if Py.contains " " tag then throw e else ok tt) l
  = throw e
  \/ (exists us,
        for_each (fun tag => if Py.contains " " tag then throw e else ok tt) l
        = ok us)
     /\ Forall (fun t => Py.contains " " t = false) l.
Proof.
  induction l as [|t l IH]; simpl.
  - right. split; [now eexists|constructor].
  - destruct (Py.contains " " t) eqn:E; [now left|]. simpl.
    destruct IH as [->|[[us ->] Hall]]; [now left|].
    right. split; [now eexists|now constructor].
Qed.

Lemma parse_tags_note_outcome (n : note) :
  match parse_tags_note n with
  | inl e => e = IndexError (msg "string index out of range")
             \/ e = space_in_tag_error n
  | inr n' => exists l, n' = set_cleaned_tags l n /\ l <> []
                        /\ Forall clean_tag l
  end.
Proof.
  unfold parse_tags_note.
  destruct (last_char (Py.strip (Py.slice_1_m1 (Py.strip (tags n)))))
    as [e|c] eqn:Ec.
  - left. unfold last_char in Ec.
    destruct (Py.strip _); [now injection Ec as <-|discriminate].
  - cbn [rbind].
    set (inner := if ascii_dec c "," then _ else _).
    destruct (space_check_loop (space_in_tag_error n)
                (map Py.strip (Py.split "," inner))) as [E|[[us E] Hall]].
    + unfold space_in_tag_error in E. rewrite E. now right.
    + unfold space_in_tag_error in E. rewrite E. cbn [rbind ok].
      eexists. split; [reflexivity|]. split.
      * intros H. apply map_eq_nil in H. now apply split_nonempty in H.
      * rewrite Forall_map in Hall |- *.
        pose proof (split_no_sep "," inner) as Hsep.
        rewrite Forall_forall in Hall, Hsep |- *.
        intros t Ht. repeat split.
        -- now apply Hall.
        -- apply contains_strip. now apply Hsep.
        -- apply strip_strip.
Qed.

(** X9.  [parse_tags] raises nothing but the [IndexError] of an empty tag
    list and the [ValueError] that names the title of a note of the batch.
    When it returns, the notes come back in order, each with a list of tags
    under ['cleaned_tags'] and nothing else changed; the list is not empty
    and each of its tags is trimmed and has no space and no comma. *)
Theorem parse_tags_cases (notes : list note) :
  match parse_tags notes with
  | inl e => e = IndexError (msg "string index out of range")
             \/ exists n, In n notes /\ e = space_in_tag_error n
  | inr notes' =>
      Forall2 (fun n n' => exists l, n' = set_cleaned_tags l n /\ l <> []
                                     /\ Forall clean_tag l) notes notes'
  end.
Proof.
  unfold parse_tags. induction notes as [|n notes IH]; simpl; [constructor|].
  pose proof (parse_tags_note_outcome n) as Hn.
  destruct (parse_tags_note n) as [e|n']; cbn [rbind].
  - destruct Hn as [-> | ->]; [now left|].
    right. exists n. split; [now left|reflexivity].
  - destruct (for_each parse_tags_note notes) as [e|notes']; cbn [rbind ok].
    + destruct IH as [-> | [m [Hm ->]]]; [now left|].
      right. exists m. split; [now right|reflexivity].
    + now constructor.
Qed.

Lemma sorted_in (l : list text) (x : text) : In x (sorted l) <-> In x l.
Proof.
  split; intros H.
  - eapply Permutation_in; [symmetry; apply sorted_perm|exact H].
  - eapply Permutation_in; [apply sorted_perm|exact H].
Qed.

Lemma strict_sorted_fixed (l : list text) :
  StronglySorted text_le l -> NoDup l -> sorted (list_set l) = l.
Proof.
  intros Hs Hn. apply strict_sorted_unique.
  - apply ordered_nodup_strict; [apply sorted_ordered|].
    eapply Permutation_NoDup; [apply sorted_perm|apply NoDup_nodup].
  - now apply ordered_nodup_strict.
  - intros x. rewrite sorted_in. apply nodup_In.
Qed.

Lemma final_tags_value (n : note) (l : list text) :
  cleaned_tags n = Some l ->
  final_tags n = ok (sorted (list_set (l ++ [mres]))).
Proof. destruct n as [d t c g f [l0|]]; intros H; inversion H. reflexivity. Qed.

(** X10.  The tags of a post are the tags of its note and the marker, and
    nothing else; two notes whose tag lists hold the same tags, in whatever
    order and however often, get the same list.  A note without
    ['cleaned_tags'] raises [KeyError]. *)
Theorem final_tags_cases (n : note) :
  match cleaned_tags n with
  | None => final_tags n = throw (KeyError (str "cleaned_tags"))
  | Some l =>
      exists r,
        final_tags n = ok r
        /\ (forall x, In x r <-> In x l \/ x = mres)
        /\ (forall n' l',
              cleaned_tags n' = Some l' ->
              (forall x, In x l <-> In x l') ->
              final_tags n' = ok r)
  end.
Proof.
  destruct (cleaned_tags n) as [l|] eqn:E.
  - exists (sorted (list_set (l ++ [mres]))).
    split; [now apply final_tags_value|]. split.
    + intros x. rewrite sorted_in. unfold list_set. rewrite nodup_In, in_app_iff.
      simpl. intuition.
    + intros n' l' E' Hin. rewrite (final_tags_value _ E'). f_equal.
      symmetry. apply sorted_list_set_any_order; [apply NoDup_nodup|].
      intros x. unfold list_set. rewrite nodup_In, !in_app_iff.
      specialize (Hin x). tauto.
  - destruct n as [d t c g f [l|]]; [discriminate|reflexivity].
Qed.

(** X11.  Normalising the tags is idempotent: the list that [form_posts]
    attaches, put back under ['cleaned_tags'] and normalised again, is the
    same list; the marker is not added a second time. *)
Theorem final_tags_idempotent (n : note) (r : list text) :
  final_tags n = ok r ->
  final_tags (set_cleaned_tags r n) = ok r.
Proof.
  destruct (cleaned_tags n) as [l|] eqn:E.
  - rewrite (final_tags_value _ E). intros H. unfold ok in H.
    injection H as <-.
    rewrite (@final_tags_value _ (sorted (list_set (l ++ [mres]))))
      by reflexivity.
    f_equal.
    destruct (sorted_list_set_normalized l) as [Hs [Hn Hc]].
    rewrite <- (strict_sorted_fixed Hs Hn) at 2.
    apply sorted_list_set_any_order; [apply NoDup_nodup|].
    intros x. unfold list_set at 1 3. rewrite !nodup_In, in_app_iff.
    split; [|tauto]. intros [H|[<-|[]]]; [exact H|].
    apply sorted_in, nodup_In, in_or_app. right. now left.
  - destruct n as [d t c g f [l|]]; [discriminate|]. discriminate.
Qed.

Lemma final_tags_idempotent_witness :
  let n := Note (str "2024-01-01T10:00:00") (str "Buy milk")
                (str "Need milk for coffee") (str "[home, errand, home]")
                (Some (str "buy_milk.md"))
                (Some [str "home"; str "errand"; str "home"]) in
  let r := [str "errand"; str "home"; str "mres"] in
  final_tags n = ok r /\ final_tags (set_cleaned_tags r n) = ok r.
Proof.
  cbv zeta. split; [reflexivity|].
  eapply final_tags_idempotent. reflexivity.
Defined.

(** ** The writer *)

Lemma path_eq_dec (p q : path) : {p = q} + {p <> q}.
Proof.
  destruct p as [d n], q as [d' n'].
  destruct (text_dec d d') as [->|Nd]; [|right; congruence].
  destruct (text_dec n n') as [->|Nn]; [now left|right; congruence].
Qed.

Section Writer.

Variable probe : text -> option refusal.

Lemma exists_spec (p : path) (w : world) :
  FS.exists_ p w = (ok true, w) /\ (exists x, has_entry w p x)
  \/ FS.exists_ p w = (ok false, w) /\ (forall x, ~ has_entry w p x).
Proof.
  unfold FS.exists_, has_entry.
  destruct (lookup (path_dir p) w) as [[s|es]|] eqn:Ed.
  - right. split; [reflexivity|]. intros x [es [H _]]. discriminate.
  - destruct (lookup (path_name p) es) as [x|] eqn:En.
    + left. split; [reflexivity|]. exists x, es. now split.
    + right. split; [reflexivity|]. intros x [es' [H1 H2]]. congruence.
  - right. split; [reflexivity|]. intros x [es [H _]]. discriminate.
Qed.

(** What [dump] does to the entries: on success the entry of the path holds
    the document and every other entry is as before; on failure the store
    is as before. *)
Lemma dump_spec (q : post) (p : path) (w : world) :
  (exists x, FS.dump probe q p w = (throw x, w))
  \/ (exists w', FS.dump probe q p w = (ok tt, w')
                 /\ has_entry w' p (Document q)
                 /\ (forall p' x, p' <> p -> has_entry w p' x ->
                                  has_entry w' p' x)
                 /\ (forall k, k <> path_dir p -> lookup k w' = lookup k w)
                 /\ (exists es es', lookup (path_dir p) w = Some (Dir es)
                                    /\ lookup (path_dir p) w' = Some (Dir es'))).
Proof.
  destruct (@dump_outcome probe q p w) as [[x Hx]|[es [Ed Hd]]];
    [left; now exists x|].
  right. rewrite Hd. eexists. split; [reflexivity|].
  split; [|split; [|split]].
  - eexists. split; [apply lookup_put_same|apply lookup_put_same].
  - intros p' x Hp [es' [H1 H2]].
    destruct (text_dec (path_dir p') (path_dir p)) as [Ed'|Nd].
    + rewrite Ed' in H1. rewrite Ed in H1. injection H1 as <-.
      eexists. split; [rewrite Ed'; apply lookup_put_same|].
      rewrite lookup_put_other; [exact H2|].
      intros En. apply Hp. destruct p, p'. simpl in *. congruence.
    + exists es'. split; [|exact H2]. now rewrite lookup_put_other.
  - intros k Hk. now apply lookup_put_other.
  - exists es. eexists. split; [exact Ed|apply lookup_put_same].
Qed.

Lemma write_loop_app (a b : list (post * path)) (overwrite_ok : bool) :
  forall acc w,
    write_loop probe (a ++ b) overwrite_ok acc w
    = match write_loop probe a overwrite_ok acc w with
      | (inr acc', w') => write_loop probe b overwrite_ok acc' w'
      | (inl e, w') => (inl e, w')
      end.
Proof.
  induction a as [|[q p] a IH]; intros acc w; [reflexivity|].
  cbn [app write_loop]. unfold bind.
  destruct (FS.exists_ p w) as [[e|ex] w1]; [reflexivity|].
  destruct (ex && negb overwrite_ok); [reflexivity|].
  destruct (FS.dump probe q p w1) as [[e|[]] w2]; [reflexivity|].
  apply IH.
Qed.

Lemma write_loop_step (q : post) (p : path) (posts : list (post * path))
      (overwrite_ok : bool) (acc : list text) (w : world) :
  write_loop probe ((q, p) :: posts) overwrite_ok acc w
  = match FS.exists_ p w with
    | (inr true, _) =>
        if overwrite_ok
        then match FS.dump probe q p w with
             | (inr _, w') =>
                 write_loop probe posts overwrite_ok (acc ++ [path_str p]) w'
             | (inl e, w') => (inl e, w')
             end
        else (throw (already_exists_error p), w)
    | _ =>
        match FS.dump probe q p w with
        | (inr _, w') =>
            write_loop probe posts overwrite_ok (acc ++ [path_str p]) w'
        | (inl e, w') => (inl e, w')
        end
    end.
Proof.
  cbn [write_loop]. unfold bind.
  destruct (exists_spec p w) as [[-> _]|[-> _]]; unfold ok; cbn [andb].
  - destruct overwrite_ok; reflexivity.
  - reflexivity.
Qed.

(** Without permission to overwrite, an entry of the store outlives the
    loop, and a post whose path it occupies stops the loop with an error. *)
Lemma write_loop_keeps_entries (posts : list (post * path)) :
  forall acc w p x,
    has_entry w p x ->
    has_entry (snd (write_loop probe posts false acc w)) p x
    /\ (In p (map snd posts) ->
        exists e, fst (write_loop probe posts false acc w) = throw e).
Proof.
  induction posts as [|[q p'] posts IH]; intros acc w p x Hx.
  - split; [exact Hx|intros []].
  - rewrite write_loop_step.
    destruct (exists_spec p' w) as [[-> [x' Hx']]|[-> Hno]]; unfold ok.
    + split; [exact Hx|]. intros _. now eexists.
    + assert (Hp : p <> p') by (intros ->; exact (Hno _ Hx)).
      destruct (dump_spec q p' w)
        as [[e ->]|[w' [-> [_ [Hother _]]]]]; unfold throw, ok.
      * split; [exact Hx|]. intros _. now eexists.
      * destruct (IH (acc ++ [path_str p']) w' p x (Hother _ _ Hp Hx))
          as [H1 H2].
        split; [exact H1|]. intros [E|Hin]; [now destruct Hp|now apply H2].
Qed.

(** X12.  Without permission to overwrite, [write_notes] never changes a file
    that is there: every entry of the store is in the store it leaves,
    whether it returns or raises. *)
Theorem write_notes_never_overwrites (posts : list (post * path))
        (w : world) (p : path) (x : filedata) :
  has_entry w p x ->
  has_entry (snd (write_notes probe posts false w)) p x.
Proof. intros H. now apply write_loop_keeps_entries. Qed.

Lemma write_loop_returns (posts : list (post * path)) :
  forall acc w paths w',
    write_loop probe posts false acc w = (ok paths, w') ->
    paths = acc ++ map (fun pp => path_str (snd pp)) posts
    /\ NoDup (map snd posts)
    /\ Forall (fun pp => forall x, ~ has_entry w (snd pp) x) posts
    /\ Forall (fun pp => has_entry w' (snd pp) (Document (fst pp))) posts.
Proof.
  induction posts as [|[q p] posts IH]; intros acc w paths w' H.
  - cbn in H. injection H as <- <-. rewrite app_nil_r.
    repeat split; constructor.
  - rewrite write_loop_step in H.
    destruct (exists_spec p w) as [[E _]|[E Hno]]; rewrite E in H;
      unfold ok in H; [discriminate|].
    destruct (dump_spec q p w)
      as [[e E']|[w1 [E' [Hdoc [Hother _]]]]]; rewrite E' in H;
      unfold throw, ok in H; [discriminate|].
    pose proof (write_loop_keeps_entries posts (acc ++ [path_str p]) Hdoc)
      as [Hkeep Herr].
    rewrite H in Hkeep, Herr. cbn [fst snd] in Hkeep, Herr.
    destruct (IH _ _ _ _ H) as [-> [Hnd [Hfresh Hdocs]]].
    repeat split.
    + cbn [map snd]. now rewrite <- app_assoc.
    + cbn [map snd]. constructor; [|exact Hnd].
      intros Hin. destruct (Herr Hin) as [e He]. discriminate.
    + constructor; [exact Hno|].
      rewrite Forall_forall in Hfresh |- *. intros [q' p'] Hin x Hx.
      cbn [snd] in *.
      destruct (path_eq_dec p' p) as [->|Np]; [exact (Hno _ Hx)|].
      exact (Hfresh _ Hin x (Hother _ _ Np Hx)).
    + constructor; [exact Hkeep|exact Hdocs].
Qed.

(** X13.  When [write_notes] returns without permission to overwrite, it
    returns the paths of the posts in their order, no two posts share a
    path, no path was taken before the call, and every post is in the store
    under its path. *)
Theorem write_notes_returns (posts : list (post * path)) (w w' : world)
        (paths : list text) :
  write_notes probe posts false w = (ok paths, w') ->
  paths = map (fun pp => path_str (snd pp)) posts
  /\ NoDup (map snd posts)
  /\ Forall (fun pp => forall x, ~ has_entry w (snd pp) x) posts
  /\ Forall (fun pp => has_entry w' (snd pp) (Document (fst pp))) posts.
Proof. intros H. exact (write_loop_returns posts [] w H). Qed.

(** X14.  Without permission to overwrite, a post whose path is taken, by a
    file that was there or by an earlier post of the batch, stops the loop
    with [RuntimeError]: the posts before it are written, and neither it nor
    any post after it is. *)
Theorem write_notes_stops_at_taken_path (before after : list (post * path))
        (q : post) (p : path) (w w1 : world) (paths : list text) :
  write_notes probe before false w = (ok paths, w1) ->
  (exists x, has_entry w p x) \/ In p (map snd before) ->
  write_notes probe (before ++ (q, p) :: after) false w
  = (throw (already_exists_error p), w1).
Proof.
  unfold write_notes. intros H Hp. rewrite write_loop_app, H. unfold ok.
  rewrite write_loop_step.
  assert (Hx : exists x, has_entry w1 p x).
  { destruct Hp as [[x Hx]|Hin].
    - exists x.
      pose proof (write_loop_keeps_entries before [] Hx) as [Hk _].
      now rewrite H in Hk.
    - destruct (write_loop_returns before [] w H) as [_ [_ [_ Hdocs]]].
      apply in_map_iff in Hin. destruct Hin as [[q' p'] [E Hin]].
      cbn [snd] in E. subst p'.
      rewrite Forall_forall in Hdocs. eexists. exact (Hdocs _ Hin). }
  destruct (exists_spec p w1) as [[-> _]|[_ Hno]]; [reflexivity|].
  destruct Hx as [x Hx]. now destruct (Hno x).
Qed.

Lemma dump_succeeds (q : post) (p : path) (w : world)
      (es : list (text * filedata)) :
  lookup (path_dir p) w = Some (Dir es) ->
  probe (path_name p) = None ->
  exists w' es',
    FS.dump probe q p w = (ok tt, w')
    /\ lookup (path_dir p) w' = Some (Dir es')
    /\ has_entry w' p (Document q)
    /\ (forall p' x, p' <> p -> has_entry w p' x -> has_entry w' p' x)
    /\ (forall k, k <> path_dir p -> lookup k w' = lookup k w).
Proof.
  intros Hd Hp.
  destruct (dump_spec q p w)
    as [[e E]|[w' [E [Hdoc [Hother [Hframe [es0 [es' [_ Hd']]]]]]]]].
  - exfalso. unfold FS.dump, FS.null_byte in E. rewrite Hp, Hd in E.
    destruct (lookup (path_name p) es); discriminate.
  - exists w', es'. now repeat split.
Qed.

Lemma write_loop_overwriting (d : text) (posts : list (post * path)) :
  forall acc w es,
    lookup d w = Some (Dir es) ->
    Forall (fun pp => path_dir (snd pp) = d
                      /\ probe (path_name (snd pp)) = None) posts ->
    exists w' es',
      write_loop probe posts true acc w
      = (ok (acc ++ map (fun pp => path_str (snd pp)) posts), w')
      /\ lookup d w' = Some (Dir es')
      /\ (forall k, k <> d -> lookup k w' = lookup k w)
      /\ (forall p x, ~ In p (map snd posts) -> has_entry w p x ->
                      has_entry w' p x)
      /\ (forall a q p b, posts = a ++ (q, p) :: b -> ~ In p (map snd b) ->
                          has_entry w' p (Document q)).
Proof.
  induction posts as [|[q p] posts IH]; intros acc w es Hd Hall.
  - exists w, es. cbn. rewrite app_nil_r. repeat split; auto.
    intros [|? ?] ? ? ? E; discriminate.
  - inversion Hall as [|? ? [Hdir Hprobe] Hrest]; subst. cbn [snd] in *.
    destruct (@dump_succeeds q p w es Hd Hprobe)
      as [w1 [es1 [E [Hd1 [Hdoc [Hother Hframe]]]]]].
    destruct (IH (acc ++ [path_str p]) w1 es1 Hd1 Hrest)
      as [w' [es' [E' [Hd' [Hframe' [Hother' Hlast]]]]]].
    exists w', es'. split; [|split; [exact Hd'|split; [|split]]].
    + rewrite write_loop_step.
      destruct (exists_spec p w) as [[-> _]|[-> _]]; unfold ok;
        rewrite E; unfold ok; rewrite E'; cbn [map snd];
        now rewrite <- app_assoc.
    + intros k Hk. rewrite Hframe' by exact Hk. now apply Hframe.
    + intros p' x Hnot Hx. apply Hother'.
      * intros Hin. apply Hnot. now right.
      * apply Hother; [|exact Hx]. intros ->. apply Hnot. now left.
    + intros a q' p' b Eq Hnot. destruct a as [|x a]; cbn [app] in Eq.
      * inversion Eq; subst. now apply Hother'.
      * inversion Eq; subst. now apply (Hlast a q' p' b).
Qed.

(** X15.  With permission to overwrite, a batch for one directory that is
    there, with names the file system takes, is written in full: the paths
    come back in order, a path that occurs more than once holds the post
    that came last, files the batch does not name stay, and so does every
    other directory. *)
Theorem write_notes_overwriting (d : text) (posts : list (post * path))
        (w : world) (es : list (text * filedata)) :
  lookup d w = Some (Dir es) ->
  Forall (fun pp => path_dir (snd pp) = d
                    /\ probe (path_name (snd pp)) = None) posts ->
  exists w',
    write_notes probe posts true w
    = (ok (map (fun pp => path_str (snd pp)) posts), w')
    /\ (forall a q p b, posts = a ++ (q, p) :: b -> ~ In p (map snd b) ->
                        has_entry w' p (Document q))
    /\ (forall p x, ~ In p (map snd posts) -> has_entry w p x ->
                    has_entry w' p x)
    /\ (forall k, k <> d -> lookup k w' = lookup k w).
Proof.
  intros Hd Hall.
  destruct (@write_loop_overwriting d posts [] w es Hd Hall)
    as [w' [es' [E [_ [Hframe [Hother Hlast]]]]]].
  exists w'. now repeat split.
Qed.

End Writer.

Lemma write_notes_never_overwrites_witness :
  has_entry Drafts.store_with_milk Drafts.milk_path Empty
  /\ has_entry
       (snd (write_notes Sample.probe
                         [(Drafts.eggs, Drafts.eggs_path);
                          (Drafts.milk, Drafts.milk_path)]
                         false Drafts.store_with_milk))
       Drafts.milk_path Empty.
Proof.
  assert (H : has_entry Drafts.store_with_milk Drafts.milk_path Empty).
  { eexists. split; reflexivity. }
  split; [exact H|].
  exact (@write_notes_never_overwrites Sample.probe _ _ _ _ H).
Defined.

Lemma write_notes_returns_witness :
  exists w',
    write_notes Sample.probe
                [(Drafts.eggs, Drafts.eggs_path);
                 (Drafts.milk, Drafts.milk_path)]
                false Sample.store
    = (ok [path_str Drafts.eggs_path; path_str Drafts.milk_path], w')
    /\ has_entry w' Drafts.milk_path (Document Drafts.milk).
Proof.
  eexists. split; [lazy; reflexivity|].
  assert (E : write_notes Sample.probe
                [(Drafts.eggs, Drafts.eggs_path);
                 (Drafts.milk, Drafts.milk_path)]
                false Sample.store
              = (ok [path_str Drafts.eggs_path; path_str Drafts.milk_path],
                 snd (write_notes Sample.probe
                        [(Drafts.eggs, Drafts.eggs_path);
                         (Drafts.milk, Drafts.milk_path)]
                        false Sample.store)))
    by (lazy; reflexivity).
  destruct (@write_notes_returns Sample.probe _ _ _ _ E) as [_ [_ [_ H]]].
  inversion H as [|? ? _ H']. inversion H' as [|? ? Hm _]. exact Hm.
Defined.

Lemma write_notes_stops_at_taken_path_witness :
  exists w1,
    write_notes Sample.probe
                ([(Drafts.milk, Drafts.milk_path)]
                   ++ (Drafts.eggs, Drafts.milk_path) :: [])
                false Sample.store
    = (throw (already_exists_error Drafts.milk_path), w1)
    /\ has_entry w1 Drafts.milk_path (Document Drafts.milk).
Proof.
  eexists. split.
  - apply (@write_notes_stops_at_taken_path Sample.probe
             [(Drafts.milk, Drafts.milk_path)] [] Drafts.eggs
             Drafts.milk_path Sample.store _
             [path_str Drafts.milk_path]).
    + lazy; reflexivity.
    + right. left. reflexivity.
  - eexists. split; lazy; reflexivity.
Defined.

Lemma write_notes_overwriting_witness :
  exists w',
    write_notes Sample.probe
                [(Drafts.milk, Drafts.milk_path);
                 (Drafts.eggs, Drafts.milk_path)]
                true Drafts.store_with_milk
    = (ok [path_str Drafts.milk_path; path_str Drafts.milk_path], w')
    /\ has_entry w' Drafts.milk_path (Document Drafts.eggs).
Proof.
  destruct (@write_notes_overwriting Sample.probe Sample.out_dir
              [(Drafts.milk, Drafts.milk_path);
               (Drafts.eggs, Drafts.milk_path)]
              Drafts.store_with_milk [(str "buy_milk.md", Empty)])
    as [w' [E [Hlast _]]].
  - reflexivity.
  - repeat constructor.
  - exists w'. split; [exact E|].
    apply (Hlast [(Drafts.milk, Drafts.milk_path)] Drafts.eggs
                 Drafts.milk_path []); [reflexivity|intros []].
Defined.

(** ** Posts *)

Section Forming.

Variable title_case : text -> text.
Variable now : text.

Lemma form_post_cases (out : text) (n : note) :
  match form_post title_case now out n with
  | inr pp =>
      enriched n
      /\ filename n = Some (path_name (snd pp))
      /\ path_dir (snd pp) = out
      /\ post_content (fst pp)
         = str "# " ++ title_case (title n) ++ [newline; newline]
               ++ content n ++ [newline]
      /\ final_tags n = ok (post_tags (fst pp))
      /\ post_cdt (fst pp) = datetime n
      /\ post_mdt (fst pp) = now
  | inl e => ~ enriched n /\ e = KeyError (missing_key n)
  end.
Proof.
  destruct n as [d t c g [f|] [l|]]; cbn.
  - repeat split; try easy. now rewrite <- !app_assoc.
  - split; [|reflexivity]. now intros [_ H].
  - split; [|reflexivity]. now intros [H _].
  - split; [|reflexivity]. now intros [H _].
Qed.

(** X16.  [form_posts] returns exactly when every note has a file name and
    cleaned tags.  Then the posts stand in the order of the notes, each under
    the output directory and the file name of its note, with the title line,
    a blank line, the content and a line end as content, the final tags, the
    timestamp of the note as creation date and the time of the run as
    modification date.  Otherwise it raises [KeyError] for the first key
    missing in the first note that lacks one. *)
Theorem form_posts_cases (notes : list note) (out : text) :
  match form_posts title_case now notes out with
  | inr posts =>
      Forall2 (fun n pp =>
                 enriched n
                 /\ filename n = Some (path_name (snd pp))
                 /\ path_dir (snd pp) = out
                 /\ post_content (fst pp)
                    = str "# " ++ title_case (title n) ++ [newline; newline]
                          ++ content n ++ [newline]
                 /\ final_tags n = ok (post_tags (fst pp))
                 /\ post_cdt (fst pp) = datetime n
                 /\ post_mdt (fst pp) = now)
              notes posts
  | inl e =>
      exists a n b,
        notes = a ++ n :: b /\ Forall enriched a /\ ~ enriched n
        /\ e = KeyError (missing_key n)
  end.
Proof.
  unfold form_posts. induction notes as [|n notes IH]; cbn [for_each].
  - constructor.
  - pose proof (form_post_cases out n) as Hn.
    destruct (form_post title_case now out n) as [e|pp]; cbn [rbind].
    + destruct Hn as [Hn ->]. now exists [], n, notes.
    + destruct (for_each (form_post title_case now out) notes) as [e|posts];
        cbn [rbind].
      * destruct IH as [a [m [b [-> [Ha [Hm ->]]]]]].
        exists (n :: a), m, b. repeat split; try easy.
        constructor; [apply Hn|exact Ha].
      * now constructor.
Qed.

Lemma form_posts_dirs (notes : list note) (out : text)
      (posts : list (post * path)) :
  form_posts title_case now notes out = ok posts ->
  Forall (fun pp => path_dir (snd pp) = out) posts.
Proof.
  unfold form_posts. intros H. apply for_each_Forall2 in H.
  induction H as [|n pp notes posts Hn _ IH]; constructor; [|exact IH].
  pose proof (form_post_cases out n) as Hc. rewrite Hn in Hc. apply Hc.
Qed.

End Forming.

(** ** What a run leaves alone *)










Section Frame.

Variable probe : text -> option refusal.






Variable parse_isoformat : text -> option text.
Variable title_case : text -> text.
Variable now : text.
Variable root_parent : text.




End Frame.

Lemma split_app_sep (sep : ascii) (a b : text) :
  Py.split sep (a ++ sep :: b) = Py.split sep a ++ Py.split sep b.
Proof.
  induction a as [|c a IH]; cbn [app Py.split].
  - now destruct (ascii_dec sep sep).
  - destruct (ascii_dec c sep); [now rewrite IH|].
    rewrite IH. pose proof (split_nonempty sep a) as Hne.
    now destruct (Py.split sep a).
Qed.

Lemma parts_app (a b : text) : parts (a ++ "/"%char :: b) = parts a ++ parts b.
Proof. unfold parts. now rewrite split_app_sep, filter_app. Qed.

Lemma plain_not_absolute (name : text) :
  plain name -> Py.starts_with (str "/") name = false.
Proof.
  intros H. destruct name as [|c name]; [reflexivity|].
  unfold str. cbn [list_ascii_of_string Py.starts_with].
  destruct (ascii_dec "/" c) as [<-|]; [|reflexivity].
  destruct H. now left.
Qed.

(** The string of a plain name joined to a directory whose string does not
    end in a slash. *)
Lemma path_str_plain (d name : text) (c : ascii) (d' : text) :
  plain name -> rev d = c :: d' -> c <> "/"%char ->
  path_str (Path d name) = normal (d ++ "/"%char :: name).
Proof.
  intros Hn Hd Hc. unfold path_str, joinpath, posix_join.
  cbn [path_dir path_name]. rewrite (plain_not_absolute Hn), Hd.
  destruct c as [[] [] [] [] [] [] [] []]; try reflexivity.
  now destruct Hc.
Qed.

Lemma buy_milk_plain : plain Sample.buy_milk.
Proof.
  intros H. vm_compute in H.
  repeat (destruct H as [H|H]; [discriminate H|]). exact H.
Qed.

Lemma log_outside_out_dir : outside Sample.out_dir Sample.log_path.
Proof.
  intros name Hn E.
  rewrite (@path_str_plain Sample.out_dir name "l"%char
             (rev (str "/home/user/zette")) Hn eq_refl) in E
    by discriminate.
  unfold normal in E. rewrite parts_app in E.
  destruct (parts name); vm_compute in E; discriminate E.
Qed.



(** ** The edges of the blocks *)

Lemma pattern_match_shape (sn rs : text) (m : mstate) :
  run pattern Some (MState sn rs []) = Some m ->
  exists sn' ts rest,
    sn = "]"%char :: sn' /\ stamp_shaped ts
    /\ rs = newline :: newline :: ts ++ rest
    /\ seen m = newline :: newline :: sn.
Proof.
  intros H. destruct (pattern_match_inv _ _ H) as [rs' [-> Hm]].
  revert H. unfold pattern, seq, chr. cbn [fold_right]. rewrite !run_cat.
  cbn [run seen ahead caps cls_ok].
  destruct sn as [|x sn]; [discriminate|].
  destruct (ascii_dec x "]") as [->|]; [|discriminate].
  destruct (ascii_dec newline newline); [|contradiction].
  destruct (run stamp Some _) as [m'|] eqn:E; [|discriminate].
  intros _. apply run_stamp_inv in E. destruct E as [ts [rest [Hts [-> _]]]].
  now exists sn, ts, rest.
Qed.

Lemma digit_not_newline (c : ascii) : cls_ok CDigit c = true -> c <> newline.
Proof. intros H ->. discriminate. Qed.

Lemma stamp_one_line (ts : text) : stamp_shaped ts -> one_line ts.
Proof.
  intros [y [mo [d [h [mi [sc [[_ Hy] [[_ Hmo] [[_ Hd] [[_ Hh] [[_ Hmi]
           [[_ Hs] ->]]]]]]]]]]]].
  unfold one_line.
  repeat (apply Forall_app; split);
    try (eapply Forall_impl; [|eassumption]; apply digit_not_newline);
    repeat constructor; discriminate.
Qed.

Lemma split_from_hd_stamps (rs : text) :
  (forall sn cur pre,
      one_line pre -> (exists rest, rs = pre ++ rest) ->
      (exists mid, hd [] (split_from pattern sn rs cur 0)
                   = rev cur ++ pre ++ mid)
      /\ Forall starts_with_stamp (tl (split_from pattern sn rs cur 0)))
  /\ (forall sn ts rest,
         stamp_shaped ts -> rs = newline :: ts ++ rest ->
         Forall starts_with_stamp (split_from pattern sn rs [] 1)).
Proof.
  induction rs as [|c rs [IH0 IH1]].
  - split.
    + intros sn cur pre _ [rest E]. symmetry in E.
      apply app_eq_nil in E. destruct E as [-> _]. cbn.
      split; [exists []; now rewrite app_nil_r|constructor].
    + intros sn ts rest _ E. discriminate.
  - split.
    + intros sn cur pre Hpre [rest E]. cbn [split_from].
      destruct (run pattern Some (MState sn (c :: rs) [])) as [m|] eqn:Em.
      * destruct (pattern_match_shape _ _ Em)
          as [sn' [ts [rest' [_ [Hts [Hrs Hm]]]]]].
        injection Hrs as -> ->. rewrite Hm.
        replace (length (newline :: newline :: sn) - length sn - 1) with 1
          by (cbn [length]; lia).
        destruct pre as [|x pre].
        -- cbn [hd tl]. split; [exists []; cbn; now rewrite app_nil_r|].
           now apply (IH1 _ ts rest').
        -- cbn [app] in E. injection E as Ec _. subst x.
           inversion Hpre as [|? ? Hx _]. now destruct Hx.
      * destruct pre as [|x pre].
        -- destruct (IH0 (c :: sn) (c :: cur) [] (Forall_nil _))
             as [[mid Hmid] Htl]; [now exists rs|].
           split; [|exact Htl]. exists (c :: mid). rewrite Hmid.
           cbn [rev app]. now rewrite <- app_assoc.
        -- cbn [app] in E. injection E as Ec Ers. subst c rs.
           assert (Hpre' : one_line pre) by now inversion Hpre.
           destruct (IH0 (x :: sn) (x :: cur) pre Hpre')
             as [[mid Hmid] Htl]; [now exists rest|].
           split; [|exact Htl]. exists mid. rewrite Hmid.
           cbn [rev app]. now rewrite <- !app_assoc.
    + intros sn ts rest Hts E. injection E as -> ->. cbn [split_from].
      destruct (IH0 (newline :: sn) [] ts (stamp_one_line Hts))
        as [[mid Hmid] Htl]; [now exists rest|].
      pose proof (@split_from_nonempty pattern (ts ++ rest)
                    (newline :: sn) [] 0) as Hne.
      destruct (split_from pattern (newline :: sn) (ts ++ rest) [] 0)
        as [|b bs]; [contradiction|].
      cbn [hd tl rev app] in Hmid, Htl. constructor; [|exact Htl].
      now exists ts, mid.
Qed.

Lemma removelast_cons {A} (x : A) (l : list A) :
  l <> [] -> removelast (x :: l) = x :: removelast l.
Proof. destruct l; [contradiction|reflexivity]. Qed.

Lemma split_from_brackets (rs : text) :
  (forall sn cur,
      closes sn rs cur ->
      Forall ends_with_bracket (removelast (split_from pattern sn rs cur 0)))
  /\ (forall sn rs',
         rs = newline :: rs' ->
         Forall ends_with_bracket
                (removelast (split_from pattern sn rs [] 1))).
Proof.
  induction rs as [|c rs [IH0 IH1]].
  - split; [intros; constructor|discriminate].
  - split.
    + intros sn cur Hc. cbn [split_from].
      destruct (run pattern Some (MState sn (c :: rs) [])) as [m|] eqn:Em.
      * destruct (Hc m Em) as [cur' ->].
        destruct (pattern_match_shape _ _ Em)
          as [sn' [ts [rest' [_ [Hts [Hrs Hm]]]]]].
        injection Hrs as -> ->. rewrite Hm.
        replace (length (newline :: newline :: sn) - length sn - 1) with 1
          by (cbn [length]; lia).
        rewrite removelast_cons by apply split_from_nonempty.
        constructor; [now exists (rev cur')|]. now apply (IH1 _ (ts ++ rest')).
      * apply IH0. intros m' Hm'.
        destruct (pattern_match_shape _ _ Hm') as [sn' [_ [_ [E _]]]].
        injection E as -> _. now exists cur.
    + intros sn rs' E. injection E as -> ->. cbn [split_from].
      apply IH0. intros m Hm.
      destruct (pattern_match_shape _ _ Hm) as [sn' [_ [_ [E _]]]].
      discriminate.
Qed.

(** X18.  The separator is two line ends between a closing bracket and a
    timestamp, so every block after the first begins with a timestamp and
    every block before the last ends with a closing bracket. *)
Theorem split_block_edges (s : text) :
  Forall starts_with_stamp (tl (Regex.split pattern s))
  /\ Forall ends_with_bracket (removelast (Regex.split pattern s)).
Proof.
  unfold Regex.split. split.
  - destruct (proj1 (split_from_hd_stamps s) [] [] [] (Forall_nil _))
      as [_ H]; [now exists s|exact H].
  - apply (proj1 (split_from_brackets s)).
    intros m Hm.
    destruct (pattern_match_shape _ _ Hm) as [sn' [_ [_ [E _]]]].
    discriminate.
Qed.

(** ** Whole runs, stage by stage *)

Lemma Forall2_comp {A B C} (R : A -> B -> Prop) (S : B -> C -> Prop)
      (l1 : list A) (l3 : list C) :
  Forall2 (fun a c => exists b, R a b /\ S b c) l1 l3
  <-> exists l2, Forall2 R l1 l2 /\ Forall2 S l2 l3.
Proof.
  split.
  - induction 1 as [|a c l1 l3 [b [Hab Hbc]] _ [l2 [H1 H2]]].
    + exists []. split; constructor.
    + exists (b :: l2). split; now constructor.
  - intros [l2 [H1 H2]]. revert l3 H2.
    induction H1 as [|a b l1 l2 Hab _ IH]; intros l3 H2;
      inversion H2; subst; constructor; eauto.
Qed.

Lemma block_check_complete (b : text) :
  block_checked b ->
  (c0 <- first_char b ;;
   if negb (if ascii_dec c0 "2" then true else false)
   then throw (ValueError (msg "note doesnt start with a 2"))
   else
     c1 <- last_char b ;;
     if negb (if ascii_dec c1 "]" then true else false)
     then throw (ValueError (msg "note doesnt end with a ']'"))
     else ok tt)%res = ok tt.
Proof.
  intros [[rest ->] [front E]]. cbn [first_char rbind ok].
  destruct (ascii_dec "2" "2"); [|contradiction].
  cbn [negb last_char rbind ok].
  assert (L : last rest "2"%char = "]"%char).
  { transitivity (last ("2"%char :: rest) "2"%char);
      [now destruct rest|].
    rewrite E. apply last_last. }
  rewrite L. now destruct (ascii_dec "]" "]").
Qed.

Lemma get_notes_from_path_ok (p : text) (w : world) (notes : list text) :
  fst (get_notes_from_path p w) = ok notes
  <-> exists s, lookup p w = Some (File s)
                /\ notes = Regex.split pattern s
                /\ Forall block_checked notes.
Proof.
  unfold get_notes_from_path, bind, FS.read_text, lift, ret. split.
  - destruct (lookup p w) as [[s|es]|]; cbn [fst]; try discriminate.
    destruct (for_each _ (Regex.split pattern s)) as [e|us] eqn:E;
      cbn [fst]; [discriminate|].
    intros H. unfold ok in H. injection H as <-.
    exists s. repeat split.
    apply for_each_unit_ok in E.
    eapply Forall_impl; [|exact E]. intros b. apply block_check_ok.
  - intros [s [-> [-> Hall]]].
    match goal with
    | |- context [for_each ?f ?l] =>
        destruct (@for_each_total _ _ f l) as [us ->]; [|reflexivity]
    end.
    eapply Forall_impl; [|exact Hall].
    intros b Hb. exists tt. now apply block_check_complete.
Qed.

Lemma decompose_notes_ok (notes : list text) (ds : list (option note)) :
  decompose_notes notes = ok ds
  <-> notes <> []
      /\ exists ns, ds = map Some ns
                    /\ Forall2 (fun raw n => extract_note_fields raw = Some n)
                               notes ns.
Proof.
  assert (Hmap : forall ns,
             Forall2 (fun raw n => extract_note_fields raw = Some n) notes ns
             -> map extract_note_fields notes = map Some ns).
  { intros ns H. induction H as [|raw n notes ns Hn _ IH]; [reflexivity|].
    cbn [map]. now rewrite Hn, IH. }
  assert (Hsome : Forall (fun d => truthy d = true)
                         (map extract_note_fields notes) ->
                  exists ns,
                    map extract_note_fields notes = map Some ns
                    /\ Forall2 (fun raw n => extract_note_fields raw = Some n)
                               notes ns).
  { clear Hmap. induction notes as [|raw notes IH]; intros Ha.
    - exists []. split; [reflexivity|constructor].
    - cbn [map] in Ha. inversion Ha as [|? ? Hraw Hrest]; subst.
      destruct (IH Hrest) as [ns [E F]].
      destruct (extract_note_fields raw) as [n|] eqn:En; [|discriminate].
      exists (n :: ns). cbn [map]. rewrite E, En.
      split; [reflexivity|now constructor]. }
  unfold decompose_notes. split.
  - destruct (none_or_all_truthy (map extract_note_fields notes)) as [Hn|Ha].
    + rewrite (@check_notes_without_matches_raises notes
                 (map extract_note_fields notes));
        [discriminate|apply length_map|exact Hn].
    + rewrite (check_notes_without_matches_passes _ Ha). cbn [rbind ok].
      rewrite (existsb_truthy Ha).
      destruct (Hsome Ha) as [ns [E F]]. rewrite E.
      destruct F as [|raw n notes ns Hn F]; cbn [map negb]; [discriminate|].
      intros H. unfold ok in H. injection H as <-.
      split; [discriminate|].
      exists (n :: ns). split; [reflexivity|now constructor].
  - intros [Hne [ns [-> H]]]. rewrite (Hmap ns H).
    assert (Ha : Forall (fun d => truthy d = true) (map Some ns)).
    { apply Forall_map. now apply Forall_forall. }
    rewrite (check_notes_without_matches_passes _ Ha). cbn [rbind ok].
    rewrite (existsb_truthy Ha).
    destruct H; [contradiction|reflexivity].
Qed.

(** A slash in a file name comes from the title, a title is a piece of its
    block, and a block is a piece of the log. *)
Lemma lower_char_slash (c : ascii) :
  Py.lower_char c = "/"%char -> c = "/"%char.
Proof.
  each_char c; intros H; vm_compute in H; try discriminate H; reflexivity.
Qed.

Lemma slash_in_name (t name : text) :
  filename_of_title t = ok name -> In "/"%char name -> In "/"%char t.
Proof.
  unfold filename_of_title.
  destruct (Py.strip (Py.lower t)) as [|c s] eqn:E; [discriminate|].
  cbn [last_char rbind ok]. rewrite delete_all.
  intros H. unfold ok in H. injection H as <-. intros Hin.
  apply filter_In in Hin. destruct Hin as [Hin _].
  apply in_app_or in Hin. destruct Hin as [Hin|Hin].
  - unfold Py.replace_char in Hin. apply in_map_iff in Hin.
    destruct Hin as [y [Hy Hin]].
    assert (Ey : y = "/"%char)
      by (destruct (ascii_dec y " "); [discriminate Hy|exact Hy]).
    subst y.
    assert (Hcs : In "/"%char (c :: s)).
    { match type of Hin with
      | In _ (if ?b then _ else _) => destruct b
      end; [|exact Hin].
      destruct s as [|x s]; [destruct Hin|].
      destruct Hin as [Hin|Hin]; [now left|right].
      unfold Py.drop_last in Hin. now apply in_removelast. }
    rewrite <- E in Hcs. apply in_strip in Hcs. unfold Py.lower in Hcs.
    apply in_map_iff in Hcs. destruct Hcs as [z [Hz Hzin]].
    apply lower_char_slash in Hz. now subst z.
  - vm_compute in Hin.
    repeat (destruct Hin as [Hin|Hin]; [discriminate Hin|]). destruct Hin.
Qed.

Lemma in_join (sep : text) (l : list text) (a : text) (c : ascii) :
  In a l -> In c a -> In c (join sep l).
Proof.
  induction l as [|b l IH]; [easy|]. intros Ha Hc.
  destruct l as [|b' l].
  - destruct Ha as [->|[]]. exact Hc.
  - change (join sep (b :: b' :: l)) with (b ++ sep ++ join sep (b' :: l)).
    apply in_or_app. destruct Ha as [->|Ha]; [now left|right].
    apply in_or_app. right. now apply IH.
Qed.

Lemma block_in_text (s raw : text) (c : ascii) :
  In raw (Regex.split pattern s) -> In c raw -> In c s.
Proof.
  intros H1 H2.
  pose proof (proj1 (split_from_join s) [] []) as E. cbn [rev app] in E.
  rewrite <- E. exact (@in_join blank_line _ raw c H1 H2).
Qed.

Lemma Forall2_in_r {A B} (R : A -> B -> Prop) (l : list A) (l' : list B) :
  Forall2 R l l' -> forall b, In b l' -> exists a, In a l /\ R a b.
Proof.
  induction 1 as [|a b l l' Hab _ IH]; intros x Hx; [destruct Hx|].
  destruct Hx as [<-|Hx].
  - exists a. split; [now left|exact Hab].
  - destruct (IH x Hx) as [y [Hy Hr]]. exists y. split; [now right|exact Hr].
Qed.

Section Stages.

Variable parse_isoformat : text -> option text.
Variable title_case : text -> text.
Variable now : text.
Variable root_parent : text.
Variable probe : text -> option refusal.

Lemma parsed_or_not (ns : list note) :
  Forall (fun n => parse_isoformat (datetime n) <> None) ns
  \/ exists n, In n ns /\ parse_isoformat (datetime n) = None.
Proof.
  induction ns as [|n ns [IH|[m [Hin Hm]]]].
  - left. constructor.
  - destruct (parse_isoformat (datetime n)) eqn:E.
    + left. constructor; [congruence|exact IH].
    + right. exists n. split; [now left|exact E].
  - right. exists m. split; [now right|exact Hm].
Qed.

Lemma validate_datetimes_ok (ns ns1 : list note) :
  validate_datetimes parse_isoformat (map Some ns) = ok ns1
  <-> Forall2 (fun n n1 => exists dt, parse_isoformat (datetime n) = Some dt
                                      /\ n1 = set_datetime dt n) ns ns1.
Proof.
  split.
  - intros H. destruct (parsed_or_not ns) as [Hall|Hex].
    + destruct (validate_datetimes_passes parse_isoformat Hall)
        as [out [E F]].
      rewrite E in H. unfold ok in H. injection H as <-.
      eapply Forall2_impl; [|exact F].
      intros n n1 [H1 H2]. now exists (datetime n1).
    + rewrite (validate_datetimes_raises parse_isoformat ns Hex) in H.
      discriminate.
  - intros H.
    assert (Hall : Forall (fun n => parse_isoformat (datetime n) <> None) ns).
    { induction H as [|n n1 ns ns1 [dt [Hdt _]] _ IH]; constructor;
        [congruence|exact IH]. }
    destruct (validate_datetimes_passes parse_isoformat Hall) as [out [E F]].
    rewrite E. f_equal.
    clear E Hall. revert out F.
    induction H as [|n n1 ns ns1 [dt [Hdt ->]] _ IH]; intros out F;
      inversion F as [|? n' ? out' [Hn' ->] Hrest]; subst; [reflexivity|].
    rewrite (IH _ Hrest). f_equal. congruence.
Qed.

Lemma add_filenames_ok (ns1 ns2 : list note) (w w2 : world) :
  add_filenames root_parent probe ns1 w = (ok ns2, w2)
  <-> lookup (temp_dir root_parent) w = None /\ w2 = w
      /\ Forall2 (fun n n' => exists name,
                      filename_of_title (title n) = ok name
                      /\ probe name = None
                      /\ n' = set_filename name n) ns1 ns2.
Proof.
  assert (Hstep : forall n n',
             probe_outcome probe root_parent n = ok n'
             <-> exists name, filename_of_title (title n) = ok name
                              /\ probe name = None
                              /\ n' = set_filename name n).
  { intros n n'. unfold probe_outcome. split.
    - destruct (filename_of_title (title n)) as [e|name]; [discriminate|].
      cbn [rbind]. destruct (probe name) eqn:Ep; [discriminate|].
      intros F. unfold ok in F. injection F as <-. now exists name.
    - intros [name [-> [Hp ->]]]. cbn [rbind ok]. now rewrite Hp. }
  split.
  - intros H. destruct (lookup (temp_dir root_parent) w) as [x|] eqn:Ex.
    + exfalso. revert H.
      unfold add_filenames, try_finally, try_except, bind, FS.mkdir,
        FS.rmdir, raise.
      rewrite Ex. cbn [is_Exception]. rewrite Ex.
      now destruct x as [s|[|en es]].
    + rewrite add_filenames_spec in H by assumption.
      injection H as H <-. repeat split.
      apply for_each_Forall2 in H.
      eapply Forall2_impl; [|exact H]. intros n n'. apply Hstep.
  - intros [Hfree [-> H]]. rewrite add_filenames_spec by assumption.
    f_equal. apply for_each_Forall2.
    eapply Forall2_impl; [|exact H]. intros n n'. apply Hstep.
Qed.

Lemma parse_tags_note_transfer (n m : note) (l : list text) :
  tags n = tags m -> title n = title m ->
  parse_tags_note n = ok (set_cleaned_tags l n) ->
  parse_tags_note m = ok (set_cleaned_tags l m).
Proof.
  unfold parse_tags_note. intros -> ->.
  destruct (last_char _) as [e|c]; [discriminate|]. cbn [rbind].
  destruct (for_each _ _) as [e|us]; [discriminate|]. cbn [rbind].
  intros H. unfold ok in H. injection H as <-.
  reflexivity.
Qed.

Lemma rendered_chain (out raw : text) (pp : post * path) :
  rendered parse_isoformat title_case now out raw pp
  /\ probe (path_name (snd pp)) = None
  <-> exists n,
      extract_note_fields raw = Some n
      /\ exists n1,
        (exists dt, parse_isoformat (datetime n) = Some dt
                    /\ n1 = set_datetime dt n)
        /\ exists n2,
          (exists name, filename_of_title (title n1) = ok name
                        /\ probe name = None
                        /\ n2 = set_filename name n1)
          /\ exists n3,
            parse_tags_note n2 = ok n3
            /\ form_post title_case now out n3 = ok pp.
Proof.
  split.
  - intros [[n [dt [name [l [Hn [Hdt [Hname [Htags ->]]]]]]]] Hp].
    cbn [snd path_name] in Hp.
    exists n. split; [exact Hn|].
    exists (set_datetime dt n). split; [now exists dt|].
    exists (set_filename name (set_datetime dt n)).
    split; [exists name; now repeat split|].
    exists (set_cleaned_tags l (set_filename name (set_datetime dt n))).
    split.
    + now apply (@parse_tags_note_transfer n).
    + destruct (@form_post_enriched title_case now out
                  (set_cleaned_tags l (set_filename name (set_datetime dt n))))
        as [l' [f [Hl [Hf ->]]]]; [split; discriminate|].
      cbn in Hl, Hf. injection Hl as <-. injection Hf as <-. reflexivity.
  - intros [n [Hn [n1 [[dt [Hdt ->]] [n2 [[name [Hname [Hp ->]]]
             [n3 [Htags Hpost]]]]]]]].
    pose proof (parse_tags_note_outcome
                  (set_filename name (set_datetime dt n))) as Ho.
    rewrite Htags in Ho. destruct Ho as [l [-> _]].
    destruct (@form_post_enriched title_case now out
                (set_cleaned_tags l (set_filename name (set_datetime dt n))))
      as [l' [f [Hl [Hf E]]]]; [split; discriminate|].
    cbn in Hl, Hf. injection Hl as <-. injection Hf as <-.
    rewrite E in Hpost. unfold ok in Hpost. injection Hpost as <-.
    split; [|exact Hp].
    exists n, dt, name, l. repeat split; try assumption.
    now apply (@parse_tags_note_transfer
                 (set_filename name (set_datetime dt n)) n).
Qed.

(** The pure stages between the splitter and the writer, on a batch of
    blocks, with the file names taken by the file system. *)
Lemma rendered_stages (out : text) (notes : list text)
      (posts : list (post * path)) :
  Forall2 (fun raw pp => rendered parse_isoformat title_case now out raw pp
                         /\ probe (path_name (snd pp)) = None) notes posts
  <-> exists ns ns1 ns2 ns3,
      Forall2 (fun raw n => extract_note_fields raw = Some n) notes ns
      /\ Forall2 (fun n n1 => exists dt, parse_isoformat (datetime n) = Some dt
                                         /\ n1 = set_datetime dt n) ns ns1
      /\ Forall2 (fun n n' => exists name,
                      filename_of_title (title n) = ok name
                      /\ probe name = None
                      /\ n' = set_filename name n) ns1 ns2
      /\ parse_tags ns2 = ok ns3
      /\ form_posts title_case now ns3 out = ok posts.
Proof.
  unfold parse_tags, form_posts. split.
  - intros H.
    eapply Forall2_impl in H;
      [|intros raw pp Hr; exact (proj1 (rendered_chain _ _ _) Hr)].
    apply Forall2_comp in H. destruct H as [ns [H1 H]].
    apply Forall2_comp in H. destruct H as [ns1 [H2 H]].
    apply Forall2_comp in H. destruct H as [ns2 [H3 H]].
    apply Forall2_comp in H. destruct H as [ns3 [H4 H5]].
    apply for_each_Forall2 in H4, H5.
    now exists ns, ns1, ns2, ns3.
  - intros [ns [ns1 [ns2 [ns3 [H1 [H2 [H3 [H4 H5]]]]]]]].
    apply for_each_Forall2 in H4, H5.
    eapply Forall2_impl;
      [intros raw pp Hr; exact (proj2 (rendered_chain _ _ _) Hr)|].
    apply Forall2_comp. exists ns. split; [exact H1|].
    apply Forall2_comp. exists ns1. split; [exact H2|].
    apply Forall2_comp. exists ns2. split; [exact H3|].
    apply Forall2_comp. exists ns3. now split.
Qed.

Lemma dump_reflects (q : post) (p p' : path) (w w' : world) (x : filedata) :
  FS.dump probe q p w = (ok tt, w') -> p' <> p ->
  has_entry w' p' x -> has_entry w p' x.
Proof.
  intros H Hp [es' [H1 H2]].
  destruct (@dump_outcome probe q p w) as [[x0 Hx]|[es [Ed Hd]]];
    rewrite H in *; [discriminate|].
  unfold ok in Hd. injection Hd as ->.
  destruct (text_dec (path_dir p') (path_dir p)) as [Ed'|Nd].
  - rewrite Ed', lookup_put_same in H1. injection H1 as <-.
    exists es. split; [now rewrite Ed'|].
    rewrite lookup_put_other in H2; [exact H2|].
    intros En. apply Hp. destruct p, p'. simpl in *. congruence.
  - rewrite lookup_put_other in H1 by exact Nd. now exists es'.
Qed.

Lemma write_loop_success (posts : list (post * path)) (overwrite_ok : bool) :
  forall acc w paths w',
    write_loop probe posts overwrite_ok acc w = (ok paths, w') ->
    paths = acc ++ map (fun pp => path_str (snd pp)) posts
    /\ (forall p x, ~ In p (map snd posts) -> has_entry w p x ->
                    has_entry w' p x)
    /\ last_written posts w'.
Proof.
  induction posts as [|[q p] posts IH]; intros acc w paths w' H.
  - cbn in H. injection H as <- <-. rewrite app_nil_r.
    repeat split; auto. intros [|? ?] ? ? ? E; discriminate.
  - rewrite write_loop_step in H.
    assert (Hd : exists w1,
               FS.dump probe q p w = (ok tt, w1)
               /\ write_loop probe posts overwrite_ok
                             (acc ++ [path_str p]) w1 = (ok paths, w')).
    { destruct (exists_spec p w) as [[E _]|[E _]]; rewrite E in H;
        unfold ok in H; [destruct overwrite_ok; [|discriminate]|];
        destruct (FS.dump probe q p w) as [[e|[]] w1]; try discriminate;
        now exists w1. }
    destruct Hd as [w1 [Ed Hl]].
    destruct (dump_spec probe q p w)
      as [[e E']|[w1' [E' [Hdoc [Hother _]]]]]; rewrite E' in Ed;
      [discriminate|].
    injection Ed as ->.
    destruct (IH _ _ _ _ Hl) as [-> [Hkeep Hlast]].
    split; [cbn [map snd]; now rewrite <- app_assoc|]. split.
    + intros p' x Hnot Hx. apply Hkeep.
      * intros Hin. apply Hnot. now right.
      * apply Hother; [|exact Hx]. intros ->. apply Hnot. now left.
    + intros a q' p' b Eq Hnot. destruct a as [|y a]; cbn [app] in Eq.
      * inversion Eq; subst. now apply Hkeep.
      * inversion Eq; subst. now apply (Hlast a q' p' b).
Qed.

Lemma write_loop_fresh (d : text) (posts : list (post * path)) :
  forall acc w es,
    lookup d w = Some (Dir es) ->
    Forall (fun pp => path_dir (snd pp) = d
                      /\ probe (path_name (snd pp)) = None) posts ->
    NoDup (map snd posts) ->
    Forall (fun pp => forall x, ~ has_entry w (snd pp) x) posts ->
    exists w',
      write_loop probe posts false acc w
      = (ok (acc ++ map (fun pp => path_str (snd pp)) posts), w')
      /\ Forall (fun pp => has_entry w' (snd pp) (Document (fst pp))) posts.
Proof.
  induction posts as [|[q p] posts IH]; intros acc w es Hd Hall Hnd Hfresh.
  - exists w. cbn. rewrite app_nil_r. split; [reflexivity|constructor].
  - inversion Hall as [|? ? [Hdir Hprobe] Hrest]; subst.
    inversion Hnd as [|? ? Hnotin Hnd']; subst.
    inversion Hfresh as [|? ? Hp Hfresh']; subst. cbn [snd fst] in *.
    destruct (@dump_succeeds probe q p w es Hd Hprobe)
      as [w1 [es1 [E [Hd1 [Hdoc [Hother Hframe]]]]]].
    destruct (IH (acc ++ [path_str p]) w1 es1 Hd1 Hrest Hnd')
      as [w' [E' Hdocs]].
    { rewrite Forall_forall in Hfresh' |- *. intros [q' p'] Hin x Hx.
      cbn [snd] in *. apply (Hfresh' _ Hin x).
      apply (@dump_reflects q p p' w w1 x E); [|exact Hx].
      intros ->. apply Hnotin. apply in_map_iff. now exists (q', p). }
    exists w'. split.
    + rewrite write_loop_step.
      destruct (exists_spec p w) as [[_ [x Hx]]|[-> _]];
        [now destruct (Hp x)|].
      unfold ok. rewrite E. unfold ok. rewrite E'. cbn [map snd].
      now rewrite <- app_assoc.
    + constructor; [|exact Hdocs]. cbn [snd fst].
      pose proof (write_loop_keeps_entries probe posts
                    (acc ++ [path_str p]) Hdoc) as [Hk _].
      now rewrite E' in Hk.
Qed.

Lemma rendered_plain (out s raw : text) (pp : post * path) :
  plain s -> In raw (Regex.split pattern s) ->
  rendered parse_isoformat title_case now out raw pp ->
  plain (path_name (snd pp)).
Proof.
  intros Hs Hin [n [dt [name [l [Hn [_ [Hname [_ ->]]]]]]]].
  cbn [snd path_name]. intros Hslash. apply Hs.
  apply (@block_in_text s raw "/"%char Hin).
  apply (@slash_in_name (title n) name Hname) in Hslash.
  destruct (@extract_note_fields_shape raw n Hn)
    as [_ [_ [_ [_ [_ [_ [_ [_ [tail [_ ->]]]]]]]]]].
  apply in_or_app. right. apply in_or_app. right.
  apply in_or_app. now left.
Qed.

(** X19.  When a run on a log without a slash returns, the log was a file,
    the scratch path was free, every block of the log had passed the two
    character checks and was rendered to a post, with a name without a slash
    that the file system took; the paths returned are those of the posts in
    the order of the blocks, and the store holds under each path the post
    written there last.  Without permission to overwrite, the paths are
    pairwise distinct and none was taken before. *)
Theorem flat_note_to_atoms_returns (in_path out : text) (overwrite_ok : bool)
        (w w' : world) (paths : list text) :
  (forall s, lookup in_path w = Some (File s) -> plain s) ->
  flat_note_to_atoms parse_isoformat title_case now root_parent probe
                     in_path out overwrite_ok w = (ok paths, w') ->
  exists s posts,
    lookup in_path w = Some (File s)
    /\ lookup (temp_dir root_parent) w = None
    /\ Forall block_checked (Regex.split pattern s)
    /\ Forall2 (fun raw pp =>
                  rendered parse_isoformat title_case now out raw pp
                  /\ probe (path_name (snd pp)) = None)
               (Regex.split pattern s) posts
    /\ Forall (fun pp => plain (path_name (snd pp))) posts
    /\ paths = map (fun pp => path_str (snd pp)) posts
    /\ last_written posts w'
    /\ (overwrite_ok = false ->
        NoDup (map snd posts)
        /\ Forall (fun pp => forall x, ~ has_entry w (snd pp) x) posts).
Proof.
  unfold flat_note_to_atoms, bind, lift. intros Hplain H.
  pose proof (get_notes_from_path_store in_path w) as Hs.
  pose proof (get_notes_from_path_ok in_path w) as H1.
  destruct (get_notes_from_path in_path w) as [[e|notes] w1];
    [discriminate|].
  cbn [fst snd] in Hs, H1. subst w1.
  destruct (proj1 (H1 notes) eq_refl) as [s [Hfile [-> Hchecked]]]. clear H1.
  destruct (decompose_notes (Regex.split pattern s)) as [e|ds] eqn:E2;
    [discriminate|].
  apply decompose_notes_ok in E2. destruct E2 as [_ [ns [-> F1]]].
  destruct (validate_datetimes parse_isoformat (map Some ns)) as [e|ns1] eqn:E3;
    [discriminate|].
  apply validate_datetimes_ok in E3.
  destruct (add_filenames root_parent probe ns1 w) as [[e|ns2] w2] eqn:E4;
    [discriminate|].
  apply add_filenames_ok in E4. destruct E4 as [Hfree [-> F3]].
  destruct (parse_tags ns2) as [e|ns3] eqn:E5; [discriminate|].
  unfold output_notes, bind, lift, write_notes in H.
  destruct (form_posts title_case now ns3 out) as [e|posts] eqn:E6;
    [discriminate|].
  destruct (write_loop_success _ _ _ _ H) as [-> [_ Hlast]].
  assert (Hr : Forall2 (fun raw pp =>
                          rendered parse_isoformat title_case now out raw pp
                          /\ probe (path_name (snd pp)) = None)
                       (Regex.split pattern s) posts).
  { apply rendered_stages. now exists ns, ns1, ns2, ns3. }
  exists s, posts. repeat split; try assumption.
  - apply Forall_forall. intros pp Hpp.
    destruct (Forall2_in_r Hr pp Hpp) as [raw [Hraw [Hrd _]]].
    exact (@rendered_plain out s raw pp (Hplain s Hfile) Hraw Hrd).
  - subst overwrite_ok.
    now destruct (write_loop_returns probe posts [] w H) as [_ [Hnd _]].
  - subst overwrite_ok.
    now destruct (write_loop_returns probe posts [] w H) as [_ [_ [Hf _]]].
Qed.

(** X20.  A run returns when the log is a file that is not one of the
    output directory, the scratch path is free, the output directory is
    there, every block of the log passes the two character checks and is
    rendered to a post, every name is without a slash and one that the file
    system takes and, unless overwriting is permitted, the names are
    pairwise distinct and not yet in the output directory.  It returns the
    paths of the posts in the order of the blocks and leaves under each path
    the post written there last. *)
Theorem flat_note_to_atoms_succeeds (in_path out : text) (overwrite_ok : bool)
        (w : world) (s : text) (es : list (text * filedata))
        (posts : list (post * path)) :
  lookup in_path w = Some (File s) ->
  lookup (temp_dir root_parent) w = None ->
  lookup out w = Some (Dir es) ->
  outside out in_path ->
  Forall block_checked (Regex.split pattern s) ->
  Forall2 (fun raw pp =>
             rendered parse_isoformat title_case now out raw pp
             /\ probe (path_name (snd pp)) = None)
          (Regex.split pattern s) posts ->
  Forall (fun pp => plain (path_name (snd pp))) posts ->
  overwrite_ok = true
  \/ (NoDup (map snd posts)
      /\ Forall (fun pp => lookup (path_name (snd pp)) es = None) posts) ->
  exists w',
    flat_note_to_atoms parse_isoformat title_case now root_parent probe
                       in_path out overwrite_ok w
    = (ok (map (fun pp => path_str (snd pp)) posts), w')
    /\ last_written posts w'.
Proof.
  intros Hfile Hfree Hout _ Hchecked Hr _ Hw.
  assert (Hprobe : Forall (fun pp => probe (path_name (snd pp)) = None) posts).
  { clear - Hr. revert Hr. generalize (Regex.split pattern s).
    intros l Hr. induction Hr as [|raw pp l posts [_ Hp] _ IH];
      constructor; assumption. }
  apply rendered_stages in Hr.
  destruct Hr as [ns [ns1 [ns2 [ns3 [F1 [F2 [F3 [E5 E6]]]]]]]].
  assert (Hdirs : Forall (fun pp => path_dir (snd pp) = out
                                    /\ probe (path_name (snd pp)) = None)
                         posts).
  { pose proof (form_posts_dirs _ _ _ _ E6) as Hd.
    rewrite Forall_forall in Hd, Hprobe |- *. intros pp Hin.
    split; [now apply Hd|now apply Hprobe]. }
  unfold flat_note_to_atoms, bind, lift.
  pose proof (get_notes_from_path_store in_path w) as Hs.
  assert (E1 : fst (get_notes_from_path in_path w)
               = ok (Regex.split pattern s)).
  { apply get_notes_from_path_ok. now exists s. }
  destruct (get_notes_from_path in_path w) as [r w1].
  cbn [fst snd] in Hs, E1. subst w1 r. unfold ok at 1.
  rewrite (proj2 (decompose_notes_ok (Regex.split pattern s) (map Some ns)));
    [|split; [apply split_from_nonempty|now exists ns]].
  unfold ok at 1.
  rewrite (proj2 (validate_datetimes_ok ns ns1) F2). unfold ok at 1.
  rewrite (proj2 (add_filenames_ok ns1 ns2 w w));
    [|now repeat split].
  unfold ok at 1. rewrite E5. unfold ok at 1.
  unfold output_notes, bind, lift, write_notes. rewrite E6. unfold ok at 1.
  destruct overwrite_ok.
  - destruct (@write_loop_overwriting probe out posts [] w es Hout Hdirs)
      as [w' [es' [E [_ [_ [_ Hlast]]]]]].
    exists w'. split; [exact E|exact Hlast].
  - destruct Hw as [Hw|[Hnd Hnew]]; [discriminate|].
    destruct (@write_loop_fresh out posts [] w es Hout Hdirs Hnd)
      as [w' [E Hdocs]].
    { rewrite Forall_forall in Hnew, Hdirs |- *.
      intros pp Hin x [es' [H1 H2]].
      rewrite (proj1 (Hdirs pp Hin)), Hout in H1. injection H1 as <-.
      rewrite (Hnew pp Hin) in H2. discriminate. }
    exists w'. split; [exact E|].
    intros a q p b Eq _. rewrite Forall_forall in Hdocs.
    apply (Hdocs (q, p)). rewrite Eq. apply in_elt.
Qed.

End Stages.

Lemma flat_note_to_atoms_returns_witness :
  exists (s : text) (posts : list (post * path)),
    lookup Sample.log_path Sample.store = Some (File s)
    /\ plain s
    /\ [str "/home/user/zettel/buy_milk.md"]
       = map (fun pp => path_str (snd pp)) posts
    /\ Forall (fun pp => plain (path_name (snd pp))) posts
    /\ NoDup (map snd posts).
Proof.
  assert (Hplain : forall s,
             lookup Sample.log_path Sample.store = Some (File s) -> plain s).
  { intros s H. change (lookup Sample.log_path Sample.store)
      with (Some (File Sample.buy_milk)) in H.
    injection H as <-. exact buy_milk_plain. }
  destruct (@flat_note_to_atoms_returns
              Sample.parse_isoformat Sample.title_case Sample.now
              Sample.root_parent Sample.probe
              Sample.log_path Sample.out_dir false Sample.store
              (snd (Sample.run Sample.log_path Sample.out_dir false
                               Sample.store))
              [str "/home/user/zettel/buy_milk.md"] Hplain)
    as [s [posts [H1 [_ [_ [_ [H5 [H6 [_ H8]]]]]]]]].
  - vm_compute. reflexivity.
  - exists s, posts. split; [exact H1|]. split; [exact (Hplain s H1)|].
    split; [exact H6|]. split; [exact H5|].
    now destruct (H8 eq_refl).
Defined.

Lemma flat_note_to_atoms_succeeds_witness :
  exists w',
    Sample.run Sample.log_path Sample.out_dir false Sample.store
    = (ok [path_str (snd buy_milk_post)], w')
    /\ last_written [buy_milk_post] w'.
Proof.
  apply (@flat_note_to_atoms_succeeds
           Sample.parse_isoformat Sample.title_case Sample.now
           Sample.root_parent Sample.probe
           Sample.log_path Sample.out_dir false Sample.store
           Sample.buy_milk [] [buy_milk_post]).
  - reflexivity.
  - reflexivity.
  - reflexivity.
  - exact log_outside_out_dir.
  - replace (Regex.split pattern Sample.buy_milk) with [Sample.buy_milk]
      by (vm_compute; reflexivity).
    constructor; [|constructor]. split.
    + eexists. lazy. reflexivity.
    + exists (removelast Sample.buy_milk). vm_compute. reflexivity.
  - replace (Regex.split pattern Sample.buy_milk) with [Sample.buy_milk]
      by (vm_compute; reflexivity).
    constructor; [|constructor]. split; [|reflexivity].
    exists (Note (str "2024-01-01 10:00:00") (str "Buy milk")
                 (str "Need milk for coffee") (str "[errand, home,]")
                 None None),
      (str "2024-01-01T10:00:00"), (str "buy_milk.md"),
      [str "errand"; str "home"].
    repeat split; vm_compute; reflexivity.
  - constructor; [|constructor]. intros H. vm_compute in H.
    repeat (destruct H as [H|H]; [discriminate H|]). exact H.
  - right. split.
    + constructor; [intros []|constructor].
    + constructor; [reflexivity|constructor].
Defined.

(** ** The guard of the output directory *)

(** X21.  [validate_dir] only looks: it returns for a directory that is
    there, and then a post under a name that the file system takes can be
    written into it; it raises ["out_dir_path must exist"] where [dump]
    would fail with [ENOENT], and ["out_dir_path must be a directory"]
    where [dump] would fail with [ENOTDIR].  For a name with a NUL
    character [dump] fails in both cases with the [ValueError] of the
    name, which Python raises before it asks the host. *)
Theorem validate_dir_guards_dump (probe : text -> option refusal)
        (out name : text) (q : post) (w : world) :
  snd (validate_dir out w) = w
  /\ match fst (validate_dir out w) with
     | inr _ =>
         (exists es, lookup out w = Some (Dir es))
         /\ (probe name = None ->
             exists w', FS.dump probe q (Path out name) w = (ok tt, w'))
     | inl e =>
         (e = ValueError (msg "out_dir_path must exist")
          /\ lookup out w = None
          /\ FS.dump probe q (Path out name) w
             = (throw (match probe name with
                       | Some NullByte => ValueError (msg "embedded null byte")
                       | _ => OSError ENOENT (path_str (Path out name))
                       end), w))
         \/ (e = ValueError (msg "out_dir_path must be a directory")
             /\ (exists s, lookup out w = Some (File s))
             /\ FS.dump probe q (Path out name) w
                = (throw (match probe name with
                          | Some NullByte =>
                              ValueError (msg "embedded null byte")
                          | _ => OSError ENOTDIR (path_str (Path out name))
                          end), w))
     end.
Proof.
  unfold validate_dir, bind, FS.dir_exists, FS.is_dir, FS.dump, FS.null_byte,
    raise, ret.
  cbn [path_dir path_name].
  destruct (lookup out w) as [[s|es]|] eqn:E; cbn [negb fst snd];
    rewrite ?E; cbn [negb fst snd].
  - split; [reflexivity|]. right. split; [reflexivity|].
    split; [now exists s|]. now destruct (probe name) as [[e|]|].
  - split; [reflexivity|]. split; [now exists es|].
    intros ->. destruct (lookup name es); now eexists.
  - split; [reflexivity|]. left. split; [reflexivity|].
    split; [reflexivity|]. now destruct (probe name) as [[e|]|].
Qed.

Lemma validate_dir_guards_dump_witness :
  exists w',
    FS.dump Sample.probe Drafts.milk (Path Sample.out_dir (str "buy_milk.md"))
            Sample.store
    = (ok tt, w').
Proof.
  pose proof (@validate_dir_guards_dump Sample.probe Sample.out_dir
                (str "buy_milk.md") Drafts.milk Sample.store) as [_ H].
  change (fst (validate_dir Sample.out_dir Sample.store))
    with (@inr exn unit tt) in H.
  cbv iota in H. destruct H as [_ H]. apply H. reflexivity.
Defined.

(** ** The errors of the reader *)

Lemma for_each_throw {A B} (f : A -> res B) (l : list A) (e : exn) :
  for_each f l = throw e -> exists a, In a l /\ f a = throw e.
Proof.
  induction l as [|a l IH]; [discriminate|]. simpl.
  destruct (f a) as [e'|b] eqn:Ea; simpl.
  - intros H. injection H as ->. exists a. split; [now left|exact Ea].
  - destruct (for_each f l) as [e'|bs]; simpl; [|discriminate].
    intros H. injection H as ->. destruct (IH eq_refl) as [x [Hin Hx]].
    exists x. split; [now right|exact Hx].
Qed.

Lemma stamp_not_empty (ts : text) : stamp_shaped ts -> ts <> [].
Proof.
  intros [y [mo [d [h [mi [sc [[Ly _] [_ [_ [_ [_ [_ ->]]]]]]]]]]]].
  destruct y; [discriminate Ly|discriminate].
Qed.

Lemma closes_start (s : text) : closes [] s [].
Proof.
  intros m Hm.
  destruct (pattern_match_shape _ _ Hm) as [sn' [_ [_ [E _]]]].
  discriminate.
Qed.

Lemma split_tail_stamps (s : text) :
  Forall starts_with_stamp (tl (Regex.split pattern s)).
Proof.
  unfold Regex.split.
  destruct (proj1 (split_from_hd_stamps s) [] [] [] (Forall_nil _))
    as [_ H]; [now exists s|exact H].
Qed.

Lemma last_app_nonempty {A} (l1 l2 : list A) (d : A) :
  l2 <> [] -> last (l1 ++ l2) d = last l2 d.
Proof.
  intros H. induction l1 as [|a l1 IH]; [reflexivity|].
  cbn [app]. rewrite <- IH.
  destruct (l1 ++ l2) eqn:E; [|reflexivity].
  apply app_eq_nil in E. now destruct E.
Qed.

Lemma last_in {A} (l : list A) (d : A) : l <> [] -> In (last l d) l.
Proof.
  induction l as [|a [|b l] IH]; intros H; [contradiction|now left|].
  right. apply IH. discriminate.
Qed.

Lemma split_blocks_not_empty (s : text) :
  s <> [] -> Forall (fun b => b <> []) (Regex.split pattern s).
Proof.
  intros Hs. destruct s as [|c rs]; [contradiction|].
  pose proof (split_tail_stamps (c :: rs)) as Htl.
  unfold Regex.split in *. cbn [split_from] in *.
  destruct (run pattern Some (MState [] (c :: rs) [])) as [m|] eqn:Em.
  - destruct (pattern_match_shape _ _ Em) as [sn' [_ [_ [E _]]]].
    discriminate.
  - destruct (proj1 (split_from_hd_stamps rs) [c] [c] [] (Forall_nil _))
      as [[mid Hmid] _]; [now exists rs|].
    pose proof (@split_from_nonempty pattern rs [c] [c] 0) as Hne.
    destruct (split_from pattern [c] rs [c] 0) as [|b bs]; [contradiction|].
    cbn [hd tl rev app] in *. constructor.
    + rewrite Hmid. discriminate.
    + eapply Forall_impl; [|exact Htl].
      intros b' [ts [rest [Hts ->]]] E. apply app_eq_nil in E.
      now apply (stamp_not_empty Hts).
Qed.

Lemma join_last (sep : text) (l : list text) :
  l <> [] -> exists front, join sep l = front ++ last l [].
Proof.
  induction l as [|a l IH]; [contradiction|]. intros _.
  destruct l as [|b l].
  - now exists [].
  - destruct IH as [front E]; [discriminate|].
    exists (a ++ sep ++ front).
    rewrite join_cons by discriminate. rewrite E.
    change (last (a :: b :: l) []) with (last (b :: l) []).
    now rewrite <- !app_assoc.
Qed.

Lemma ends_with_bracket_last (b : text) :
  ends_with_bracket b <-> b <> [] /\ last b "2"%char = "]"%char.
Proof.
  split.
  - intros [front ->]. split; [now destruct front|apply last_last].
  - intros [Hne E]. exists (removelast b).
    rewrite <- E. now apply app_removelast_last.
Qed.

Lemma block_check_errors (b : text) (e : exn) :
  b <> [] ->
  (c0 <- first_char b ;;
   if negb (if ascii_dec c0 "2" then true else false)
   then throw (ValueError (msg "note doesnt start with a 2"))
   else
     c1 <- last_char b ;;
     if negb (if ascii_dec c1 "]" then true else false)
     then throw (ValueError (msg "note doesnt end with a ']'"))
     else ok tt)%res = throw e ->
  e = ValueError (msg "note doesnt start with a 2")
  \/ (e = ValueError (msg "note doesnt end with a ']'")
      /\ ~ ends_with_bracket b).
Proof.
  intros Hne. destruct b as [|c b]; [contradiction|].
  cbn [first_char rbind ok].
  destruct (ascii_dec c "2") as [->|]; cbn [negb].
  - cbn [last_char rbind ok].
    destruct (ascii_dec (last b "2"%char) "]") as [|N]; cbn [negb];
      [discriminate|].
    intros H. injection H as <-. right. split; [reflexivity|].
    intros Hb. apply ends_with_bracket_last in Hb. destruct Hb as [_ Hb].
    apply N. rewrite <- Hb. now destruct b.
  - intros H. injection H as <-. now left.
Qed.

(** X23.  The errors of [get_notes_from_path] on a file that is read as the
    text [s]: [IndexError] for the empty text and for no other; and the two
    [ValueError]s of the character checks, of which the one for the closing
    bracket is raised only when the text itself does not end with a
    bracket. *)
Theorem get_notes_from_path_errors (p : text) (w : world) (s : text) :
  lookup p w = Some (File s) ->
  (s = [] ->
   fst (get_notes_from_path p w)
   = throw (IndexError (msg "string index out of range")))
  /\ forall e,
      fst (get_notes_from_path p w) = throw e ->
      (s = [] /\ e = IndexError (msg "string index out of range"))
      \/ (s <> [] /\ e = ValueError (msg "note doesnt start with a 2"))
      \/ (s <> [] /\ ~ ends_with_bracket s
          /\ e = ValueError (msg "note doesnt end with a ']'")).
Proof.
  intros Hfile.
  unfold get_notes_from_path, bind, FS.read_text, lift, ret.
  rewrite Hfile. split; [intros ->; reflexivity|]. intros e H.
  destruct s as [|c s].
  - left. split; [reflexivity|]. cbn in H. now injection H as <-.
  - right.
    destruct (for_each _ (Regex.split pattern (c :: s))) as [e'|us] eqn:E;
      cbn [fst] in H; [|discriminate].
    injection H as ->. apply for_each_throw in E.
    destruct E as [b [Hin Hb]].
    pose proof (@split_blocks_not_empty (c :: s)) as Hne.
    rewrite Forall_forall in Hne.
    destruct (block_check_errors (Hne ltac:(discriminate) b Hin) Hb)
      as [->|[-> Hnb]]; [left; split; [discriminate|reflexivity]|].
    right. split; [discriminate|]. split; [|reflexivity].
    intros Hs. apply Hnb.
    pose proof (proj1 (split_from_brackets (c :: s)) [] []
                      (@closes_start (c :: s))) as Hfront.
    pose proof (@split_from_nonempty pattern (c :: s) [] [] 0) as Hnil.
    pose proof (proj1 (split_from_join (c :: s)) [] []) as Hjoin.
    fold (Regex.split pattern (c :: s)) in Hnil, Hfront, Hjoin.
    cbn [rev app] in Hjoin.
    assert (Hlast : last (Regex.split pattern (c :: s)) [] <> []).
    { apply Hne; [discriminate|]. now apply last_in. }
    rewrite (app_removelast_last [] Hnil) in Hin.
    apply in_app_or in Hin. destruct Hin as [Hin|[<-|[]]].
    + rewrite Forall_forall in Hfront. now apply Hfront.
    + destruct (join_last blank_line Hnil) as [front E].
      rewrite Hjoin in E.
      apply ends_with_bracket_last in Hs. destruct Hs as [_ Hs].
      apply ends_with_bracket_last. split; [exact Hlast|].
      rewrite E in Hs. now rewrite last_app_nonempty in Hs.
Qed.

Lemma get_notes_from_path_errors_witness :
  let w := [(Sample.log_path, File (str "2024-01-01 10:00:00 - Buy milk"))] in
  lookup Sample.log_path w
  = Some (File (str "2024-01-01 10:00:00 - Buy milk"))
  /\ fst (get_notes_from_path Sample.log_path w)
     = throw (ValueError (msg "note doesnt end with a ']'"))
  /\ ~ ends_with_bracket (str "2024-01-01 10:00:00 - Buy milk").
Proof.
  cbv zeta.
  assert (H : lookup Sample.log_path
                     [(Sample.log_path,
                       File (str "2024-01-01 10:00:00 - Buy milk"))]
              = Some (File (str "2024-01-01 10:00:00 - Buy milk")))
    by reflexivity.
  assert (E : fst (get_notes_from_path Sample.log_path
                     [(Sample.log_path,
                       File (str "2024-01-01 10:00:00 - Buy milk"))])
              = throw (ValueError (msg "note doesnt end with a ']'")))
    by (vm_compute; reflexivity).
  split; [exact H|]. split; [exact E|].
  destruct (@get_notes_from_path_errors Sample.log_path _ _ H) as [_ Hall].
  destruct (Hall _ E) as [[Hs _]|[[_ He]|[_ [Hn _]]]];
    [discriminate Hs|discriminate He|exact Hn].
Defined.
